(** * StatusPulse: the monitoring engine and the SCHP client

    A shallow embedding of [schp_client.py] and [monitor_engine.py]:
    the capability-document aggregation, the HTTP checker, the
    up/down/incident state machine, the alert dispatcher and the
    scheduler cycle, together with the properties of the specification
    that concern them. *)

From Stdlib Require Import ZArith List String Ascii Bool Lia.
From Stdlib Require Import DecimalString PrimFloat.
Import ListNotations.

#[local] Set Warnings "-register-all".
Local Open Scope string_scope.
Local Open Scope Z_scope.

(** ** Python values *)

Module Py.

(** What [json.loads] produces.  A [dict] is an association list in
    insertion order; Python keeps its keys distinct.  Nothing below
    relies on that distinctness: lookups take the first binding and
    iteration visits every binding. *)
Inductive json : Type :=
| JNull
| JBool (b : bool)
| JInt (n : Z)
| JFloat (f : float)
| JStr (s : string)
| JList (l : list json)
| JDict (d : list (string * json)).

Definition dict : Type := list (string * json).

(** Exceptions carry their class and the text [str(e)] yields. *)
Inductive exn_class : Type :=
| AttributeError
| KeyError
| APIError
| TimeoutException
| ConnectError
| TooManyRedirects
| OtherError.

Record exn : Type := Exn { exn_cls : exn_class; exn_str : string }.

Inductive result (A : Type) : Type :=
| Ok (a : A)
| Raise (e : exn).
Arguments Ok {A} a.
Arguments Raise {A} e.

(** [bool(x)]. *)
Definition truthy (j : json) : bool :=
  match j with
  | JNull => false
  | JBool b => b
  | JInt n => negb (n =? 0)
  | JFloat f => negb (PrimFloat.eqb f PrimFloat.zero)
  | JStr s => negb (s =? "")%string
  | JList l => match l with [] => false | _ => true end
  | JDict d => match d with [] => false | _ => true end
  end.

(** [k in d] and [d[k]] / [d.get(k)]. *)
Fixpoint lookup (k : string) (d : dict) : option json :=
  match d with
  | [] => None
  | (k', v) :: rest => if (k =? k')%string then Some v else lookup k rest
  end.

Definition contains (k : string) (d : dict) : bool :=
  match lookup k d with Some _ => true | None => false end.

(** [d.get(k, default)]. *)
Definition get_default (k : string) (default : json) (d : dict) : json :=
  match lookup k d with Some v => v | None => default end.

Definition isinstance_dict (j : json) : bool :=
  match j with JDict _ => true | _ => false end.

Definition isinstance_bool (j : json) : bool :=
  match j with JBool _ => true | _ => false end.

(** [str(n)] for an [int]. *)
Definition str_of_int (n : Z) : string := NilZero.string_of_int (Z.to_int n).

(** [s[:n]]. *)
Definition prefix (n : nat) (s : string) : string := substring 0 n s.

(** [all(f(x) for x in l)] and [any(...)]: both stop at the first
    deciding element, so an element that would raise behind it is
    never evaluated. *)
Fixpoint all_gen {A : Type} (f : A -> result bool) (l : list A) : result bool :=
  match l with
  | [] => Ok true
  | x :: rest =>
      match f x with
      | Raise e => Raise e
      | Ok false => Ok false
      | Ok true => all_gen f rest
      end
  end.

Fixpoint any_gen {A : Type} (f : A -> result bool) (l : list A) : result bool :=
  match l with
  | [] => Ok false
  | x :: rest =>
      match f x with
      | Raise e => Raise e
      | Ok true => Ok true
      | Ok false => any_gen f rest
      end
  end.

(** [str.upper] on ASCII text. *)
Definition upper_ascii (c : ascii) : ascii :=
  let n := nat_of_ascii c in
  if (97 <=? n)%nat && (n <=? 122)%nat then ascii_of_nat (n - 32) else c.

Fixpoint upper (s : string) : string :=
  match s with
  | EmptyString => EmptyString
  | String c rest => String (upper_ascii c) (upper rest)
  end.

(** [s.endswith(suffix)] and [s.rstrip('/')]. *)
Fixpoint rev_string (s acc : string) : string :=
  match s with
  | EmptyString => acc
  | String c rest => rev_string rest (String c acc)
  end.

Definition endswith (s suffix : string) : bool :=
  String.prefix (rev_string suffix "") (rev_string s "").

Fixpoint lstrip_char (c : ascii) (s : string) : string :=
  match s with
  | EmptyString => EmptyString
  | String c' rest => if Ascii.eqb c c' then lstrip_char c rest else s
  end.

Definition rstrip_char (c : ascii) (s : string) : string :=
  rev_string (lstrip_char c (rev_string s "")) "".

End Py.

Import Py.

(** ** [schp_client.py]: the pure part of [SCHPClient] *)

Module SCHP.

Definition attribute_error (what : string) : exn := Exn AttributeError what.

(** [_validate_schp_response]: [None] is [{"valid": True}], [Some msg]
    is [{"valid": False, "error": msg}]. *)
Fixpoint validate_capabilities (caps : dict) : option string :=
  match caps with
  | [] => None
  | (name, cap) :: rest =>
      match cap with
      | JDict c =>
          match lookup "ok" c with
          | None => Some ("Capability '" ++ name ++ "' missing 'ok' field")
          | Some ok =>
              if isinstance_bool ok then validate_capabilities rest
              else Some ("Capability '" ++ name ++ "' 'ok' must be boolean")
          end
      | _ => Some ("Capability '" ++ name ++ "' must be object")
      end
  end.

Definition _validate_schp_response (data : json) : option string :=
  match data with
  | JDict d =>
      match lookup "capabilities" d with
      | None => Some "Missing 'capabilities' field"
      | Some (JDict caps) => validate_capabilities caps
      | Some _ => Some "'capabilities' must be object"
      end
  | _ => Some "Response must be object"
  end.

(** [c.get("ok", False)] for one capability, as a truth value. *)
Definition cap_ok (c : json) : result bool :=
  match c with
  | JDict d => Ok (truthy (get_default "ok" (JBool false) d))
  | _ => Raise (attribute_error "object has no attribute 'get'")
  end.

(** [get_overall_status]. *)
Definition get_overall_status (data : dict) : result json :=
  if negb (truthy (JDict data)) || negb (contains "capabilities" data) then
    Ok (JStr "unknown")
  else
    match lookup "status" data with
    | Some s => Ok s
    | None =>
        let caps := get_default "capabilities" JNull data in
        if negb (truthy caps) then Ok (JStr "unknown")
        else
          match caps with
          | JDict cs =>
              let values := map snd cs in
              match all_gen cap_ok values with
              | Raise e => Raise e
              | Ok all_ok =>
                  match any_gen cap_ok values with
                  | Raise e => Raise e
                  | Ok any_ok =>
                      if all_ok then Ok (JStr "operational")
                      else if any_ok then Ok (JStr "degraded")
                      else Ok (JStr "down")
                  end
              end
          | _ => Raise (attribute_error "object has no attribute 'values'")
          end
    end.

(** [get_failed_capabilities]: names whose [cap.get("ok", True)] is
    falsy, in document order. *)
Fixpoint failed_names (caps : dict) : result (list string) :=
  match caps with
  | [] => Ok []
  | (name, cap) :: rest =>
      match cap with
      | JDict c =>
          match failed_names rest with
          | Raise e => Raise e
          | Ok names =>
              if truthy (get_default "ok" (JBool true) c) then Ok names
              else Ok (name :: names)
          end
      | _ => Raise (attribute_error "object has no attribute 'get'")
      end
  end.

Definition get_failed_capabilities (data : dict) : result (list string) :=
  if negb (truthy (JDict data)) || negb (contains "capabilities" data) then Ok []
  else
    match get_default "capabilities" JNull data with
    | JDict cs => failed_names cs
    | _ => Raise (attribute_error "object has no attribute 'items'")
    end.

(** The "ok" flag a capability declares, when it declares one. *)
Definition declares_ok (b : bool) (entry : string * json) : Prop :=
  exists c, snd entry = JDict c /\ lookup "ok" c = Some (JBool b).

(** The truth value [get_overall_status] reads off one entry of the
    capabilities map when the entry is an object. *)
Definition ok_flag (entry : string * json) : bool :=
  match snd entry with
  | JDict c => truthy (get_default "ok" (JBool false) c)
  | _ => false
  end.

(** An entry of the capabilities map that is an object with a
    boolean ["ok"]. *)
Definition well_formed_capability (entry : string * json) : Prop :=
  exists b, declares_ok b entry.

(** [sum(1 for c in caps.values() if c.get("ok", False))]: the
    generator is run to its end. *)
Fixpoint count_ok (values : list json) : result nat :=
  match values with
  | [] => Ok 0%nat
  | c :: rest =>
      match cap_ok c with
      | Raise e => Raise e
      | Ok b =>
          match count_ok rest with
          | Raise e => Raise e
          | Ok n => Ok (if b then S n else n)
          end
      end
  end.

Definition str_of_nat (n : nat) : string := str_of_int (Z.of_nat n).

(** [value == "text"] for a value that may be of any type. *)
Definition is_str (value : json) (text : string) : bool :=
  match value with
  | JStr s => (s =? text)%string
  | _ => false
  end.

Definition summary_unavailable : string := "Unable to fetch capabilities".
Definition summary_down : string := "🔴 Down — All capabilities unavailable".

Definition summary_operational (ok_count total : nat) : string :=
  "✅ Operational (" ++ str_of_nat ok_count ++ "/" ++ str_of_nat total
    ++ " capabilities OK)".

Definition summary_degraded (failed : list string) (ok_count total : nat) : string :=
  "⚠️ Degraded — " ++ String.concat ", " failed ++ " unavailable ("
    ++ str_of_nat ok_count ++ "/" ++ str_of_nat total ++ " OK)".

(** [format_status_summary]. *)
Definition format_status_summary (data : dict) : result string :=
  if negb (truthy (JDict data)) then Ok summary_unavailable
  else
    match get_overall_status data with
    | Raise e => Raise e
    | Ok status =>
        match get_default "capabilities" (JDict []) data with
        | JDict cs =>
            let total := List.length cs in
            match count_ok (map snd cs) with
            | Raise e => Raise e
            | Ok ok_count =>
                if is_str status "operational" then
                  Ok (summary_operational ok_count total)
                else if is_str status "degraded" then
                  match get_failed_capabilities data with
                  | Raise e => Raise e
                  | Ok failed => Ok (summary_degraded failed ok_count total)
                  end
                else Ok summary_down
            end
        | JList _ | JStr _ => Raise (attribute_error "object has no attribute 'values'")
        | _ => Raise (Exn OtherError "object has no len()")
        end
    end.

End SCHP.

(** ** [monitor_engine.py]: [MonitorEngine] *)

Module Engine.

(** Timestamps are microseconds since the epoch, the resolution of
    [datetime]; the ISO-8601 text the store keeps is not modelled.
    [timedelta.total_seconds()] is taken as the exact quotient by
    [10^6]. *)
Definition timestamp : Type := Z.
Definition usec_per_sec : Z := 1000000.

(** *** Rows of the store *)

Record Monitor : Type := mkMonitor {
  m_id : string;
  m_name : string;
  m_url : string;
  m_method : string;
  m_expected_status : Z;
  m_timeout_seconds : Z;
  m_check_interval_seconds : Z;
  m_is_active : bool;
  m_current_status : string;
  m_last_checked_at : option timestamp;
  m_last_status_change_at : option timestamp;
  m_updated_at : option timestamp
}.

Record Check : Type := mkCheck {
  c_monitor_id : string;
  c_status_code : option Z;
  c_response_time_ms : option Z;
  c_is_up : bool;
  c_error_message : option string;
  c_checked_at : timestamp
}.

Record Incident : Type := mkIncident {
  i_id : Z;
  i_monitor_id : string;
  i_started_at : timestamp;
  i_resolved_at : option timestamp;
  i_duration_seconds : option Z;
  i_is_resolved : bool
}.

Record AlertConfig : Type := mkAlertConfig {
  a_id : string;
  a_monitor_id : string;
  a_alert_type : string;
  a_destination : string;
  a_is_active : bool
}.

Record AlertHistory : Type := mkAlertHistory {
  h_alert_config_id : string;
  h_monitor_id : string;
  h_alert_type : string;
  h_message : string;
  h_was_successful : bool
}.

(** *** The outside world *)

(** What one outgoing HTTP request comes back with: a response
    (status code, measured latency in milliseconds, the body when it
    parses as JSON) or the exception [httpx] raises. *)
Inductive http_outcome : Type :=
| Response (status_code : Z) (elapsed_ms : Z) (body : option json)
| Failure (e : exn).

(** The network calls the engine can issue, as they appear in the
    trace. *)
Inductive net_call : Type :=
| HttpProbe (method url : string) (timeout : Z)
| CapabilityFetch (url : string) (timeout : Z)
| WebhookPost (destination name url status : string) (sent_at : timestamp)
| SmtpSend (destination status name url : string) (sent_at : timestamp).

(** The environment answers the k-th clock reading, the k-th store
    request and the k-th network call.  [single_no_row] is what the
    store client does when [.single().execute()] matches no row: the
    postgrest client raises ([Some e], an [APIError] with code
    PGRST116), the client mocked in [tests/] answers with
    [data=None] ([None]). *)
Record Env : Type := mkEnv {
  clock : nat -> timestamp;
  store_fault : nat -> option exn;
  single_no_row : option exn;
  http : nat -> http_outcome;
  smtp : nat -> option exn
}.

(** The engine's settings, read from the process environment by
    [__init__]. *)
Record Config : Type := mkConfig {
  smtp_email : string;
  smtp_password : string;
  smtp_host : string;
  smtp_port : Z
}.

Record World : Type := mkWorld {
  monitors : list Monitor;
  checks : list Check;
  incidents : list Incident;
  alert_configs : list AlertConfig;
  alert_history : list AlertHistory;
  n_clock : nat;
  n_store : nat;
  n_net : nat;
  trace : list net_call
}.

Definition set_monitors (v : list Monitor) (w : World) : World :=
  mkWorld v (checks w) (incidents w) (alert_configs w) (alert_history w)
          (n_clock w) (n_store w) (n_net w) (trace w).
Definition set_checks (v : list Check) (w : World) : World :=
  mkWorld (monitors w) v (incidents w) (alert_configs w) (alert_history w)
          (n_clock w) (n_store w) (n_net w) (trace w).
Definition set_incidents (v : list Incident) (w : World) : World :=
  mkWorld (monitors w) (checks w) v (alert_configs w) (alert_history w)
          (n_clock w) (n_store w) (n_net w) (trace w).
Definition set_alert_history (v : list AlertHistory) (w : World) : World :=
  mkWorld (monitors w) (checks w) (incidents w) (alert_configs w) v
          (n_clock w) (n_store w) (n_net w) (trace w).
Definition tick_clock (w : World) : World :=
  mkWorld (monitors w) (checks w) (incidents w) (alert_configs w) (alert_history w)
          (S (n_clock w)) (n_store w) (n_net w) (trace w).
Definition tick_store (w : World) : World :=
  mkWorld (monitors w) (checks w) (incidents w) (alert_configs w) (alert_history w)
          (n_clock w) (S (n_store w)) (n_net w) (trace w).
Definition tick_net (call : net_call) (w : World) : World :=
  mkWorld (monitors w) (checks w) (incidents w) (alert_configs w) (alert_history w)
          (n_clock w) (n_store w) (S (n_net w)) (trace w ++ [call]).

(** *** Computations: state that survives an exception *)

Definition M (A : Type) : Type := World -> result A * World.

Definition ret {A : Type} (a : A) : M A := fun w => (Ok a, w).

Definition bind {A B : Type} (c : M A) (k : A -> M B) : M B :=
  fun w =>
    match c w with
    | (Ok a, w') => k a w'
    | (Raise e, w') => (Raise e, w')
    end.

Definition raise {A : Type} (e : exn) : M A := fun w => (Raise e, w).

(** [try: c except Exception as e: handler(e)]. *)
Definition try_except {A : Type} (c : M A) (handler : exn -> M A) : M A :=
  fun w =>
    match c w with
    | (Ok a, w') => (Ok a, w')
    | (Raise e, w') => handler e w'
    end.

Definition lift {A : Type} (r : result A) : M A := fun w => (r, w).

Declare Scope engine_scope.
Delimit Scope engine_scope with engine.
Notation "x <- c ;; k" := (bind c (fun x => k))
  (at level 61, c at next level, right associativity) : engine_scope.
Notation "c ;;; k" := (bind c (fun _ => k))
  (at level 61, right associativity) : engine_scope.
Local Open Scope engine_scope.

(** [for x in l: body(x)]. *)
Fixpoint for_each {A : Type} (l : list A) (body : A -> M unit) : M unit :=
  match l with
  | [] => ret tt
  | x :: rest => body x ;;; for_each rest body
  end.

(** The fields of one [monitors.update(...)] request. *)
Record MonitorUpdate : Type := mkMonitorUpdate {
  u_current_status : string;
  u_last_checked_at : timestamp;
  u_updated_at : timestamp;
  u_last_status_change_at : option timestamp
}.

Definition apply_monitor_update (monitor_id : string) (u : MonitorUpdate)
    (m : Monitor) : Monitor :=
  if (m_id m =? monitor_id)%string then
    mkMonitor (m_id m) (m_name m) (m_url m) (m_method m) (m_expected_status m)
              (m_timeout_seconds m) (m_check_interval_seconds m) (m_is_active m)
              (u_current_status u)
              (Some (u_last_checked_at u))
              (match u_last_status_change_at u with
               | Some t => Some t
               | None => m_last_status_change_at m
               end)
              (Some (u_updated_at u))
  else m.

Definition resolve_incident (id : Z) (resolved_at : timestamp) (duration : Z)
    (i : Incident) : Incident :=
  if i_id i =? id then
    mkIncident (i_id i) (i_monitor_id i) (i_started_at i)
               (Some resolved_at) (Some duration) true
  else i.

Definition is_open_for (monitor_id : string) (i : Incident) : bool :=
  (i_monitor_id i =? monitor_id)%string && negb (i_is_resolved i).

(** The key the store gives a new incident row. *)
Definition fresh_incident_id (l : list Incident) : Z :=
  1 + fold_right (fun i acc => Z.max (i_id i) acc) 0 l.

(** The result dictionaries of the two checkers. *)
Record CheckResult : Type := mkCheckResult {
  r_url : string;
  r_is_up : bool;
  r_status_code : option Z;
  r_response_time_ms : option Z;
  r_error_message : option string;
  r_checked_at : timestamp
}.

Record SCHPResult : Type := mkSCHPResult {
  s_success : bool;
  s_data : option json;
  s_error : option string;
  s_response_time_ms : option Z;
  s_fetched_at : timestamp;
  s_url : string
}.

Record CapabilityResult : Type := mkCapabilityResult {
  k_url : string;
  k_is_up : bool;
  k_status : json;
  k_capabilities : json;
  k_failed_capabilities : list string;
  k_response_time_ms : option Z;
  k_error_message : option string;
  k_checked_at : timestamp
}.

(** One element of the list [run_all_checks] returns. *)
Record CycleEntry : Type := mkCycleEntry {
  e_monitor_name : string;
  e_result : CheckResult
}.

Definition is_capability_fetch (c : net_call) : bool :=
  match c with CapabilityFetch _ _ => true | _ => false end.

(** *** The engine, over a fixed environment and configuration *)

Section WithEnv.

Variable env : Env.
Variable cfg : Config.

(** [datetime.now(timezone.utc)]. *)
Definition now : M timestamp :=
  fun w => (Ok (clock env (n_clock w)), tick_clock w).

(** One request to the store ([....execute()]): it either fails,
    leaving the tables as they are, or runs [q]. *)
Definition execute {A : Type} (q : World -> A * World) : M A :=
  fun w =>
    match store_fault env (n_store w) with
    | Some e => (Raise e, tick_store w)
    | None => let (a, w') := q (tick_store w) in (Ok a, w')
    end.

(** One outgoing HTTP request; what it comes back with is a value,
    the caller decides what raises. *)
Definition request (call : net_call) : M http_outcome :=
  fun w => (Ok (http env (n_net w)), tick_net call w).

(** One SMTP session: [starttls], [login], [send_message]. *)
Definition smtp_session (call : net_call) : M unit :=
  fun w =>
    match smtp env (n_net w) with
    | Some e => (Raise e, tick_net call w)
    | None => (Ok tt, tick_net call w)
    end.

(** **** Store requests *)

Definition select_active_monitors : M (list Monitor) :=
  execute (fun w => (filter m_is_active (monitors w), w)).

(** [.eq("id", monitor_id).single().execute()].  The rows of
    [monitors] are taken to be keyed by [id]: the lookup answers the
    row with that id, and with no such row the client does what
    [single_no_row] says. *)
Definition select_monitor_single (monitor_id : string) : M (option Monitor) :=
  fun w =>
    match store_fault env (n_store w) with
    | Some e => (Raise e, tick_store w)
    | None =>
        match find (fun m => (m_id m =? monitor_id)%string) (monitors w) with
        | Some monitor_data => (Ok (Some monitor_data), tick_store w)
        | None =>
            match single_no_row env with
            | Some e => (Raise e, tick_store w)
            | None => (Ok None, tick_store w)
            end
        end
    end.

Definition insert_check (c : Check) : M unit :=
  execute (fun w => (tt, set_checks (checks w ++ [c]) w)).

Definition update_monitor (monitor_id : string) (u : MonitorUpdate) : M unit :=
  execute (fun w =>
    (tt, set_monitors (map (apply_monitor_update monitor_id u) (monitors w)) w)).

Definition insert_incident (monitor_id : string) (started_at : timestamp) : M unit :=
  execute (fun w =>
    (tt, set_incidents
           (incidents w ++
            [mkIncident (fresh_incident_id (incidents w)) monitor_id started_at
                        None None false]) w)).

Definition select_open_incidents (monitor_id : string) : M (list Incident) :=
  execute (fun w => (filter (is_open_for monitor_id) (incidents w), w)).

Definition update_incident (id : Z) (resolved_at : timestamp) (duration : Z) : M unit :=
  execute (fun w =>
    (tt, set_incidents (map (resolve_incident id resolved_at duration) (incidents w)) w)).

Definition select_active_alert_configs (monitor_id : string) : M (list AlertConfig) :=
  execute (fun w =>
    (filter (fun a => (a_monitor_id a =? monitor_id)%string && a_is_active a)
            (alert_configs w), w)).

Definition insert_alert_history (h : AlertHistory) : M unit :=
  execute (fun w => (tt, set_alert_history (alert_history w ++ [h]) w)).

(** **** [check_url] *)

Definition http_verb (method : string) : string :=
  if (method =? "HEAD")%string then "HEAD"
  else if (method =? "POST")%string then "POST"
  else "GET".

Definition probe_result (url : string) (expected_status timeout : Z)
    (checked_at : timestamp) (out : http_outcome) : CheckResult :=
  match out with
  | Response status_code elapsed_ms _ =>
      let is_up := status_code =? expected_status in
      mkCheckResult url is_up (Some status_code) (Some elapsed_ms)
        (if negb is_up then
           Some ("Expected " ++ str_of_int expected_status ++
                 ", got " ++ str_of_int status_code)
         else None)
        checked_at
  | Failure e =>
      mkCheckResult url false None None
        (Some match exn_cls e with
              | TimeoutException => "Timeout after " ++ str_of_int timeout ++ "s"
              | ConnectError => "Connection failed: " ++ prefix 200 (exn_str e)
              | TooManyRedirects => "Too many redirects"
              | _ => "Error: " ++ prefix 200 (exn_str e)
              end)
        checked_at
  end.

Definition check_url (url method : string) (expected_status timeout : Z)
    : M CheckResult :=
  checked_at <- now ;;
  out <- request (HttpProbe (http_verb method) url timeout) ;;
  ret (probe_result url expected_status timeout checked_at out).

Definition run_check := check_url.

(** **** SCHP capability checking *)

Definition capabilities_path : string := "/health/capabilities".

Definition normalize_url (url : string) : string :=
  if negb (endswith url capabilities_path)
  then rstrip_char "/"%char url ++ capabilities_path
  else url.

Definition fetch_outcome (url : string) (timeout : Z) (fetched_at : timestamp)
    (out : http_outcome) : SCHPResult :=
  match out with
  | Response status_code elapsed_ms body =>
      let failed msg := mkSCHPResult false None (Some msg) (Some elapsed_ms) fetched_at url in
      if negb (status_code =? 200) then failed ("HTTP " ++ str_of_int status_code)
      else
        match body with
        | None => failed "Invalid JSON response"
        | Some data =>
            match SCHP._validate_schp_response data with
            | Some err => failed ("Invalid SCHP: " ++ err)
            | None => mkSCHPResult true (Some data) None (Some elapsed_ms) fetched_at url
            end
        end
  | Failure e =>
      mkSCHPResult false None
        (Some match exn_cls e with
              | TimeoutException => "Timeout after " ++ str_of_int timeout ++ "s"
              | ConnectError => "Connection failed: " ++ prefix 200 (exn_str e)
              | _ => "Error: " ++ prefix 200 (exn_str e)
              end)
        None fetched_at url
  end.

Definition fetch_capabilities (timeout : Z) (url : string) : M SCHPResult :=
  let url := normalize_url url in
  fetched_at <- now ;;
  out <- request (CapabilityFetch url timeout) ;;
  ret (fetch_outcome url timeout fetched_at out).

Definition check_capabilities (url : string) (timeout : Z) : M CapabilityResult :=
  result <- fetch_capabilities timeout url ;;
  let failed :=
    mkCapabilityResult (s_url result) false (JStr "unknown") (JDict []) []
      (s_response_time_ms result) (s_error result) (s_fetched_at result) in
  match s_data result with
  | Some (JDict data) =>
      if s_success result && truthy (JDict data) then
        status <- lift (SCHP.get_overall_status data) ;;
        names <- lift (SCHP.get_failed_capabilities data) ;;
        ret (mkCapabilityResult (s_url result)
               (match status with
                | JStr s => (s =? "operational")%string
                | _ => false
                end)
               status (get_default "capabilities" (JDict []) data) names
               (s_response_time_ms result) (s_error result) (s_fetched_at result))
      else ret failed
  | _ => ret failed
  end.

Definition run_capability_check := check_capabilities.

(** **** Saving results *)

Definition save_check_result (monitor_id : string) (result : CheckResult) : M unit :=
  insert_check
    (mkCheck monitor_id (r_status_code result) (r_response_time_ms result)
             (r_is_up result) (r_error_message result) (r_checked_at result)).

Definition save_capability_check_result (monitor_id : string)
    (result : CapabilityResult) : M unit :=
  insert_check
    (mkCheck monitor_id
       (Some (if k_is_up result then 200 else 503))
       (k_response_time_ms result) (k_is_up result)
       (match k_error_message result with
        | Some msg =>
            if negb (msg =? "")%string then Some msg
            else match k_failed_capabilities result with
                 | [] => None
                 | names => Some ("Degraded: " ++ String.concat ", " names)
                 end
        | None =>
            match k_failed_capabilities result with
            | [] => None
            | names => Some ("Degraded: " ++ String.concat ", " names)
            end
        end)
       (k_checked_at result)).

(** **** Alerts *)

Definition _send_email_alert (alert_config : AlertConfig) (monitor_data : Monitor)
    (status : string) : M unit :=
  if (smtp_email cfg =? "")%string || (smtp_password cfg =? "")%string then ret tt
  else
    rendered_at <- now ;;
    smtp_session
      (SmtpSend (a_destination alert_config)
                (if (status =? "down")%string then "down" else "up")
                (m_name monitor_data) (m_url monitor_data) rendered_at).

Definition _send_webhook_alert (alert_config : AlertConfig) (monitor_data : Monitor)
    (status : string) : M unit :=
  sent_at <- now ;;
  out <- request (WebhookPost (a_destination alert_config) (m_name monitor_data)
                              (m_url monitor_data) status sent_at) ;;
  match out with
  | Response _ _ _ => ret tt
  | Failure e => raise e
  end.

Definition send_one_alert (monitor_id : string) (monitor_data : Monitor)
    (status : string) (alert : AlertConfig) : M unit :=
  try_except
    ((if (a_alert_type alert =? "email")%string then
        _send_email_alert alert monitor_data status
      else if (a_alert_type alert =? "webhook")%string then
        _send_webhook_alert alert monitor_data status
      else ret tt) ;;;
     insert_alert_history
       (mkAlertHistory (a_id alert) monitor_id (a_alert_type alert)
          (m_name monitor_data ++ " is " ++ upper status) true))
    (fun e =>
       insert_alert_history
         (mkAlertHistory (a_id alert) monitor_id (a_alert_type alert)
            ("Failed: " ++ prefix 200 (exn_str e)) false)).

Definition _send_alerts (monitor_id : string) (monitor_data : Monitor)
    (status : string) : M unit :=
  alerts <- select_active_alert_configs monitor_id ;;
  for_each alerts (send_one_alert monitor_id monitor_data status).

(** **** The state machine *)

(** [int(td.total_seconds())]: whole seconds, rounded toward zero. *)
Definition whole_seconds (usec : Z) : Z := Z.quot usec usec_per_sec.

Definition resolve_one (resolved_at : timestamp) (incident : Incident) : M unit :=
  t <- now ;;
  update_incident (i_id incident) resolved_at
                  (whole_seconds (t - i_started_at incident)).

(** The guard ["Status changed?"] and the block under it. *)
Definition status_changed (old_status new_status : string) : bool :=
  negb (old_status =? new_status)%string && negb (old_status =? "unknown")%string.

Definition transition_effects (monitor_id : string) (monitor_data : Monitor)
    (old_status new_status : string) (t : timestamp) : M unit :=
  if (new_status =? "down")%string then
    insert_incident monitor_id t ;;;
    _send_alerts monitor_id monitor_data "down"
  else if (new_status =? "up")%string && (old_status =? "down")%string then
    open_incidents <- select_open_incidents monitor_id ;;
    for_each open_incidents (resolve_one t) ;;;
    _send_alerts monitor_id monitor_data "up"
  else ret tt.

Definition update_monitor_status (monitor_id : string) (is_up : bool) : M unit :=
  monitor <- select_monitor_single monitor_id ;;
  match monitor with
  | None => ret tt
  | Some monitor_data =>
      let old_status := m_current_status monitor_data in
      let new_status := if is_up then "up" else "down" in
      t <- now ;;
      update_data <-
        (if status_changed old_status new_status then
           transition_effects monitor_id monitor_data old_status new_status t ;;;
           ret (mkMonitorUpdate new_status t t (Some t))
         else ret (mkMonitorUpdate new_status t t None)) ;;
      update_monitor monitor_id update_data
  end.

(** **** The scheduler cycle *)

(** The test at the head of the loop body: [true] when the body
    goes on to run the check, [false] at [continue]. *)
Definition due_test (monitor : Monitor) : M bool :=
  match m_last_checked_at monitor with
  | Some last_check =>
      t <- now ;;
      ret (negb (t - last_check <? m_check_interval_seconds monitor * usec_per_sec))
  | None => ret true
  end.

Definition check_monitor (monitor : Monitor) : M CycleEntry :=
  result <- run_check (m_url monitor) (m_method monitor)
                      (m_expected_status monitor) (m_timeout_seconds monitor) ;;
  save_check_result (m_id monitor) result ;;;
  update_monitor_status (m_id monitor) (r_is_up result) ;;;
  ret (mkCycleEntry (m_name monitor) result).

Fixpoint check_loop (pending : list Monitor) (results : list CycleEntry)
    : M (list CycleEntry) :=
  match pending with
  | [] => ret results
  | monitor :: rest =>
      due <- due_test monitor ;;
      if due then
        entry <- check_monitor monitor ;;
        check_loop rest (results ++ [entry])
      else check_loop rest results
  end.

Definition run_all_checks : M (list CycleEntry) :=
  monitors <- select_active_monitors ;;
  check_loop monitors [].

End WithEnv.

End Engine.

(** ** [app.py]: the manual trigger *)

Module App.

Import Engine.
Local Open Scope engine_scope.

Section WithEnv.

Variable env : Env.
Variable cfg : Config.

(** [trigger_check]: [None] when the lookup comes back without
    data. *)
Definition trigger_check (monitor_id : string) : M (option CheckResult) :=
  monitor <- select_monitor_single env monitor_id ;;
  match monitor with
  | None => ret None
  | Some monitor_data =>
      result <- run_check env (m_url monitor_data) (m_method monitor_data)
                          (m_expected_status monitor_data)
                          (m_timeout_seconds monitor_data) ;;
      save_check_result env monitor_id result ;;;
      update_monitor_status env cfg monitor_id (r_is_up result) ;;;
      ret (Some result)
  end.

End WithEnv.

End App.

(** ** Vocabulary for stating what a computation leaves alone *)

Module Frame.

Import Engine.

(** [c] relates every start world to the world it ends in, whether
    it returns or raises. *)
Definition keeps {A : Type} (R : World -> World -> Prop) (c : M A) : Prop :=
  forall w, R w (snd (c w)).

(** The row filter [.eq("id", monitor_id)] and the label the state
    machine derives from a check. *)
Definition by_id (monitor_id : string) (m : Monitor) : bool :=
  (m_id m =? monitor_id)%string.

Definition new_status_of (is_up : bool) : string := if is_up then "up" else "down".

Definition same_monitors (a b : World) : Prop := monitors a = monitors b.
Definition same_incidents (a b : World) : Prop := incidents a = incidents b.

(** No alert went out and none was logged. *)
Definition same_alerting (a b : World) : Prop :=
  alert_history a = alert_history b /\ trace a = trace b /\ n_net a = n_net b.

(** The store and the network are as they were; only the counters
    of clock readings may differ. *)
Definition same_but_clock (a b : World) : Prop :=
  monitors a = monitors b /\ checks a = checks b /\ incidents a = incidents b /\
  alert_configs a = alert_configs b /\ alert_history a = alert_history b /\
  n_store a = n_store b /\ n_net a = n_net b /\ trace a = trace b.

(** The calls issued between [a] and [b] contain no capability fetch. *)
Definition no_fetch_added (a b : World) : Prop :=
  exists calls, trace b = (trace a ++ calls)%list /\
                forallb (fun c => negb (is_capability_fetch c)) calls = true.

(** The network calls of [a] are a prefix of those of [b]. *)
Definition trace_extends (a b : World) : Prop :=
  exists more, trace b = (trace a ++ more)%list.

Definition clock_advances (a b : World) : Prop := (n_clock a <= n_clock b)%nat.

(** "A monitor is due iff [last_checked_at] is null, or
    [now - last_checked_at >= check_interval_seconds]", the times in
    microseconds. *)
Definition due (now : timestamp) (m : Monitor) : Prop :=
  match m_last_checked_at m with
  | None => True
  | Some last => now - last >= m_check_interval_seconds m * usec_per_sec
  end.

(** An entry of the cycle's output that reports on monitor [m]. *)
Definition entry_of (m : Monitor) (e : CycleEntry) : Prop :=
  e_monitor_name e = m_name m /\ r_url (e_result e) = m_url m.

(** An incident closed at [resolved_at], its duration measured
    against the clock reading [measured_at]. *)
Definition resolved (resolved_at measured_at : timestamp) (i : Incident) : Incident :=
  mkIncident (i_id i) (i_monitor_id i) (i_started_at i) (Some resolved_at)
             (Some (whole_seconds (measured_at - i_started_at i))) true.

(** The recovery loop as a function of the table alone: the rows it
    visits are [todo], the k-th clock reading serves the first. *)
Fixpoint resolve_loop (clock : nat -> timestamp) (resolved_at : timestamp) (k : nat)
    (todo table : list Incident) : list Incident :=
  match todo with
  | [] => table
  | o :: rest =>
      resolve_loop clock resolved_at (S k) rest
        (map (resolve_incident (i_id o) resolved_at
                (whole_seconds (clock k - i_started_at o))) table)
  end.

(** The table the recovery branch leaves: every row open for the
    monitor is closed, in table order, each against its own clock
    reading; the other rows stay. *)
Fixpoint resolve_from (clock : nat -> timestamp) (monitor_id : string)
    (resolved_at : timestamp) (k : nat) (table : list Incident) : list Incident :=
  match table with
  | [] => []
  | i :: rest =>
      if is_open_for monitor_id i then
        resolved resolved_at (clock k) i
          :: resolve_from clock monitor_id resolved_at (S k) rest
      else i :: resolve_from clock monitor_id resolved_at k rest
  end.

(** The row filter of [_send_alerts]:
    [.eq("monitor_id", monitor_id).eq("is_active", True)]. *)
Definition alerts_of (monitor_id : string) (a : AlertConfig) : bool :=
  (a_monitor_id a =? monitor_id)%string && a_is_active a.

(** A [checks] row that holds what a check result reports. *)
Definition records (monitor_id : string) (r : CheckResult) (c : Check) : Prop :=
  c = mkCheck monitor_id (r_status_code r) (r_response_time_ms r) (r_is_up r)
              (r_error_message r) (r_checked_at r).

(** Calls an alert sender makes. *)
Definition is_alert_call (c : net_call) : bool :=
  match c with
  | WebhookPost _ _ _ _ _ | SmtpSend _ _ _ _ _ => true
  | _ => false
  end.

(** The calls issued between [a] and [b] are all alert deliveries. *)
Definition only_alert_calls (a b : World) : Prop :=
  exists calls, trace b = (trace a ++ calls)%list /\ forallb is_alert_call calls = true.

(** The calls issued between [a] and [b] are alert deliveries and
    HTTP probes of monitors of [ms]. *)
Definition probes_within (ms : list Monitor) (c : net_call) : Prop :=
  match c with
  | HttpProbe verb url timeout =>
      exists m, In m ms /\ verb = http_verb (m_method m) /\ url = m_url m /\
                timeout = m_timeout_seconds m
  | CapabilityFetch _ _ => False
  | _ => True
  end.

Definition same_checks (a b : World) : Prop := checks a = checks b.

(** Everything but the counter of store requests is as it was. *)
Definition same_but_store_counter (a b : World) : Prop :=
  monitors a = monitors b /\ checks a = checks b /\ incidents a = incidents b /\
  alert_configs a = alert_configs b /\ alert_history a = alert_history b /\
  n_clock a = n_clock b /\ n_net a = n_net b /\ trace a = trace b.

(** What [_send_alerts] logs for one channel: a success row with the
    status line, or a failure row whose text is cut at 200 characters
    behind ["Failed: "]. *)
Definition logged_for (monitor_id : string) (monitor_data : Monitor) (status : string)
    (alert : AlertConfig) (row : AlertHistory) : Prop :=
  h_alert_config_id row = a_id alert /\ h_monitor_id row = monitor_id /\
  h_alert_type row = a_alert_type alert /\
  ((h_was_successful row = true /\
    h_message row = (m_name monitor_data ++ " is " ++ upper status)%string) \/
   (h_was_successful row = false /\
    (exists e, h_message row = ("Failed: " ++ prefix 200 (exn_str e))%string) /\
    (String.length (h_message row) <= 208)%nat)).

Definition same_alert_tables (a b : World) : Prop :=
  alert_history a = alert_history b /\ alert_configs a = alert_configs b.

(** The [monitors] table has a row with this id. *)
Definition known (w : World) (monitor_id : string) : Prop :=
  find (by_id monitor_id) (monitors w) <> None.

(** No row of the [monitors] table went away: the engine updates
    rows, it never deletes one. *)
Definition ids_persist (a b : World) : Prop :=
  forall monitor_id, known a monitor_id -> known b monitor_id.

End Frame.

(** ** The cycle as the specification puts it *)

Module Schedule.

Import Engine Frame.

Section WithEnv.

Variable env : Env.
Variable cfg : Config.

(** The request [check_url] makes for a monitor. *)
Definition probe_of (m : Monitor) : net_call :=
  HttpProbe (http_verb (m_method m)) (m_url m) (m_timeout_seconds m).

(** The world in which the check of a due monitor starts: the test
    before it has read the clock when [last_checked_at] is set. *)
Definition after_due_test (m : Monitor) (w : World) : World :=
  match m_last_checked_at m with
  | Some _ => tick_clock w
  | None => w
  end.

(** What the plain HTTP checker makes of the answer to the request
    issued in [w], judged against the monitor's own
    [expected_status]. *)
Definition verdict (m : Monitor) (w : World) : CheckResult :=
  probe_result (m_url m) (m_expected_status m) (m_timeout_seconds m)
               (clock env (n_clock w)) (http env (n_net w)).

(** A property of one turn of a due monitor: the world its check
    starts in, how the check ends (with an entry for the output, or
    with an exception) and the world it leaves. *)
Definition turn : Type := Monitor -> World -> result CycleEntry -> World -> Prop.

Definition prepend (entry : CycleEntry) (o : result (list CycleEntry))
    : result (list CycleEntry) :=
  match o with
  | Ok out => Ok (entry :: out)
  | Raise e => Raise e
  end.

(** "A monitor is due iff ...; otherwise it is skipped for this cycle
    (no side effects, not included in output)".  The monitors are
    taken in order.  One that is not due at the reading of the clock
    made at its turn is passed over: that reading is all that
    happened, and the output is that of the rest.  One that is due
    gets its turn, [P]; its entry comes first in the output.  A turn
    that raises ends the cycle in the world it leaves. *)
Inductive visits (P : turn)
    : list Monitor -> World -> result (list CycleEntry) -> World -> Prop :=
| visits_done w : visits P [] w (Ok []) w
| visits_skip m rest w o w' :
    ~ due (clock env (n_clock w)) m ->
    visits P rest (tick_clock w) o w' ->
    visits P (m :: rest) w o w'
| visits_check m rest w entry w2 o w' :
    due (clock env (n_clock w)) m ->
    P m (after_due_test m w) (Ok entry) w2 ->
    visits P rest w2 o w' ->
    visits P (m :: rest) w (prepend entry o) w'
| visits_abort m rest w e w2 :
    due (clock env (n_clock w)) m ->
    P m (after_due_test m w) (Raise e) w2 ->
    visits P (m :: rest) w (Raise e) w2.

(** The turn is the body of the loop behind the test, lines 344-360
    of [run_all_checks]. *)
Definition ran : turn := fun m w1 o w2 => check_monitor env cfg m w1 = (o, w2).


(** A monitor is checked by the plain HTTP checker: the body of the
    loop ran for it, the request is [run_check]'s, with the monitor's
    method, URL and timeout, and the entry holds the verdict on its
    answer against the monitor's [expected_status]. *)
Definition http_checked : turn := fun m w1 o w2 =>
  ran m w1 o w2 /\
  (exists alerts,
     trace w2 =
       (trace w1 ++ HttpProbe (http_verb (m_method m)) (m_url m) (m_timeout_seconds m)
                 :: alerts)%list /\
     forallb is_alert_call alerts = true) /\
  forall entry, o = Ok entry ->
    entry = mkCycleEntry (m_name m)
              (probe_result (m_url m) (m_expected_status m) (m_timeout_seconds m)
                            (clock env (n_clock w1)) (http env (n_net w1))).



End WithEnv.

End Schedule.

(** ** Concrete documents, stores and environments *)

Module Scenarios.

Import Engine.

Definition capability (ok : bool) : json := JDict [("ok", JBool ok)].

(** [{"capabilities": {"db": {"ok": true}, "cache": {"ok": false}}}] *)
Definition mixed_caps : dict := [("db", capability true); ("cache", capability false)].
Definition mixed_doc : dict := [("capabilities", JDict mixed_caps)].

(** The same capabilities under an explicit ["status": "maintenance"]. *)
Definition explicit_doc : dict :=
  [("status", JStr "maintenance"); ("capabilities", JDict mixed_caps)].

(** A clock that advances one millisecond per reading, starting one
    hour after the epoch. *)
Definition steady_clock (k : nat) : timestamp := 3600000000 + 1000 * Z.of_nat k.

Definition answer (code : Z) : http_outcome := Response code 42 None.

(** What the postgrest client raises when [.single()] matches no
    row. *)
Definition no_rows : exn :=
  Exn APIError "PGRST116: JSON object requested, multiple (or no) rows returned".

(** Every store request succeeds, every HTTP request is answered
    with [code], every SMTP session goes through. *)
Definition calm_env (code : Z) : Env :=
  mkEnv steady_clock (fun _ => None) (Some no_rows) (fun _ => answer code)
        (fun _ => None).

(** The same, with the store client of [tests/]: a lookup that
    matches no row answers with [data=None]. *)
Definition mocked_env (code : Z) : Env :=
  mkEnv steady_clock (fun _ => None) None (fun _ => answer code)
        (fun _ => None).

Definition no_smtp : Config := mkConfig "" "" "smtp.gmail.com" 587.
Definition with_smtp : Config := mkConfig "ops@example.com" "secret" "smtp.gmail.com" 587.

Definition site (status : string) (active : bool) (last : option timestamp) : Monitor :=
  mkMonitor "mon-1" "Test" "https://example.com" "GET" 200 30 300 active status
            last None None.

Definition empty_world : World := mkWorld [] [] [] [] [] 0 0 0 [].

Definition world_of (ms : list Monitor) (incs : list Incident)
    (als : list AlertConfig) : World :=
  mkWorld ms [] incs als [] 0 0 0 [].

(** An outage that began 9.9995 seconds before the first clock
    reading. *)
Definition outage : Incident := mkIncident 1 "mon-1" 3590000500 None None false.

Definition other_site : Monitor :=
  mkMonitor "mon-2" "Other" "https://example.org" "GET" 200 30 300 true "unknown"
            None None None.

Definition email_alert : AlertConfig :=
  mkAlertConfig "alert-1" "mon-1" "email" "user@example.com" true.
Definition webhook_alert : AlertConfig :=
  mkAlertConfig "alert-2" "mon-1" "webhook" "https://hooks.example.com/x" true.

Definition store_error : exn := Exn APIError "connection reset".

(** The store answers its first request and fails the second. *)
Definition flaky_store_env : Env :=
  mkEnv steady_clock
        (fun k => match k with 1%nat => Some store_error | _ => None end)
        (Some no_rows) (fun _ => answer 200) (fun _ => None).

(** The store fails its sixth request only; every probe is answered
    with 503. *)
Definition lossy_log_env : Env :=
  mkEnv steady_clock
        (fun k => match k with 5%nat => Some store_error | _ => None end)
        (Some no_rows) (fun _ => answer 503) (fun _ => None).

(** [{"capabilities": {"db": {"ok": true}, "auth": {"ok": true}}}] *)
Definition healthy_caps : dict := [("db", capability true); ("auth", capability true)].
Definition healthy_doc : dict := [("capabilities", JDict healthy_caps)].

(** A capability that is not an object: validation rejects it. *)
Definition malformed_doc : dict := [("capabilities", JDict [("db", JInt 1)])].

(** ["status": "operational"] over a failing capability. *)
Definition overridden_doc : dict :=
  [("status", JStr "operational"); ("capabilities", JDict mixed_caps)].

(** The endpoint answers 200 with [doc] as its body. *)
Definition schp_env (doc : dict) : Env :=
  mkEnv steady_clock (fun _ => None) (Some no_rows)
        (fun _ => Response 200 17 (Some (JDict doc))) (fun _ => None).

(** Every HTTP request fails to connect; SMTP sessions fail too. *)
Definition refused : exn := Exn ConnectError "connection refused".
Definition dark_env : Env :=
  mkEnv steady_clock (fun _ => None) (Some no_rows) (fun _ => Failure refused)
        (fun _ => Some (Exn OtherError "535 authentication failed")).

Definition pager_alert : AlertConfig :=
  mkAlertConfig "alert-3" "mon-1" "pager" "ops" true.

End Scenarios.

(** ** Statements of the specification that the code does not meet,
       as the specification words them *)

Module Stated.

Import Engine Frame.

(** "[last_status_change_at] is written only on an observed
    transition between the known states up and down." *)
Definition change_time_written_only_between_up_and_down : Prop :=
  forall env cfg id is_up w mon,
    find (by_id id) (monitors w) = Some mon ->
    map m_last_status_change_at
        (monitors (snd (update_monitor_status env cfg id is_up w)))
      <> map m_last_status_change_at (monitors w) ->
    (m_current_status mon = "up" /\ is_up = false) \/
    (m_current_status mon = "down" /\ is_up = true).

(** "[down -> up] resolves all open incidents and sets
    [duration_seconds = resolved_at - started_at] exactly", the
    difference taken in whole seconds as the column holds them. *)
Definition duration_is_resolved_minus_started : Prop :=
  forall env cfg id w mon opened i,
    find (by_id id) (monitors w) = Some mon ->
    m_current_status mon = "down" ->
    (forall k, store_fault env k = None) ->
    In opened (incidents w) -> is_open_for id opened = true ->
    In i (incidents (snd (update_monitor_status env cfg id true w))) ->
    i_id i = i_id opened ->
    i_is_resolved i = true /\
    exists r, i_resolved_at i = Some r /\
              i_duration_seconds i = Some (whole_seconds (r - i_started_at i)).

(** "For each due monitor: run the appropriate checker (Checker or
    SCHP Client per monitor-declared check kind)": however the
    declared kind is read off a monitor, a cycle over one active
    monitor that was never checked, and so is due, opens with a call
    by the checker of that monitor's kind. *)
Inductive check_kind : Type := UrlCheck | CapabilityCheck.

Definition checker_of (c : net_call) : option check_kind :=
  match c with
  | HttpProbe _ _ _ => Some UrlCheck
  | CapabilityFetch _ _ => Some CapabilityCheck
  | _ => None
  end.

Definition runs_the_declared_checker (kind : Monitor -> check_kind) : Prop :=
  forall env cfg w monitor,
    store_fault env (n_store w) = None ->
    monitors w = [monitor] ->
    m_is_active monitor = true -> m_last_checked_at monitor = None ->
    exists call more,
      trace (snd (run_all_checks env cfg w)) = (trace w ++ call :: more)%list /\
      checker_of call = Some (kind monitor).


End Stated.

(** ** Properties of the SCHP aggregation *)

Section SCHPFacts.

Import SCHP.

Lemma validate_capabilities_cons name cap rest :
  validate_capabilities ((name, cap) :: rest) = None ->
  (exists c b, cap = JDict c /\ lookup "ok" c = Some (JBool b)) /\
  validate_capabilities rest = None.
Proof.
  simpl. destruct cap as [| | | | | |c]; try discriminate.
  destruct (lookup "ok" c) as [ok|] eqn:Hok; try discriminate.
  destruct ok; simpl; try discriminate.
  intros Hrest. split; [eauto | assumption].
Qed.

Lemma all_gen_valid caps :
  validate_capabilities caps = None ->
  all_gen cap_ok (map snd caps) = Ok (forallb ok_flag caps).
Proof.
  induction caps as [|[name cap] rest IH]; intros Hv; [reflexivity|].
  apply validate_capabilities_cons in Hv as [(c & b & -> & Hok) Hrest].
  simpl. unfold ok_flag at 1. simpl. unfold get_default. rewrite Hok. simpl.
  destruct b; simpl; [apply IH; assumption | reflexivity].
Qed.

Lemma any_gen_valid caps :
  validate_capabilities caps = None ->
  any_gen cap_ok (map snd caps) = Ok (existsb ok_flag caps).
Proof.
  induction caps as [|[name cap] rest IH]; intros Hv; [reflexivity|].
  apply validate_capabilities_cons in Hv as [(c & b & -> & Hok) Hrest].
  simpl. unfold ok_flag at 1. simpl. unfold get_default. rewrite Hok. simpl.
  destruct b; simpl; [reflexivity | apply IH; assumption].
Qed.

Lemma declares_ok_flag b entry : declares_ok b entry -> ok_flag entry = b.
Proof.
  intros (c & Hc & Hok). unfold ok_flag, get_default. rewrite Hc, Hok. reflexivity.
Qed.

Lemma forallb_declares caps :
  Forall (declares_ok true) caps -> forallb ok_flag caps = true.
Proof.
  induction 1 as [|x l Hx _ IH]; [reflexivity|].
  simpl. rewrite (declares_ok_flag _ _ Hx), IH. reflexivity.
Qed.

Lemma existsb_declares_none caps :
  Forall (declares_ok false) caps -> existsb ok_flag caps = false.
Proof.
  induction 1 as [|x l Hx _ IH]; [reflexivity|].
  simpl. rewrite (declares_ok_flag _ _ Hx), IH. reflexivity.
Qed.

Lemma existsb_declares caps :
  Exists (declares_ok true) caps -> existsb ok_flag caps = true.
Proof.
  induction 1 as [x l Hx|x l _ IH]; simpl.
  - rewrite (declares_ok_flag _ _ Hx). reflexivity.
  - rewrite IH. apply orb_true_r.
Qed.

Lemma forallb_declares_some_false caps :
  Exists (declares_ok false) caps -> forallb ok_flag caps = false.
Proof.
  induction 1 as [x l Hx|x l _ IH]; simpl.
  - rewrite (declares_ok_flag _ _ Hx). reflexivity.
  - rewrite IH. apply andb_false_r.
Qed.

(** What [get_overall_status] computes on a validated document that
    has no ["status"] key. *)
Lemma get_overall_status_derived data caps :
  _validate_schp_response (JDict data) = None ->
  lookup "capabilities" data = Some (JDict caps) ->
  lookup "status" data = None ->
  get_overall_status data =
    Ok (JStr (match caps with
              | [] => "unknown"
              | _ => if forallb ok_flag caps then "operational"
                     else if existsb ok_flag caps then "degraded"
                     else "down"
              end)).
Proof.
  intros Hv Hcaps Hstatus.
  assert (Hvc : validate_capabilities caps = None).
  { simpl in Hv. rewrite Hcaps in Hv. exact Hv. }
  unfold get_overall_status, contains, get_default.
  rewrite Hcaps, Hstatus.
  destruct data as [|kv data']; [discriminate|]. simpl.
  destruct caps as [|entry rest]; [reflexivity|].
  cbn [truthy negb].
  rewrite (all_gen_valid _ Hvc), (any_gen_valid _ Hvc).
  destruct (forallb ok_flag (entry :: rest)); [reflexivity|].
  destruct (existsb ok_flag (entry :: rest)); reflexivity.
Qed.

(** C1.  On a document with a ["capabilities"] field: an explicit
    ["status"] field is returned as it is, whatever the capabilities
    are; and when the document passes [_validate_schp_response] and has
    no ["status"], an empty capabilities map gives ["unknown"], and a
    non-empty one gives ["operational"] when every capability's [ok] is
    true, ["down"] when none is, ["degraded"] when some are and some
    are not. *)
Theorem get_overall_status_aggregation (data : dict) (capabilities : json) :
  lookup "capabilities" data = Some capabilities ->
  (forall s, lookup "status" data = Some s -> get_overall_status data = Ok s) /\
  (forall caps,
     capabilities = JDict caps ->
     _validate_schp_response (JDict data) = None ->
     lookup "status" data = None ->
     (caps = [] -> get_overall_status data = Ok (JStr "unknown")) /\
     (caps <> [] -> Forall (declares_ok true) caps ->
        get_overall_status data = Ok (JStr "operational")) /\
     (caps <> [] -> Forall (declares_ok false) caps ->
        get_overall_status data = Ok (JStr "down")) /\
     (Exists (declares_ok true) caps -> Exists (declares_ok false) caps ->
        get_overall_status data = Ok (JStr "degraded"))).
Proof.
  intros Hcaps. split.
  - intros s Hs. unfold get_overall_status, contains. rewrite Hcaps, Hs.
    destruct data; [discriminate | reflexivity].
  - intros caps -> Hv Hstatus.
    pose proof (get_overall_status_derived data caps Hv Hcaps Hstatus) as Hd.
    repeat split.
    + intros ->. exact Hd.
    + intros Hne Hall. rewrite Hd.
      destruct caps; [congruence|]. rewrite (forallb_declares _ Hall). reflexivity.
    + intros Hne Hnone. rewrite Hd. destruct caps as [|e rest]; [congruence|].
      rewrite (existsb_declares_none _ Hnone).
      rewrite (forallb_declares_some_false (e :: rest)); [reflexivity|].
      apply Exists_cons_hd. inversion Hnone; assumption.
    + intros Hsome Hfalse. rewrite Hd. destruct caps as [|e rest].
      * inversion Hsome.
      * rewrite (forallb_declares_some_false _ Hfalse), (existsb_declares _ Hsome).
        reflexivity.
Qed.

Lemma get_overall_status_aggregation_witness :
  lookup "capabilities" Scenarios.explicit_doc = Some (JDict Scenarios.mixed_caps) /\
  get_overall_status Scenarios.explicit_doc = Ok (JStr "maintenance") /\
  lookup "capabilities" Scenarios.mixed_doc = Some (JDict Scenarios.mixed_caps) /\
  get_overall_status Scenarios.mixed_doc = Ok (JStr "degraded").
Proof.
  split; [reflexivity|]. split.
  - apply (get_overall_status_aggregation Scenarios.explicit_doc
             (JDict Scenarios.mixed_caps) eq_refl).
    reflexivity.
  - split; [reflexivity|].
    apply (proj2 (get_overall_status_aggregation Scenarios.mixed_doc
                    (JDict Scenarios.mixed_caps) eq_refl)
                 Scenarios.mixed_caps eq_refl eq_refl eq_refl).
    + apply Exists_cons_hd. exists [("ok", JBool true)]. split; reflexivity.
    + apply Exists_cons_tl, Exists_cons_hd.
      exists [("ok", JBool false)]. split; reflexivity.
Defined.

(** The specification's scenario: one capability up, one down. *)
Example mixed_doc_is_degraded :
  get_overall_status Scenarios.mixed_doc = Ok (JStr "degraded") /\
  get_failed_capabilities Scenarios.mixed_doc = Ok ["cache"].
Proof. split; reflexivity. Qed.

End SCHPFacts.

(** ** Properties of the engine *)

Section EngineFacts.

Import Engine.
Local Open Scope engine_scope.

Variable env : Env.
Variable cfg : Config.

(** *** The checker *)

Lemma check_url_runs url method expected timeout w :
  check_url env url method expected timeout w =
    (Ok (probe_result url expected timeout (clock env (n_clock w)) (http env (n_net w))),
     tick_net (HttpProbe (http_verb method) url timeout) (tick_clock w)).
Proof. reflexivity. Qed.

(** C2.  When the probe receives a response, [check_url] returns a
    result whose [is_up] holds exactly when the status code equals
    [expected_status]; for any other code [is_up] is false and the
    error message reads "Expected <E>, got <A>". *)
Theorem check_url_is_up_iff_expected url method expected timeout w code ms body :
  http env (n_net w) = Response code ms body ->
  exists r w',
    check_url env url method expected timeout w = (Ok r, w') /\
    r_status_code r = Some code /\
    (r_is_up r = true <-> code = expected) /\
    (code = expected -> r_error_message r = None) /\
    (code <> expected ->
       r_is_up r = false /\
       r_error_message r =
         Some ("Expected " ++ str_of_int expected ++ ", got " ++ str_of_int code)).
Proof.
  intros Hresp. rewrite check_url_runs, Hresp.
  eexists. eexists. split; [reflexivity|]. simpl.
  split; [reflexivity|]. split; [apply Z.eqb_eq|]. split.
  - intros ->. rewrite Z.eqb_refl. reflexivity.
  - intros Hne. apply Z.eqb_neq in Hne. rewrite Hne. split; reflexivity.
Qed.

End EngineFacts.

Lemma check_url_is_up_iff_expected_witness :
  Engine.http (Scenarios.calm_env 204) 0%nat = Engine.Response 204 42 None /\
  exists r w',
    Engine.check_url (Scenarios.calm_env 204) "https://example.com" "GET" 200 30
                     Scenarios.empty_world = (Ok r, w') /\
    Engine.r_status_code r = Some 204 /\
    (Engine.r_is_up r = true <-> 204 = 200) /\
    (204 = 200 -> Engine.r_error_message r = None) /\
    (204 <> 200 ->
       Engine.r_is_up r = false /\
       Engine.r_error_message r = Some "Expected 200, got 204").
Proof.
  split; [reflexivity|].
  apply (check_url_is_up_iff_expected (Scenarios.calm_env 204)
           "https://example.com" "GET" 200 30 Scenarios.empty_world 204 42 None).
  reflexivity.
Defined.

(** *** Frame rules *)

Section FrameRules.

Import Engine Frame.
Local Open Scope engine_scope.

Variable R : World -> World -> Prop.
Hypothesis R_refl : forall w, R w w.
Hypothesis R_trans : forall a b c, R a b -> R b c -> R a c.
Hypothesis R_clock : forall w, R w (tick_clock w).
Hypothesis R_store : forall w, R w (tick_store w).
Hypothesis R_net :
  forall call w, is_capability_fetch call = false -> R w (tick_net call w).
Hypothesis R_monitors : forall v w, R w (set_monitors v w).
Hypothesis R_checks : forall v w, R w (set_checks v w).
Hypothesis R_incidents : forall v w, R w (set_incidents v w).
Hypothesis R_history : forall v w, R w (set_alert_history v w).

Variable env : Env.
Variable cfg : Config.

Lemma keeps_ret {A} (a : A) : keeps R (ret a).
Proof. intros w. apply R_refl. Qed.

Lemma keeps_raise {A} (e : exn) : keeps R (@raise A e).
Proof. intros w. apply R_refl. Qed.

Lemma keeps_bind {A B} (c : M A) (k : A -> M B) :
  keeps R c -> (forall a, keeps R (k a)) -> keeps R (bind c k).
Proof.
  intros Hc Hk w. unfold bind. specialize (Hc w).
  destruct (c w) as [[a|e] w1]; simpl in *; [|assumption].
  eapply R_trans; [eassumption | apply Hk].
Qed.

Lemma keeps_try_except {A} (c : M A) (h : exn -> M A) :
  keeps R c -> (forall e, keeps R (h e)) -> keeps R (try_except c h).
Proof.
  intros Hc Hh w. unfold try_except. specialize (Hc w).
  destruct (c w) as [[a|e] w1]; simpl in *; [assumption|].
  eapply R_trans; [eassumption | apply Hh].
Qed.

Lemma keeps_for_each {A} (l : list A) (body : A -> M unit) :
  (forall x, keeps R (body x)) -> keeps R (for_each l body).
Proof.
  intros Hb. induction l as [|x rest IH]; simpl.
  - apply keeps_ret.
  - apply keeps_bind; [apply Hb | intros _; exact IH].
Qed.

Lemma keeps_now : keeps R (now env).
Proof. intros w. apply R_clock. Qed.

Lemma keeps_execute {A} (q : World -> A * World) :
  (forall w, R w (snd (q w))) -> keeps R (execute env q).
Proof.
  intros Hq w. unfold execute.
  destruct (store_fault env (n_store w)); simpl; [apply R_store|].
  specialize (Hq (tick_store w)). destruct (q (tick_store w)) as [a w']; simpl in *.
  eapply R_trans; [apply R_store | exact Hq].
Qed.

Lemma keeps_request call :
  is_capability_fetch call = false -> keeps R (request env call).
Proof. intros Hc w. apply R_net, Hc. Qed.

Lemma keeps_smtp_session call :
  is_capability_fetch call = false -> keeps R (smtp_session env call).
Proof.
  intros Hc w. unfold smtp_session.
  destruct (smtp env (n_net w)); apply R_net, Hc.
Qed.

Lemma keeps_select_active_monitors : keeps R (select_active_monitors env).
Proof. apply keeps_execute. intros w. apply R_refl. Qed.

Lemma keeps_select_monitor_single id : keeps R (select_monitor_single env id).
Proof.
  intros w. unfold select_monitor_single.
  destruct (store_fault env (n_store w)); [apply R_store|].
  destruct (find _ (monitors w)); [apply R_store|].
  destruct (single_no_row env); apply R_store.
Qed.

Lemma keeps_select_open_incidents id : keeps R (select_open_incidents env id).
Proof. apply keeps_execute. intros w. apply R_refl. Qed.

Lemma keeps_select_active_alert_configs id :
  keeps R (select_active_alert_configs env id).
Proof. apply keeps_execute. intros w. apply R_refl. Qed.

Lemma keeps_insert_check c : keeps R (insert_check env c).
Proof. apply keeps_execute. intros w. apply R_checks. Qed.

Lemma keeps_update_monitor id u : keeps R (update_monitor env id u).
Proof. apply keeps_execute. intros w. apply R_monitors. Qed.

Lemma keeps_insert_incident id t : keeps R (insert_incident env id t).
Proof. apply keeps_execute. intros w. apply R_incidents. Qed.

Lemma keeps_update_incident id t d : keeps R (update_incident env id t d).
Proof. apply keeps_execute. intros w. apply R_incidents. Qed.

Lemma keeps_insert_alert_history h : keeps R (insert_alert_history env h).
Proof. apply keeps_execute. intros w. apply R_history. Qed.

Lemma keeps_send_email_alert alert mon status :
  keeps R (_send_email_alert env cfg alert mon status).
Proof.
  unfold _send_email_alert.
  destruct ((smtp_email cfg =? "")%string || (smtp_password cfg =? "")%string).
  - apply keeps_ret.
  - apply keeps_bind; [apply keeps_now | intros t].
    apply keeps_smtp_session. reflexivity.
Qed.

Lemma keeps_send_webhook_alert alert mon status :
  keeps R (_send_webhook_alert env alert mon status).
Proof.
  unfold _send_webhook_alert.
  apply keeps_bind; [apply keeps_now | intros t].
  apply keeps_bind; [apply keeps_request; reflexivity | intros out].
  destruct out; [apply keeps_ret | apply keeps_raise].
Qed.

Lemma keeps_send_one_alert id mon status alert :
  keeps R (send_one_alert env cfg id mon status alert).
Proof.
  unfold send_one_alert. apply keeps_try_except.
  - apply keeps_bind; [|intros _; apply keeps_insert_alert_history].
    destruct (a_alert_type alert =? "email")%string;
      [apply keeps_send_email_alert|].
    destruct (a_alert_type alert =? "webhook")%string;
      [apply keeps_send_webhook_alert | apply keeps_ret].
  - intros e. apply keeps_insert_alert_history.
Qed.

Lemma keeps_send_alerts id mon status :
  keeps R (_send_alerts env cfg id mon status).
Proof.
  unfold _send_alerts.
  apply keeps_bind; [apply keeps_select_active_alert_configs | intros alerts].
  apply keeps_for_each. intros alert. apply keeps_send_one_alert.
Qed.

Lemma keeps_resolve_one t1 incident : keeps R (resolve_one env t1 incident).
Proof.
  unfold resolve_one. apply keeps_bind; [apply keeps_now | intros t2].
  apply keeps_update_incident.
Qed.

Lemma keeps_transition_effects id mon old_status new_status t1 :
  keeps R (transition_effects env cfg id mon old_status new_status t1).
Proof.
  unfold transition_effects.
  destruct (new_status =? "down")%string.
  - apply keeps_bind; [apply keeps_insert_incident | intros _].
    apply keeps_send_alerts.
  - match goal with |- keeps R (if ?b then _ else _) => destruct b end;
      [|apply keeps_ret].
    apply keeps_bind; [apply keeps_select_open_incidents | intros open].
    apply keeps_bind; [|intros _; apply keeps_send_alerts].
    apply keeps_for_each. intros i. apply keeps_resolve_one.
Qed.

Lemma keeps_update_monitor_status id is_up :
  keeps R (update_monitor_status env cfg id is_up).
Proof.
  unfold update_monitor_status.
  apply keeps_bind; [apply keeps_select_monitor_single | intros [mon|]];
    [|apply keeps_ret].
  apply keeps_bind; [apply keeps_now | intros t1].
  apply keeps_bind; [|intros u; apply keeps_update_monitor].
  match goal with |- keeps R (if ?b then _ else _) => destruct b end;
    [|apply keeps_ret].
  apply keeps_bind; [apply keeps_transition_effects | intros _; apply keeps_ret].
Qed.

Lemma keeps_check_url url method expected timeout :
  keeps R (check_url env url method expected timeout).
Proof.
  unfold check_url. apply keeps_bind; [apply keeps_now | intros t].
  apply keeps_bind; [apply keeps_request; reflexivity | intros out].
  apply keeps_ret.
Qed.

Lemma keeps_due_test monitor : keeps R (due_test env monitor).
Proof.
  unfold due_test. destruct (m_last_checked_at monitor) as [last|]; [|apply keeps_ret].
  apply keeps_bind; [apply keeps_now | intros t1; apply keeps_ret].
Qed.

Lemma keeps_check_monitor monitor : keeps R (check_monitor env cfg monitor).
Proof.
  unfold check_monitor, run_check.
  apply keeps_bind; [apply keeps_check_url | intros r].
  apply keeps_bind; [apply keeps_insert_check | intros _].
  apply keeps_bind; [apply keeps_update_monitor_status | intros _].
  apply keeps_ret.
Qed.

Lemma keeps_check_loop pending :
  forall results, keeps R (check_loop env cfg pending results).
Proof.
  induction pending as [|monitor rest IH]; intros results; simpl.
  - apply keeps_ret.
  - apply keeps_bind; [apply keeps_due_test | intros [|]]; [|apply IH].
    apply keeps_bind; [apply keeps_check_monitor | intros entry; apply IH].
Qed.

Lemma keeps_run_all_checks : keeps R (run_all_checks env cfg).
Proof.
  unfold run_all_checks.
  apply keeps_bind; [apply keeps_select_active_monitors | intros ms].
  apply keeps_check_loop.
Qed.

End FrameRules.

(** *** The state machine *)

Section StateMachineFacts.

Import Engine Frame.
Local Open Scope engine_scope.

Variable env : Env.
Variable cfg : Config.

Lemma update_monitor_status_fault id is_up w e :
  store_fault env (n_store w) = Some e ->
  update_monitor_status env cfg id is_up w = (Raise e, tick_store w).
Proof.
  intros Hf. unfold update_monitor_status, bind, select_monitor_single, execute.
  rewrite Hf. reflexivity.
Qed.

Lemma update_monitor_status_missing id is_up w :
  store_fault env (n_store w) = None ->
  find (by_id id) (monitors w) = None ->
  update_monitor_status env cfg id is_up w =
    (match single_no_row env with Some e => Raise e | None => Ok tt end,
     tick_store w).
Proof.
  intros Hf Hfind. unfold update_monitor_status, bind, select_monitor_single.
  rewrite Hf. unfold by_id in Hfind. rewrite Hfind.
  destruct (single_no_row env); reflexivity.
Qed.

Lemma update_monitor_status_found id is_up w mon :
  store_fault env (n_store w) = None ->
  find (by_id id) (monitors w) = Some mon ->
  update_monitor_status env cfg id is_up w =
    bind (if status_changed (m_current_status mon) (new_status_of is_up) then
            transition_effects env cfg id mon (m_current_status mon)
                               (new_status_of is_up) (clock env (n_clock w)) ;;;
            ret (mkMonitorUpdate (new_status_of is_up) (clock env (n_clock w))
                                 (clock env (n_clock w)) (Some (clock env (n_clock w))))
          else
            ret (mkMonitorUpdate (new_status_of is_up) (clock env (n_clock w))
                                 (clock env (n_clock w)) None))
         (fun u => update_monitor env id u)
         (tick_clock (tick_store w)).
Proof.
  intros Hf Hfind.
  unfold update_monitor_status, select_monitor_single, execute, now.
  unfold bind at 1. rewrite Hf. simpl. unfold by_id in Hfind. rewrite Hfind.
  unfold bind at 1. reflexivity.
Qed.

Lemma update_monitor_runs id u w :
  update_monitor env id u w =
    match store_fault env (n_store w) with
    | Some e => (Raise e, tick_store w)
    | None => (Ok tt, set_monitors (map (apply_monitor_update id u) (monitors w))
                                   (tick_store w))
    end.
Proof.
  unfold update_monitor, execute. destruct (store_fault env (n_store w)); reflexivity.
Qed.

(** A check that is no status change: the only request left is the
    monitor update, without [last_status_change_at]. *)
Lemma update_monitor_status_steady id is_up w mon :
  store_fault env (n_store w) = None ->
  find (by_id id) (monitors w) = Some mon ->
  status_changed (m_current_status mon) (new_status_of is_up) = false ->
  update_monitor_status env cfg id is_up w =
    update_monitor env id
      (mkMonitorUpdate (new_status_of is_up) (clock env (n_clock w))
                       (clock env (n_clock w)) None)
      (tick_clock (tick_store w)).
Proof.
  intros Hf Hfind Hsame.
  rewrite (update_monitor_status_found id is_up w mon Hf Hfind), Hsame.
  reflexivity.
Qed.

Lemma status_changed_unknown new_status : status_changed "unknown" new_status = false.
Proof. unfold status_changed. simpl. apply andb_false_r. Qed.

Lemma status_changed_same s : status_changed s s = false.
Proof. unfold status_changed. rewrite String.eqb_refl. reflexivity. Qed.

Lemma updated_status id u ms m :
  In m (map (apply_monitor_update id u) ms) -> m_id m = id ->
  m_current_status m = u_current_status u /\
  m_last_checked_at m = Some (u_last_checked_at u).
Proof.
  intros Hin Hid. apply in_map_iff in Hin as (m0 & <- & _).
  unfold apply_monitor_update in *.
  destruct (m_id m0 =? id)%string eqn:Heq; [split; reflexivity|].
  apply String.eqb_neq in Heq. contradiction.
Qed.

(** C3.  When the monitor's current status is ["unknown"], the call
    leaves the incidents table as it is and sends no alert, whatever
    the check says; and when its two store requests go through, the
    monitor's status becomes ["up"] or ["down"] as the check says. *)
Theorem unknown_status_opens_no_incident id is_up w mon :
  find (by_id id) (monitors w) = Some mon ->
  m_current_status mon = "unknown" ->
  same_incidents w (snd (update_monitor_status env cfg id is_up w)) /\
  same_alerting w (snd (update_monitor_status env cfg id is_up w)) /\
  (store_fault env (n_store w) = None ->
   store_fault env (S (n_store w)) = None ->
   fst (update_monitor_status env cfg id is_up w) = Ok tt /\
   forall m, In m (monitors (snd (update_monitor_status env cfg id is_up w))) ->
             m_id m = id ->
             m_current_status m = (if is_up then "up" else "down") /\
             m_last_checked_at m = Some (clock env (n_clock w))).
Proof.
  intros Hfind Hold.
  destruct (store_fault env (n_store w)) as [e|] eqn:Hf.
  - rewrite (update_monitor_status_fault id is_up w e Hf).
    repeat split; discriminate.
  - rewrite (update_monitor_status_steady id is_up w mon Hf Hfind)
      by (rewrite Hold; apply status_changed_unknown).
    rewrite update_monitor_runs. simpl.
    destruct (store_fault env (S (n_store w))) as [e|] eqn:Hf2.
    + repeat split; discriminate.
    + repeat split; simpl in *;
        match goal with
        | Hin : In _ (map _ _) |- _ =>
            eapply updated_status in Hin; try eassumption; simpl in Hin; apply Hin
        end.
Qed.

End StateMachineFacts.

Lemma unknown_status_opens_no_incident_witness :
  let w := Scenarios.world_of [Scenarios.site "unknown" true None] [] [] in
  let out := Engine.update_monitor_status (Scenarios.calm_env 503) Scenarios.no_smtp
               "mon-1" false w in
  find (Frame.by_id "mon-1") (Engine.monitors w) = Some (Scenarios.site "unknown" true None) /\
  Engine.m_current_status (Scenarios.site "unknown" true None) = "unknown" /\
  Engine.incidents (snd out) = [] /\
  map Engine.m_current_status (Engine.monitors (snd out)) = ["down"].
Proof.
  intros w out. split; [reflexivity|]. split; [reflexivity|].
  split; [|reflexivity].
  symmetry.
  apply (unknown_status_opens_no_incident (Scenarios.calm_env 503) Scenarios.no_smtp
           "mon-1" false w (Scenarios.site "unknown" true None));
    reflexivity.
Defined.

(** *** [last_status_change_at] *)

Section ChangeTimeFacts.

Import Engine Frame.
Local Open Scope engine_scope.

Variable env : Env.
Variable cfg : Config.

Lemma same_monitors_transition_effects id mon old_status new_status t :
  keeps same_monitors (transition_effects env cfg id mon old_status new_status t).
Proof.
  apply keeps_transition_effects; unfold same_monitors; intros; simpl;
    solve [reflexivity | congruence].
Qed.

Lemma change_time_kept id u ms :
  u_last_status_change_at u = None ->
  map m_last_status_change_at (map (apply_monitor_update id u) ms) =
  map m_last_status_change_at ms.
Proof.
  intros Hu. rewrite map_map. apply map_ext. intros m.
  unfold apply_monitor_update. destruct (m_id m =? id)%string; [|reflexivity].
  simpl. rewrite Hu. reflexivity.
Qed.

Lemma change_time_set id u t ms m :
  u_last_status_change_at u = Some t ->
  In m (map (apply_monitor_update id u) ms) -> m_id m = id ->
  m_last_status_change_at m = Some t.
Proof.
  intros Hu Hin Hid. apply in_map_iff in Hin as (m0 & <- & _).
  unfold apply_monitor_update in *.
  destruct (m_id m0 =? id)%string eqn:Heq.
  - simpl. rewrite Hu. reflexivity.
  - apply String.eqb_neq in Heq. contradiction.
Qed.

Lemma status_changed_true old_status new_status :
  old_status <> "unknown" -> old_status <> new_status ->
  status_changed old_status new_status = true.
Proof.
  intros Hu Hn. unfold status_changed.
  apply String.eqb_neq in Hu. apply String.eqb_neq in Hn.
  rewrite Hu, Hn. reflexivity.
Qed.

(** C10, as the code has it.  A call that finds the monitor with
    status ["unknown"], or with the status the check yields, leaves
    every [last_status_change_at] as it was.  A call that finds any
    other status (["up"], ["down"] or ["paused"]) and returns sets it,
    for that monitor, to the time read at the start of the call. *)
Theorem last_status_change_at_written_on_change id is_up w mon :
  find (by_id id) (monitors w) = Some mon ->
  (m_current_status mon = "unknown" \/ m_current_status mon = new_status_of is_up ->
     map m_last_status_change_at
         (monitors (snd (update_monitor_status env cfg id is_up w)))
     = map m_last_status_change_at (monitors w)) /\
  (m_current_status mon <> "unknown" ->
   m_current_status mon <> new_status_of is_up ->
   fst (update_monitor_status env cfg id is_up w) = Ok tt ->
   forall m, In m (monitors (snd (update_monitor_status env cfg id is_up w))) ->
             m_id m = id ->
             m_last_status_change_at m = Some (clock env (n_clock w))).
Proof.
  intros Hfind. split.
  - intros Hold.
    destruct (store_fault env (n_store w)) as [e|] eqn:Hf.
    + rewrite (update_monitor_status_fault env cfg id is_up w e Hf). reflexivity.
    + rewrite (update_monitor_status_steady env cfg id is_up w mon Hf Hfind).
      * rewrite update_monitor_runs. simpl.
        destruct (store_fault env (S (n_store w))); simpl; [reflexivity|].
        apply change_time_kept. reflexivity.
      * destruct Hold as [-> | ->];
          [apply status_changed_unknown | apply status_changed_same].
  - intros Hu Hn.
    remember (update_monitor_status env cfg id is_up w) as out eqn:Hout.
    destruct (store_fault env (n_store w)) as [e|] eqn:Hf.
    + rewrite (update_monitor_status_fault env cfg id is_up w e Hf) in Hout.
      subst out. discriminate.
    + rewrite (update_monitor_status_found env cfg id is_up w mon Hf Hfind) in Hout.
      rewrite (status_changed_true _ _ Hu Hn) in Hout.
      unfold bind, ret in Hout.
      pose proof (same_monitors_transition_effects id mon (m_current_status mon)
                    (new_status_of is_up) (clock env (n_clock w))
                    (tick_clock (tick_store w))) as Hsame.
      destruct (transition_effects env cfg id mon (m_current_status mon)
                  (new_status_of is_up) (clock env (n_clock w))
                  (tick_clock (tick_store w))) as [[[]|e] w2];
        [|subst out; discriminate].
      rewrite update_monitor_runs in Hout.
      destruct (store_fault env (n_store w2)); subst out; simpl; [discriminate|].
      intros _ m Hin Hid. unfold same_monitors in Hsame. simpl in Hsame.
      eapply change_time_set; [|exact Hin|exact Hid]. reflexivity.
Qed.

(** C10 as stated fails: the first check of a paused monitor writes
    [last_status_change_at], and ["paused"] is neither ["up"] nor
    ["down"]. *)
Lemma change_time_written_after_paused :
  ~ Stated.change_time_written_only_between_up_and_down.
Proof.
  intros claim.
  destruct (claim (Scenarios.calm_env 200) Scenarios.no_smtp "mon-1" true
              (Scenarios.world_of [Scenarios.site "paused" false None] [] [])
              (Scenarios.site "paused" false None) eq_refl)
    as [[Hup _] | [Hdown _]]; try discriminate.
Qed.

End ChangeTimeFacts.

Lemma last_status_change_at_written_on_change_witness :
  let w := Scenarios.world_of [Scenarios.site "paused" false None] [] [] in
  let out := Engine.update_monitor_status (Scenarios.calm_env 200) Scenarios.no_smtp
               "mon-1" true w in
  find (Frame.by_id "mon-1") (Engine.monitors w) = Some (Scenarios.site "paused" false None) /\
  fst out = Ok tt /\
  forall m, In m (Engine.monitors (snd out)) -> Engine.m_id m = "mon-1" ->
            Engine.m_last_status_change_at m = Some 3600000000.
Proof.
  intros w out. split; [reflexivity|]. split; [reflexivity|].
  apply (last_status_change_at_written_on_change (Scenarios.calm_env 200)
           Scenarios.no_smtp "mon-1" true w (Scenarios.site "paused" false None));
    [reflexivity | discriminate | discriminate | reflexivity].
Defined.

(** *** Recovery: closing the open incidents *)

Section RecoveryFacts.

Import Engine Frame.
Local Open Scope engine_scope.

Variable env : Env.
Variable cfg : Config.
Hypothesis store_up : forall k, store_fault env k = None.

Lemma execute_runs {A} (q : World -> A * World) w :
  execute env q w = (Ok (fst (q (tick_store w))), snd (q (tick_store w))).
Proof.
  unfold execute. rewrite store_up. destruct (q (tick_store w)); reflexivity.
Qed.

Lemma resolve_one_runs t o w :
  resolve_one env t o w =
    (Ok tt,
     set_incidents
       (map (resolve_incident (i_id o) t
               (whole_seconds (clock env (n_clock w) - i_started_at o)))
            (incidents w))
       (tick_store (tick_clock w))).
Proof.
  unfold resolve_one, bind, now, update_incident. rewrite execute_runs. reflexivity.
Qed.

Lemma resolve_all_runs t todo :
  forall w,
    fst (for_each todo (resolve_one env t) w) = Ok tt /\
    incidents (snd (for_each todo (resolve_one env t) w)) =
      resolve_loop (clock env) t (n_clock w) todo (incidents w) /\
    same_monitors w (snd (for_each todo (resolve_one env t) w)).
Proof.
  induction todo as [|o rest IH]; intros w; simpl.
  - repeat split.
  - unfold bind. rewrite resolve_one_runs.
    destruct (IH (set_incidents
                    (map (resolve_incident (i_id o) t
                            (whole_seconds (clock env (n_clock w) - i_started_at o)))
                         (incidents w))
                    (tick_store (tick_clock w)))) as (Hok & Hinc & Hmon).
    split; [exact Hok|]. split; [exact Hinc | exact Hmon].
Qed.

(** With the store up, the dispatcher returns: a sender that raises
    is caught and logged. *)
Lemma send_one_alert_returns id mon status alert w :
  fst (send_one_alert env cfg id mon status alert w) = Ok tt.
Proof.
  unfold send_one_alert, try_except, bind.
  match goal with
  | |- context [(if ?b then ?x else ?y) w] => destruct ((if b then x else y) w) as [[[]|e] w1]
  end; unfold insert_alert_history; rewrite execute_runs; reflexivity.
Qed.

Lemma send_alerts_returns id mon status w :
  fst (_send_alerts env cfg id mon status w) = Ok tt.
Proof.
  unfold _send_alerts, bind, select_active_alert_configs. rewrite execute_runs. simpl.
  generalize (tick_store w).
  induction (filter (fun a => (a_monitor_id a =? id)%string && a_is_active a)
                    (alert_configs w)) as [|alert rest IH]; intros w1; simpl.
  - reflexivity.
  - unfold bind. pose proof (send_one_alert_returns id mon status alert w1) as Hone.
    destruct (send_one_alert env cfg id mon status alert w1) as [[[]|e] w2];
      simpl in Hone; [apply IH | discriminate].
Qed.

Lemma same_incidents_send_alerts id mon status :
  keeps same_incidents (_send_alerts env cfg id mon status).
Proof.
  apply keeps_send_alerts; unfold same_incidents; intros; simpl;
    solve [reflexivity | congruence].
Qed.

(** The loop against the table function. *)

Lemma resolve_incident_other id t d (table : list Incident) :
  ~ In id (map i_id table) -> map (resolve_incident id t d) table = table.
Proof.
  induction table as [|i rest IH]; intros Hnot; [reflexivity|]. simpl in *.
  unfold resolve_incident at 1.
  destruct (Z.eqb_spec (i_id i) id) as [Heq|Hne]; [tauto|].
  rewrite IH by tauto. reflexivity.
Qed.

Lemma resolve_loop_skips clk t todo :
  forall k r table,
    Forall (fun o => i_id o <> i_id r) todo ->
    resolve_loop clk t k todo (r :: table) = r :: resolve_loop clk t k todo table.
Proof.
  induction todo as [|o rest IH]; intros k r table Hall; [reflexivity|].
  inversion Hall as [|? ? Hne Hrest]; subst. simpl.
  unfold resolve_incident at 1.
  destruct (Z.eqb_spec (i_id r) (i_id o)) as [Heq|_]; [congruence|].
  apply IH. exact Hrest.
Qed.

Lemma resolve_loop_table clk id t table :
  NoDup (map i_id table) ->
  forall k,
    resolve_loop clk t k (filter (is_open_for id) table) table =
    resolve_from clk id t k table.
Proof.
  induction table as [|r rest IH]; intros Hnd k; [reflexivity|].
  simpl in Hnd. inversion Hnd as [|? ? Hnot Hnd']; subst.
  assert (Hothers : Forall (fun o => i_id o <> i_id r) (filter (is_open_for id) rest)).
  { apply Forall_forall. intros o Ho Heq. apply filter_In in Ho as [Ho _].
    apply Hnot. rewrite <- Heq. apply in_map. exact Ho. }
  simpl. destruct (is_open_for id r) eqn:Hopen.
  - simpl. unfold resolve_incident at 1. rewrite Z.eqb_refl.
    rewrite (resolve_incident_other _ _ _ rest Hnot).
    fold (resolved t (clk k) r).
    rewrite resolve_loop_skips by exact Hothers.
    rewrite IH by exact Hnd'. reflexivity.
  - rewrite resolve_loop_skips by exact Hothers.
    rewrite IH by exact Hnd'. reflexivity.
Qed.

(** Row by row: what [resolve_from] holds. *)
Lemma resolve_from_rows clk id t table :
  forall k i, In i table ->
    if is_open_for id i
    then exists j, (k <= j)%nat /\ In (resolved t (clk j) i) (resolve_from clk id t k table)
    else In i (resolve_from clk id t k table).
Proof.
  induction table as [|r rest IH]; intros k i Hin; [destruct Hin|].
  destruct Hin as [-> | Hin].
  - simpl. destruct (is_open_for id i) eqn:Hopen.
    + exists k. split; [lia | left; reflexivity].
    + left. reflexivity.
  - simpl. destruct (is_open_for id r).
    + specialize (IH (S k) i Hin). destruct (is_open_for id i).
      * destruct IH as (j & Hj & Hrow). exists j. split; [lia | right; exact Hrow].
      * right. exact IH.
    + specialize (IH k i Hin). destruct (is_open_for id i).
      * destruct IH as (j & Hj & Hrow). exists j. split; [lia | right; exact Hrow].
      * right. exact IH.
Qed.

End RecoveryFacts.

Section RecoveryTheorem.

Import Engine Frame.
Local Open Scope engine_scope.

Variable env : Env.
Variable cfg : Config.

Lemma resolve_from_closes clk id t table :
  forall k, Forall (fun i => is_open_for id i = false) (resolve_from clk id t k table).
Proof.
  induction table as [|r rest IH]; intros k; simpl; [constructor|].
  destruct (is_open_for id r) eqn:Hopen; constructor; try apply IH; try exact Hopen.
  unfold is_open_for, resolved. simpl. apply andb_false_r.
Qed.

Lemma recovery_runs id w mon :
  (forall k, store_fault env k = None) ->
  find (by_id id) (monitors w) = Some mon ->
  m_current_status mon = "down" ->
  fst (update_monitor_status env cfg id true w) = Ok tt /\
  incidents (snd (update_monitor_status env cfg id true w)) =
    resolve_loop (clock env) (clock env (n_clock w)) (S (n_clock w))
                 (filter (is_open_for id) (incidents w)) (incidents w).
Proof.
  intros Hup Hfind Hold.
  remember (update_monitor_status env cfg id true w) as out eqn:Hout.
  rewrite (update_monitor_status_found env cfg id true w mon (Hup _) Hfind) in Hout.
  rewrite Hold in Hout.
  change (status_changed "down" (new_status_of true)) with true in Hout.
  change (transition_effects env cfg id mon "down" (new_status_of true)
            (clock env (n_clock w)))
    with (open_incidents <- select_open_incidents env id ;;
          for_each open_incidents (resolve_one env (clock env (n_clock w))) ;;;
          _send_alerts env cfg id mon "up") in Hout.
  unfold bind, ret, select_open_incidents in Hout.
  rewrite (execute_runs env Hup) in Hout. simpl in Hout.
  pose proof (resolve_all_runs env Hup (clock env (n_clock w))
                (filter (is_open_for id) (incidents w))
                (tick_store (tick_clock (tick_store w)))) as (Hok & Hinc & _).
  destruct (for_each (filter (is_open_for id) (incidents w))
              (resolve_one env (clock env (n_clock w)))
              (tick_store (tick_clock (tick_store w)))) as [[[]|e] w2];
    simpl in Hok, Hinc; [|discriminate].
  pose proof (send_alerts_returns env cfg Hup id mon "up" w2) as Hsent.
  pose proof (same_incidents_send_alerts env cfg id mon "up" w2) as Hsame.
  destruct (_send_alerts env cfg id mon "up" w2) as [[[]|e] w3];
    simpl in Hsent, Hsame; [|discriminate].
  rewrite update_monitor_runs, Hup in Hout. subst out. simpl.
  split; [reflexivity|]. unfold same_incidents in Hsame.
  rewrite <- Hsame. exact Hinc.
Qed.

(** C4, as the code has it.  On a transition from ["down"] to
    ["up"], with the store answering and incident keys distinct,
    the call returns and closes every incident that was open for the
    monitor: [is_resolved = true], [resolved_at] is the time read at
    the start of the call, and [duration_seconds] is the whole number
    of seconds between [started_at] and a clock reading of its own,
    taken later, when that incident is handled.  The other rows are
    left as they were. *)
Theorem recovery_resolves_open_incidents id w mon :
  (forall k, store_fault env k = None) ->
  find (by_id id) (monitors w) = Some mon ->
  m_current_status mon = "down" ->
  NoDup (map i_id (incidents w)) ->
  fst (update_monitor_status env cfg id true w) = Ok tt /\
  incidents (snd (update_monitor_status env cfg id true w)) =
    resolve_from (clock env) id (clock env (n_clock w)) (S (n_clock w)) (incidents w) /\
  Forall (fun i => is_open_for id i = false)
         (incidents (snd (update_monitor_status env cfg id true w))) /\
  (forall i, In i (incidents w) -> is_open_for id i = true ->
     exists j, (n_clock w < j)%nat /\
       In (mkIncident (i_id i) (i_monitor_id i) (i_started_at i)
                      (Some (clock env (n_clock w)))
                      (Some (whole_seconds (clock env j - i_started_at i)))
                      true)
          (incidents (snd (update_monitor_status env cfg id true w)))) /\
  (forall i, In i (incidents w) -> is_open_for id i = false ->
     In i (incidents (snd (update_monitor_status env cfg id true w)))).
Proof.
  intros Hup Hfind Hold Hnd.
  destruct (recovery_runs id w mon Hup Hfind Hold) as [Hok Hinc].
  rewrite (resolve_loop_table (clock env) id (clock env (n_clock w))
             (incidents w) Hnd) in Hinc.
  split; [exact Hok|]. split; [exact Hinc|]. rewrite Hinc.
  split; [apply resolve_from_closes|]. split.
  - intros i Hin Hopen.
    pose proof (resolve_from_rows (clock env) id (clock env (n_clock w))
                  (incidents w) (S (n_clock w)) i Hin) as Hrow.
    rewrite Hopen in Hrow. destruct Hrow as (j & Hj & Hrow).
    exists j. split; [lia | exact Hrow].
  - intros i Hin Hopen.
    pose proof (resolve_from_rows (clock env) id (clock env (n_clock w))
                  (incidents w) (S (n_clock w)) i Hin) as Hrow.
    rewrite Hopen in Hrow. exact Hrow.
Qed.

(** C4 as stated fails: the duration is measured against a second,
    later clock reading, so it can exceed [resolved_at - started_at]
    by a second.  An outage of 9.9995 s, closed with readings one
    millisecond apart, is recorded as lasting 10 s. *)
Lemma duration_measured_against_later_reading :
  ~ Stated.duration_is_resolved_minus_started.
Proof.
  intros claim.
  destruct (claim (Scenarios.calm_env 200) Scenarios.no_smtp "mon-1"
              (Scenarios.world_of [Scenarios.site "down" true None]
                                  [Scenarios.outage] [])
              (Scenarios.site "down" true None)
              Scenarios.outage
              (mkIncident 1 "mon-1" 3590000500 (Some 3600000000) (Some 10) true)
              eq_refl eq_refl (fun _ => eq_refl))
    as (_ & r & Hr & Hd).
  - left. reflexivity.
  - reflexivity.
  - left. reflexivity.
  - reflexivity.
  - simpl in Hr. injection Hr as <-. vm_compute in Hd. discriminate.
Qed.

End RecoveryTheorem.

Lemma recovery_resolves_open_incidents_witness :
  let w := Scenarios.world_of [Scenarios.site "down" true None] [Scenarios.outage] [] in
  let out := Engine.update_monitor_status (Scenarios.calm_env 200) Scenarios.no_smtp
               "mon-1" true w in
  (forall k, Engine.store_fault (Scenarios.calm_env 200) k = None) /\
  find (Frame.by_id "mon-1") (Engine.monitors w) = Some (Scenarios.site "down" true None) /\
  NoDup (map Engine.i_id (Engine.incidents w)) /\
  fst out = Ok tt /\
  Engine.incidents (snd out) =
    [Engine.mkIncident 1 "mon-1" 3590000500 (Some 3600000000) (Some 10) true].
Proof.
  intros w out.
  assert (Hup : forall k, Engine.store_fault (Scenarios.calm_env 200) k = None)
    by (intros k; reflexivity).
  assert (Hnd : NoDup (map Engine.i_id (Engine.incidents w)))
    by (repeat constructor; simpl; tauto).
  split; [exact Hup|]. split; [reflexivity|]. split; [exact Hnd|].
  destruct (recovery_resolves_open_incidents (Scenarios.calm_env 200) Scenarios.no_smtp
              "mon-1" w (Scenarios.site "down" true None) Hup eq_refl eq_refl Hnd)
    as (Hok & Htable & _).
  split; [exact Hok | exact Htable].
Defined.

(** *** The scheduler: which monitors a cycle checks *)

Section SchedulerFacts.

Import Engine Frame.
Local Open Scope engine_scope.

Variable env : Env.
Variable cfg : Config.

Lemma same_but_clock_tick w : same_but_clock w (tick_clock w).
Proof. repeat split. Qed.

Lemma same_but_clock_refl w : same_but_clock w w.
Proof. repeat split. Qed.

(** The test reads the clock at most once, touches nothing else, and
    answers whether the monitor is due at that reading. *)
Lemma due_test_decides monitor w :
  exists b w1,
    due_test env monitor w = (Ok b, w1) /\
    same_but_clock w w1 /\ clock_advances w w1 /\
    (b = true <-> due (clock env (n_clock w)) monitor).
Proof.
  unfold due_test, due. destruct (m_last_checked_at monitor) as [last|].
  - unfold bind, now, ret. eexists. eexists. split; [reflexivity|].
    split; [apply same_but_clock_tick|]. split; [unfold clock_advances; simpl; lia|].
    rewrite negb_true_iff, Z.ltb_ge. lia.
  - exists true, w. split; [reflexivity|].
    split; [apply same_but_clock_refl|]. split; [unfold clock_advances; lia|].
    tauto.
Qed.

Lemma trace_extends_check_tail id result name :
  keeps trace_extends
    (save_check_result env id result ;;;
     update_monitor_status env cfg id (r_is_up result) ;;;
     ret (mkCycleEntry name result)).
Proof.
  assert (Hrefl : forall w, trace_extends w w)
    by (intros w; exists []; symmetry; apply app_nil_r).
  assert (Htrans : forall a b c, trace_extends a b -> trace_extends b c ->
                                 trace_extends a c).
  { intros a b c [m1 H1] [m2 H2]. exists (m1 ++ m2)%list.
    rewrite H2, H1. symmetry. apply app_assoc. }
  assert (Hnet : forall call w, is_capability_fetch call = false ->
                                trace_extends w (tick_net call w))
    by (intros call w _; exists [call]; reflexivity).
  apply keeps_bind; try assumption.
  - apply keeps_insert_check; auto.
  - intros _. apply keeps_bind; try assumption.
    + apply keeps_update_monitor_status; auto.
    + intros _. apply keeps_ret; auto.
Qed.

Lemma returns_last {A B C} (c1 : M A) (c2 : M B) (x e : C) w :
  fst ((c1 ;;; c2 ;;; ret x) w) = Ok e -> e = x.
Proof.
  unfold bind, ret. destruct (c1 w) as [[a|err] w1]; simpl; [|discriminate].
  destruct (c2 w1) as [[b|err] w2]; simpl; [|discriminate].
  congruence.
Qed.

Lemma probe_result_url url expected timeout t out :
  r_url (probe_result url expected timeout t out) = url.
Proof. destruct out; reflexivity. Qed.

(** Checking a monitor starts with the plain HTTP probe of its URL;
    when it returns, the entry reports on that monitor. *)
Lemma check_monitor_probes monitor w :
  (exists more,
     trace (snd (check_monitor env cfg monitor w)) =
     (trace w ++ HttpProbe (http_verb (m_method monitor)) (m_url monitor)
                           (m_timeout_seconds monitor) :: more)%list) /\
  (forall entry, fst (check_monitor env cfg monitor w) = Ok entry ->
                 entry_of monitor entry).
Proof.
  unfold check_monitor, run_check. unfold bind at 1. rewrite check_url_runs.
  split.
  - match goal with
    | |- context [snd (?c ?w1)] =>
        pose proof (trace_extends_check_tail (m_id monitor)
          (probe_result (m_url monitor) (m_expected_status monitor)
             (m_timeout_seconds monitor) (clock env (n_clock w)) (http env (n_net w)))
          (m_name monitor) w1) as [more Hmore]
    end.
    exists more. rewrite Hmore. simpl. rewrite <- app_assoc. reflexivity.
  - intros entry Hret. apply returns_last in Hret. subst entry.
    split; [reflexivity | apply probe_result_url].
Qed.

End SchedulerFacts.

Section SchedulerCycle.

Import Engine Frame.
Local Open Scope engine_scope.

Variable env : Env.
Variable cfg : Config.

(** One turn of the loop: a monitor that is not due is passed over,
    with the store, the network and the results as they were; a due
    monitor is checked. *)
Lemma check_loop_step monitor rest results w :
  exists w1,
    same_but_clock w w1 /\ clock_advances w w1 /\
    ((due (clock env (n_clock w)) monitor /\
      check_loop env cfg (monitor :: rest) results w =
        (entry <- check_monitor env cfg monitor ;;
         check_loop env cfg rest (results ++ [entry])) w1)
     \/
     (~ due (clock env (n_clock w)) monitor /\
      check_loop env cfg (monitor :: rest) results w =
        check_loop env cfg rest results w1)).
Proof.
  destruct (due_test_decides env monitor w) as (b & w1 & Htest & Hsame & Hclock & Hdue).
  assert (Hloop : check_loop env cfg (monitor :: rest) results w =
                  (if b then
                     entry <- check_monitor env cfg monitor ;;
                     check_loop env cfg rest (results ++ [entry])
                   else check_loop env cfg rest results) w1).
  { simpl. unfold bind at 1. rewrite Htest. reflexivity. }
  exists w1. split; [exact Hsame|]. split; [exact Hclock|].
  rewrite Hloop. destruct b.
  - left. split; [apply Hdue; reflexivity | reflexivity].
  - right. split; [|reflexivity]. intros Hd. apply Hdue in Hd. discriminate.
Qed.

End SchedulerCycle.

(** The due-check law on a monitor with a 300 s interval, the clock
    reading 3600 s: last checked 300 s before, it is checked; last
    checked one microsecond later than that, it is skipped. *)
Example due_at_the_interval :
  let w := Scenarios.world_of [Scenarios.site "up" true (Some 3300000000)] [] [] in
  let out := Engine.run_all_checks (Scenarios.calm_env 200) Scenarios.no_smtp w in
  map Engine.e_monitor_name
      (match fst out with Ok l => l | Raise _ => [] end) = ["Test"] /\
  Engine.trace (snd out) = [Engine.HttpProbe "GET" "https://example.com" 30].
Proof. split; reflexivity. Qed.

Example skipped_before_the_interval :
  let w := Scenarios.world_of [Scenarios.site "up" true (Some 3300000001)] [] [] in
  let out := Engine.run_all_checks (Scenarios.calm_env 200) Scenarios.no_smtp w in
  fst out = Ok [] /\
  Engine.trace (snd out) = [] /\ Engine.checks (snd out) = [] /\
  Engine.monitors (snd out) = Engine.monitors w.
Proof. repeat split. Qed.

(** *** The alert dispatcher *)

Section DispatcherFacts.

Import Engine Frame.
Local Open Scope engine_scope.

Variable env : Env.
Variable cfg : Config.

Lemma insert_alert_history_runs h w :
  store_fault env (n_store w) = None ->
  insert_alert_history env h w =
    (Ok tt, set_alert_history (alert_history w ++ [h]) (tick_store w)).
Proof.
  intros Hf. unfold insert_alert_history, execute. rewrite Hf. reflexivity.
Qed.

Lemma send_webhook_alert_runs alert mon status w :
  _send_webhook_alert env alert mon status w =
    (match http env (n_net w) with
     | Response _ _ _ => Ok tt
     | Failure e => Raise e
     end,
     tick_net (WebhookPost (a_destination alert) (m_name mon) (m_url mon) status
                           (clock env (n_clock w)))
              (tick_clock w)).
Proof.
  unfold _send_webhook_alert, bind, now, request. simpl.
  destruct (http env (n_net w)); reflexivity.
Qed.

(** C6, what the code does.  With no SMTP credentials an email alert
    is not sent (no network call is made), and the dispatcher then
    writes an [AlertHistory] row with [was_successful = true]. *)
Theorem email_without_credentials_logged_as_sent id mon status alert w :
  a_alert_type alert = "email" ->
  smtp_email cfg = "" \/ smtp_password cfg = "" ->
  store_fault env (n_store w) = None ->
  exists w',
    send_one_alert env cfg id mon status alert w = (Ok tt, w') /\
    trace w' = trace w /\ n_net w' = n_net w /\
    alert_history w' =
      (alert_history w ++
       [mkAlertHistory (a_id alert) id "email"
                       (m_name mon ++ " is " ++ upper status) true])%list.
Proof.
  intros Htype Hcred Hf.
  assert (Hskip : (smtp_email cfg =? "")%string || (smtp_password cfg =? "")%string = true).
  { destruct Hcred as [-> | ->]; simpl; [reflexivity | apply orb_true_r]. }
  unfold send_one_alert, try_except, bind, _send_email_alert.
  rewrite Htype, Hskip. simpl. unfold ret.
  rewrite (insert_alert_history_runs _ w Hf).
  eexists. split; [reflexivity|]. repeat split.
Qed.

(** C7, what the code does.  Whatever status code the destination
    answers a webhook with, 2xx or not, the dispatcher writes an
    [AlertHistory] row with [was_successful = true]; only an
    exception from the transport is logged as a failure. *)
Theorem webhook_response_logged_as_sent id mon status alert w code ms body :
  a_alert_type alert = "webhook" ->
  http env (n_net w) = Response code ms body ->
  store_fault env (n_store w) = None ->
  exists w',
    send_one_alert env cfg id mon status alert w = (Ok tt, w') /\
    alert_history w' =
      (alert_history w ++
       [mkAlertHistory (a_id alert) id "webhook"
                       (m_name mon ++ " is " ++ upper status) true])%list.
Proof.
  intros Htype Hresp Hf.
  unfold send_one_alert, try_except, bind.
  rewrite Htype. simpl. rewrite send_webhook_alert_runs, Hresp.
  rewrite insert_alert_history_runs by exact Hf.
  eexists. split; reflexivity.
Qed.

Lemma webhook_transport_error_logged_as_failure id mon status alert w e :
  a_alert_type alert = "webhook" ->
  http env (n_net w) = Failure e ->
  store_fault env (n_store w) = None ->
  exists w',
    send_one_alert env cfg id mon status alert w = (Ok tt, w') /\
    alert_history w' =
      (alert_history w ++
       [mkAlertHistory (a_id alert) id "webhook"
                       ("Failed: " ++ prefix 200 (exn_str e)) false])%list.
Proof.
  intros Htype Hresp Hf.
  unfold send_one_alert, try_except, bind.
  rewrite Htype. simpl. rewrite send_webhook_alert_runs, Hresp.
  rewrite insert_alert_history_runs by exact Hf.
  eexists. split; reflexivity.
Qed.

End DispatcherFacts.

Lemma email_without_credentials_logged_as_sent_witness :
  let w := Scenarios.world_of [Scenarios.site "up" true None] [] [Scenarios.email_alert] in
  Engine.a_alert_type Scenarios.email_alert = "email" /\
  Engine.smtp_email Scenarios.no_smtp = "" /\
  exists w',
    Engine.send_one_alert (Scenarios.calm_env 503) Scenarios.no_smtp "mon-1"
      (Scenarios.site "up" true None) "down" Scenarios.email_alert w = (Ok tt, w') /\
    Engine.trace w' = [] /\ Engine.n_net w' = 0%nat /\
    Engine.alert_history w' =
      [Engine.mkAlertHistory "alert-1" "mon-1" "email" "Test is DOWN" true].
Proof.
  intros w. split; [reflexivity|]. split; [reflexivity|].
  apply (email_without_credentials_logged_as_sent (Scenarios.calm_env 503)
           Scenarios.no_smtp "mon-1" (Scenarios.site "up" true None) "down"
           Scenarios.email_alert w);
    [reflexivity | left; reflexivity | reflexivity].
Defined.

Lemma webhook_response_logged_as_sent_witness :
  let w := Scenarios.world_of [Scenarios.site "up" true None] [] [Scenarios.webhook_alert] in
  Engine.http (Scenarios.calm_env 500) 0%nat = Engine.Response 500 42 None /\
  exists w',
    Engine.send_one_alert (Scenarios.calm_env 500) Scenarios.no_smtp "mon-1"
      (Scenarios.site "up" true None) "down" Scenarios.webhook_alert w = (Ok tt, w') /\
    Engine.alert_history w' =
      [Engine.mkAlertHistory "alert-2" "mon-1" "webhook" "Test is DOWN" true].
Proof.
  intros w. split; [reflexivity|].
  apply (webhook_response_logged_as_sent (Scenarios.calm_env 500)
           Scenarios.no_smtp "mon-1" (Scenarios.site "up" true None) "down"
           Scenarios.webhook_alert w 500 42 None);
    reflexivity.
Defined.

(** The whole path, from a failed check of a monitor that was up: one
    incident opens, and both channels are logged as delivered although
    no email left and the webhook was answered with 500. *)
Example false_successes_on_a_down_transition :
  let w := Scenarios.world_of [Scenarios.site "up" true None] []
             [Scenarios.email_alert; Scenarios.webhook_alert] in
  let out := Engine.update_monitor_status (Scenarios.calm_env 500) Scenarios.no_smtp
               "mon-1" false w in
  fst out = Ok tt /\
  map Engine.h_was_successful (Engine.alert_history (snd out)) = [true; true] /\
  Engine.trace (snd out) =
    [Engine.WebhookPost "https://hooks.example.com/x" "Test" "https://example.com"
                        "down" 3600001000] /\
  List.length (Engine.incidents (snd out)) = 1%nat.
Proof. repeat split. Qed.

(** *** The scheduler: which checker it runs *)

Section CheckerChoice.

Import Engine Frame.
Local Open Scope engine_scope.

Variable env : Env.
Variable cfg : Config.

Lemma no_fetch_added_refl w : no_fetch_added w w.
Proof. exists []. split; [symmetry; apply app_nil_r | reflexivity]. Qed.

Lemma no_fetch_added_trans a b c :
  no_fetch_added a b -> no_fetch_added b c -> no_fetch_added a c.
Proof.
  intros (l1 & H1 & F1) (l2 & H2 & F2). exists (l1 ++ l2)%list. split.
  - rewrite H2, H1. symmetry. apply app_assoc.
  - rewrite forallb_app, F1, F2. reflexivity.
Qed.

Lemma no_fetch_added_call call w :
  is_capability_fetch call = false -> no_fetch_added w (tick_net call w).
Proof.
  intros Hc. exists [call]. split; [reflexivity|]. simpl. rewrite Hc. reflexivity.
Qed.

(** No call a cycle issues is a capability fetch. *)
Lemma no_fetch_added_run_all_checks w :
  no_fetch_added w (snd (run_all_checks env cfg w)).
Proof.
  revert w. apply keeps_run_all_checks;
    first [ exact no_fetch_added_refl
          | exact no_fetch_added_trans
          | exact no_fetch_added_call
          | intros; exists []; split;
            [simpl; symmetry; apply app_nil_r | reflexivity] ].
Qed.

(** C8 as stated fails: no reading of a declared kind under which
    some monitor is a capability monitor is honoured, since the cycle
    opens the check of every due monitor with the HTTP probe. *)
Lemma scheduler_never_runs_schp_client :
  ~ exists kind,
      kind Scenarios.other_site = Stated.CapabilityCheck /\
      Stated.runs_the_declared_checker kind.
Proof.
  intros (kind & Hkind & claim).
  destruct (claim (Scenarios.calm_env 200) Scenarios.no_smtp
              (Scenarios.world_of [Scenarios.other_site] [] [])
              Scenarios.other_site eq_refl eq_refl eq_refl eq_refl)
    as (call & more & Htrace & Hchecker).
  vm_compute in Htrace. injection Htrace as <- _.
  rewrite Hkind in Hchecker. discriminate.
Qed.

End CheckerChoice.

(** *** The scheduler: a failing store request *)

Section StoreFailure.

Import Engine Frame.
Local Open Scope engine_scope.

Variable env : Env.
Variable cfg : Config.


End StoreFailure.

(** The cycle of the counterexample, evaluated: it raises, one probe
    was made, nothing was saved. *)
Example aborted_cycle :
  let w := Scenarios.world_of [Scenarios.site "unknown" true None; Scenarios.other_site]
                              [] [] in
  let out := Engine.run_all_checks Scenarios.flaky_store_env Scenarios.no_smtp w in
  fst out = Raise Scenarios.store_error /\
  Engine.trace (snd out) = [Engine.HttpProbe "GET" "https://example.com" 30] /\
  Engine.checks (snd out) = [] /\
  Engine.monitors (snd out) = Engine.monitors w.
Proof. repeat split. Qed.

(** *** Rows of the monitors table are never deleted *)

Section MonitorRows.

Import Engine Frame.
Local Open Scope engine_scope.

Variable env : Env.
Variable cfg : Config.

Lemma known_after_update id u ms monitor_id :
  find (by_id monitor_id) ms <> None ->
  find (by_id monitor_id) (map (apply_monitor_update id u) ms) <> None.
Proof.
  induction ms as [|m rest IH]; simpl; [tauto|].
  assert (Hid : by_id monitor_id (apply_monitor_update id u m) = by_id monitor_id m).
  { unfold by_id, apply_monitor_update. destruct (m_id m =? id)%string; reflexivity. }
  rewrite Hid. destruct (by_id monitor_id m); [discriminate | exact IH].
Qed.

Lemma ids_persist_same a b : monitors a = monitors b -> ids_persist a b.
Proof. intros H id. unfold known. rewrite H. tauto. Qed.

Lemma ids_persist_update_monitor id u w :
  ids_persist w (snd (update_monitor env id u w)).
Proof.
  rewrite update_monitor_runs. destruct (store_fault env (n_store w)).
  - apply ids_persist_same. reflexivity.
  - intros monitor_id. apply known_after_update.
Qed.

Lemma ids_persist_update_monitor_status id is_up w :
  ids_persist w (snd (update_monitor_status env cfg id is_up w)).
Proof.
  destruct (store_fault env (n_store w)) as [e|] eqn:Hf.
  { rewrite (update_monitor_status_fault env cfg id is_up w e Hf).
    apply ids_persist_same. reflexivity. }
  destruct (find (by_id id) (monitors w)) as [mon|] eqn:Hfind.
  - rewrite (update_monitor_status_found env cfg id is_up w mon Hf Hfind).
    unfold bind, ret.
    destruct (status_changed (m_current_status mon) (new_status_of is_up)).
    + pose proof (same_monitors_transition_effects env cfg id mon (m_current_status mon)
                    (new_status_of is_up) (clock env (n_clock w))
                    (tick_clock (tick_store w))) as Hsame.
      unfold same_monitors in Hsame.
      destruct (transition_effects env cfg id mon (m_current_status mon)
                  (new_status_of is_up) (clock env (n_clock w))
                  (tick_clock (tick_store w))) as [[[]|e] w1]; simpl in Hsame |- *.
      * intros monitor_id Hknown. apply ids_persist_update_monitor.
        unfold known. rewrite <- Hsame. exact Hknown.
      * apply ids_persist_same. exact Hsame.
    + intros monitor_id Hknown. apply ids_persist_update_monitor. exact Hknown.
  - rewrite (update_monitor_status_missing env cfg id is_up w Hf Hfind).
    apply ids_persist_same. reflexivity.
Qed.

Lemma ids_persist_check_monitor monitor w :
  ids_persist w (snd (check_monitor env cfg monitor w)).
Proof.
  unfold check_monitor, run_check. unfold bind at 1. rewrite check_url_runs.
  unfold bind at 1. unfold save_check_result, insert_check, execute. cbn [n_store tick_net tick_clock].
  destruct (store_fault env (n_store w)) as [e|].
  - apply ids_persist_same. reflexivity.
  - unfold bind, ret.
    match goal with
    | |- context [update_monitor_status env cfg ?id ?b ?w1] =>
        pose proof (ids_persist_update_monitor_status id b w1) as Hkeep;
        destruct (update_monitor_status env cfg id b w1) as [[[]|e] w2]
    end; simpl in Hkeep |- *; exact Hkeep.
Qed.

End MonitorRows.

(** *** The cycle when the store answers *)

Section StoreUp.

Import Engine Frame.
Local Open Scope engine_scope.

Variable env : Env.
Variable cfg : Config.
Hypothesis store_up : forall k, store_fault env k = None.

Lemma transition_effects_returns id mon old_status new_status t w :
  fst (transition_effects env cfg id mon old_status new_status t w) = Ok tt.
Proof.
  unfold transition_effects. destruct (new_status =? "down")%string.
  - unfold bind, insert_incident. rewrite (execute_runs env store_up). simpl.
    apply (send_alerts_returns env cfg store_up).
  - destruct ((new_status =? "up")%string && (old_status =? "down")%string);
      [|reflexivity].
    unfold bind, select_open_incidents. rewrite (execute_runs env store_up). simpl.
    destruct (resolve_all_runs env store_up t (filter (is_open_for id) (incidents w))
                (tick_store w)) as (Hok & _ & _).
    destruct (for_each (filter (is_open_for id) (incidents w)) (resolve_one env t)
                (tick_store w)) as [[[]|e] w1]; simpl in Hok; [|discriminate].
    apply (send_alerts_returns env cfg store_up).
Qed.

Lemma update_monitor_status_returns id is_up w :
  known w id ->
  fst (update_monitor_status env cfg id is_up w) = Ok tt.
Proof.
  intros Hknown.
  destruct (find (by_id id) (monitors w)) as [mon|] eqn:Hfind;
    [|exfalso; apply Hknown; exact Hfind].
  rewrite (update_monitor_status_found env cfg id is_up w mon (store_up _) Hfind).
  unfold bind.
  destruct (status_changed (m_current_status mon) (new_status_of is_up)).
  - pose proof (transition_effects_returns id mon (m_current_status mon)
                  (new_status_of is_up) (clock env (n_clock w))
                  (tick_clock (tick_store w))) as Hok.
    destruct (transition_effects env cfg id mon (m_current_status mon)
                (new_status_of is_up) (clock env (n_clock w))
                (tick_clock (tick_store w))) as [[[]|e] w1];
      simpl in Hok; [|discriminate].
    unfold ret. rewrite update_monitor_runs, store_up. reflexivity.
  - unfold ret. rewrite update_monitor_runs, store_up. reflexivity.
Qed.

Lemma check_monitor_returns monitor w :
  known w (m_id monitor) ->
  exists entry, fst (check_monitor env cfg monitor w) = Ok entry.
Proof.
  intros Hknown.
  unfold check_monitor, run_check. unfold bind at 1. rewrite check_url_runs.
  unfold bind at 1. unfold save_check_result, insert_check.
  rewrite (execute_runs env store_up). simpl. unfold bind at 1.
  match goal with
  | |- context [update_monitor_status env cfg ?id ?b ?w1] =>
      pose proof (update_monitor_status_returns id b w1 Hknown) as Hok;
      destruct (update_monitor_status env cfg id b w1) as [[[]|e] w2];
      simpl in Hok; [|discriminate]
  end.
  eexists. reflexivity.
Qed.

Lemma trace_extends_check_loop pending results :
  keeps trace_extends (check_loop env cfg pending results).
Proof.
  apply keeps_check_loop.
  - intros w. exists []. symmetry. apply app_nil_r.
  - intros a b c [m1 H1] [m2 H2]. exists (m1 ++ m2)%list.
    rewrite H2, H1. symmetry. apply app_assoc.
  - intros w. exists []. symmetry. apply app_nil_r.
  - intros w. exists []. symmetry. apply app_nil_r.
  - intros call w _. exists [call]. reflexivity.
  - intros v w. exists []. symmetry. apply app_nil_r.
  - intros v w. exists []. symmetry. apply app_nil_r.
  - intros v w. exists []. symmetry. apply app_nil_r.
  - intros v w. exists []. symmetry. apply app_nil_r.
Qed.

(** With the store answering, the loop returns, and every pending
    monitor that was never checked has been probed. *)
Lemma check_loop_completes pending :
  forall results w,
    (forall m, In m pending -> known w (m_id m)) ->
    (exists out, fst (check_loop env cfg pending results w) = Ok out) /\
    (forall m, In m pending -> m_last_checked_at m = None ->
       In (HttpProbe (http_verb (m_method m)) (m_url m) (m_timeout_seconds m))
          (trace (snd (check_loop env cfg pending results w)))).
Proof.
  induction pending as [|monitor rest IH]; intros results w Hknown.
  - split; [exists results; reflexivity | intros m []].
  - destruct (check_loop_step env cfg monitor rest results w)
      as (w1 & Hsame & _ & [[Hdue Hstep] | [Hnot Hstep]]); rewrite Hstep; clear Hstep.
    + unfold bind.
      assert (Hknown1 : forall m, In m (monitor :: rest) -> known w1 (m_id m)).
      { intros m Hin. unfold known. rewrite <- (proj1 Hsame). apply Hknown, Hin. }
      destruct (check_monitor_returns monitor w1 (Hknown1 monitor (or_introl eq_refl)))
        as [entry Hentry].
      destruct (check_monitor_probes env cfg monitor w1) as [[more Hmore] _].
      pose proof (ids_persist_check_monitor env cfg monitor w1) as Hkeep.
      destruct (check_monitor env cfg monitor w1) as [[entry'|e] w2];
        simpl in Hentry, Hmore, Hkeep; [|discriminate].
      destruct (IH (results ++ [entry'])%list w2) as [Hret Hprobed].
      { intros m Hin. apply Hkeep, Hknown1. right. exact Hin. }
      split; [exact Hret|].
      intros m [<- | Hin] Hnever; [|apply Hprobed; assumption].
      destruct (trace_extends_check_loop rest (results ++ [entry'])%list w2)
        as [later Hlater].
      rewrite Hlater, Hmore. apply in_or_app. left.
      apply in_or_app. right. left. reflexivity.
    + destruct (IH results w1) as [Hret Hprobed].
      { intros m Hin. unfold known. rewrite <- (proj1 Hsame). apply Hknown. right.
        exact Hin. }
      split; [exact Hret|].
      intros m [<- | Hin] Hnever; [|apply Hprobed; assumption].
      exfalso. apply Hnot. unfold due. rewrite Hnever. exact I.
Qed.

Lemma active_monitors_known w m :
  In m (filter m_is_active (monitors w)) -> known (tick_store w) (m_id m).
Proof.
  intros Hin. apply filter_In in Hin as [Hin _]. unfold known. simpl.
  intros Hnone. apply (find_none _ _ Hnone) in Hin. unfold by_id in Hin.
  rewrite String.eqb_refl in Hin. discriminate.
Qed.

(** The reading of C9 used above is met when no store request fails:
    it is the failure that breaks it. *)
Lemma cycle_completes_when_store_up w m :
  In m (monitors w) -> m_is_active m = true -> m_last_checked_at m = None ->
  (exists out, fst (run_all_checks env cfg w) = Ok out) /\
  In (HttpProbe (http_verb (m_method m)) (m_url m) (m_timeout_seconds m))
     (trace (snd (run_all_checks env cfg w))).
Proof.
  intros Hin Hactive Hnever.
  unfold run_all_checks, bind, select_active_monitors.
  rewrite (execute_runs env store_up). simpl.
  destruct (check_loop_completes (filter m_is_active (monitors w)) [] (tick_store w)
              (active_monitors_known w))
    as [Hret Hprobed].
  split; [exact Hret|]. apply Hprobed; [|exact Hnever].
  apply filter_In. split; assumption.
Qed.

(** With a clock that never runs backwards, the duration the recovery
    branch records is at least the whole seconds between [started_at]
    and [resolved_at]. *)
Lemma duration_at_least_resolved_minus_started (resolved_at measured_at : timestamp)
    (i : Incident) :
  resolved_at <= measured_at ->
  match i_duration_seconds (resolved resolved_at measured_at i) with
  | Some d => whole_seconds (resolved_at - i_started_at i) <= d
  | None => False
  end.
Proof.
  intros Hle. simpl. unfold whole_seconds, usec_per_sec.
  apply Z.quot_le_mono; lia.
Qed.

End StoreUp.

(** * Further properties *)

(** ** The SCHP client: validation and aggregation *)

Section SCHPValidation.

Import SCHP.

Lemma validate_capabilities_accepts caps :
  validate_capabilities caps = None <-> Forall well_formed_capability caps.
Proof.
  induction caps as [|[name cap] rest IH]; split; intros H.
  - constructor.
  - reflexivity.
  - apply validate_capabilities_cons in H as [(c & b & Hc & Hok) Hrest].
    constructor; [|apply IH; exact Hrest].
    exists b, c. split; [exact Hc | exact Hok].
  - inversion H as [|? ? (b & c & Hc & Hok) Hrest]; subst.
    simpl in Hc. subst cap. simpl. rewrite Hok. simpl. apply IH. exact Hrest.
Qed.

Lemma validated_has_capabilities data :
  _validate_schp_response (JDict data) = None ->
  exists caps, lookup "capabilities" data = Some (JDict caps).
Proof.
  simpl. destruct (lookup "capabilities" data) as [[| | | | | |caps]|];
    try discriminate.
  intros _. exists caps. reflexivity.
Qed.

(** X1.  [_validate_schp_response] accepts exactly the objects whose
    ["capabilities"] is an object every entry of which is an object
    with a boolean ["ok"]. *)
Theorem validate_schp_response_accepts data :
  _validate_schp_response data = None <->
  exists d caps,
    data = JDict d /\ lookup "capabilities" d = Some (JDict caps) /\
    Forall well_formed_capability caps.
Proof.
  split.
  - destruct data as [| | | | | |d]; try discriminate. simpl.
    destruct (lookup "capabilities" d) as [[| | | | | |caps]|] eqn:Hcaps;
      try discriminate.
    intros Hv. exists d, caps. split; [reflexivity|]. split; [exact Hcaps|].
    apply validate_capabilities_accepts. exact Hv.
  - intros (d & caps & -> & Hcaps & Hall). simpl. rewrite Hcaps.
    apply validate_capabilities_accepts. exact Hall.
Qed.

Lemma failed_names_valid caps :
  validate_capabilities caps = None ->
  failed_names caps = Ok (map fst (filter (fun e => negb (ok_flag e)) caps)).
Proof.
  induction caps as [|[name cap] rest IH]; intros Hv; [reflexivity|].
  apply validate_capabilities_cons in Hv as [(c & b & -> & Hok) Hrest].
  assert (Hflag : ok_flag (name, JDict c) = b).
  { unfold ok_flag, get_default. simpl. rewrite Hok. reflexivity. }
  cbn [failed_names filter]. rewrite (IH Hrest), Hflag.
  unfold get_default. rewrite Hok. destruct b; reflexivity.
Qed.

Lemma get_failed_capabilities_valid data caps :
  _validate_schp_response (JDict data) = None ->
  lookup "capabilities" data = Some (JDict caps) ->
  get_failed_capabilities data =
    Ok (map fst (filter (fun e => negb (ok_flag e)) caps)).
Proof.
  intros Hv Hcaps.
  assert (Hvc : validate_capabilities caps = None).
  { simpl in Hv. rewrite Hcaps in Hv. exact Hv. }
  unfold get_failed_capabilities, contains, get_default. rewrite Hcaps.
  destruct data; [discriminate|]. simpl. apply failed_names_valid. exact Hvc.
Qed.

Lemma declares_false_iff caps name :
  validate_capabilities caps = None ->
  In name (map fst (filter (fun e => negb (ok_flag e)) caps)) <->
  exists cap, In (name, cap) caps /\ declares_ok false (name, cap).
Proof.
  intros Hv. rewrite in_map_iff. split.
  - intros ([n cap] & Hn & Hin). simpl in Hn. subst n.
    apply filter_In in Hin as [Hin Hflag]. exists cap. split; [exact Hin|].
    apply validate_capabilities_accepts in Hv.
    rewrite Forall_forall in Hv. destruct (Hv _ Hin) as ([|] & Hb).
    + rewrite (declares_ok_flag _ _ Hb) in Hflag. discriminate.
    + exact Hb.
  - intros (cap & Hin & Hfalse). exists (name, cap). split; [reflexivity|].
    apply filter_In. split; [exact Hin|].
    rewrite (declares_ok_flag _ _ Hfalse). reflexivity.
Qed.

(** X2.  On a validated document [get_failed_capabilities] returns,
    in document order, the names of the entries kept by the test
    "[ok] is false"; a name is listed exactly when an entry of that
    name declares [ok] false. *)
Theorem get_failed_capabilities_lists_the_false data caps :
  _validate_schp_response (JDict data) = None ->
  lookup "capabilities" data = Some (JDict caps) ->
  exists names,
    get_failed_capabilities data = Ok names /\
    names = map fst (filter (fun e => negb (ok_flag e)) caps) /\
    forall name, In name names <->
                 exists cap, In (name, cap) caps /\ declares_ok false (name, cap).
Proof.
  intros Hv Hcaps. eexists. split; [apply get_failed_capabilities_valid; eassumption|].
  split; [reflexivity|]. intros name. apply declares_false_iff.
  simpl in Hv. rewrite Hcaps in Hv. exact Hv.
Qed.

Lemma Ok_inj {A : Type} (a b : A) : Ok a = Ok b -> a = b.
Proof. congruence. Qed.

Lemma nothing_failed_iff_all_ok (caps : dict) :
  map fst (filter (fun e => negb (ok_flag e)) caps) = [] <-> forallb ok_flag caps = true.
Proof.
  induction caps as [|e rest IH]; simpl; [tauto|].
  destruct (ok_flag e); simpl; [exact IH|]. split; discriminate.
Qed.

(** X3.  On a validated document with no explicit ["status"] and at
    least one capability, the overall status is ["operational"]
    exactly when [get_failed_capabilities] is empty. *)
Theorem operational_iff_nothing_failed data caps :
  _validate_schp_response (JDict data) = None ->
  lookup "capabilities" data = Some (JDict caps) ->
  lookup "status" data = None ->
  caps <> [] ->
  (get_overall_status data = Ok (JStr "operational") <->
   get_failed_capabilities data = Ok []).
Proof.
  intros Hv Hcaps Hstatus Hne.
  rewrite (get_overall_status_derived data caps Hv Hcaps Hstatus).
  rewrite (get_failed_capabilities_valid data caps Hv Hcaps).
  destruct caps as [|e rest]; [congruence|].
  split.
  - intros Hop. f_equal. apply nothing_failed_iff_all_ok.
    destruct (forallb ok_flag (e :: rest)); [reflexivity|].
    destruct (existsb ok_flag (e :: rest)); discriminate.
  - intros Hnone. apply Ok_inj in Hnone.
    apply nothing_failed_iff_all_ok in Hnone. rewrite Hnone. reflexivity.
Qed.

Lemma aggregation_returns_on_valid data :
  _validate_schp_response (JDict data) = None ->
  (exists status, get_overall_status data = Ok status) /\
  (exists names, get_failed_capabilities data = Ok names).
Proof.
  intros Hv.
  destruct (validated_has_capabilities data Hv) as (caps & Hcaps).
  split.
  - destruct (lookup "status" data) as [s|] eqn:Hstatus.
    + exists s. unfold get_overall_status, contains. rewrite Hcaps, Hstatus.
      destruct data; [discriminate | reflexivity].
    + eexists. apply (get_overall_status_derived data caps Hv Hcaps Hstatus).
  - eexists. apply (get_failed_capabilities_valid data caps Hv Hcaps).
Qed.

(** X4.  Validation is what keeps the aggregation from raising: on a
    validated document both [get_overall_status] and
    [get_failed_capabilities] return. *)
Theorem validated_document_never_raises data :
  _validate_schp_response (JDict data) = None ->
  (exists status, get_overall_status data = Ok status) /\
  (exists names, get_failed_capabilities data = Ok names).
Proof. exact (aggregation_returns_on_valid data). Qed.

End SCHPValidation.

Lemma get_failed_capabilities_lists_the_false_witness :
  SCHP._validate_schp_response (JDict Scenarios.mixed_doc) = None /\
  exists names,
    SCHP.get_failed_capabilities Scenarios.mixed_doc = Ok names /\
    names = ["cache"].
Proof.
  split; [reflexivity|].
  destruct (get_failed_capabilities_lists_the_false Scenarios.mixed_doc
              Scenarios.mixed_caps eq_refl eq_refl) as (names & Hget & Hnames & _).
  exists names. split; [exact Hget | exact Hnames].
Defined.

Lemma operational_iff_nothing_failed_witness :
  SCHP._validate_schp_response (JDict Scenarios.healthy_doc) = None /\
  Scenarios.healthy_caps <> [] /\
  (SCHP.get_overall_status Scenarios.healthy_doc = Ok (JStr "operational") <->
   SCHP.get_failed_capabilities Scenarios.healthy_doc = Ok []).
Proof.
  split; [reflexivity|]. split; [discriminate|].
  apply (operational_iff_nothing_failed Scenarios.healthy_doc Scenarios.healthy_caps);
    [reflexivity | reflexivity | reflexivity | discriminate].
Defined.

Lemma validated_document_never_raises_witness :
  SCHP._validate_schp_response (JDict Scenarios.explicit_doc) = None /\
  (exists status, SCHP.get_overall_status Scenarios.explicit_doc = Ok status) /\
  (exists names, SCHP.get_failed_capabilities Scenarios.explicit_doc = Ok names).
Proof.
  split; [reflexivity|].
  apply (validated_document_never_raises Scenarios.explicit_doc). reflexivity.
Defined.

(** Without validation the aggregation can raise: a capability that
    is not an object has no [get]. *)
Example malformed_document_raises :
  SCHP._validate_schp_response (JDict Scenarios.malformed_doc)
    = Some "Capability 'db' must be object" /\
  SCHP.get_overall_status Scenarios.malformed_doc
    = Raise (SCHP.attribute_error "object has no attribute 'get'").
Proof. split; reflexivity. Qed.

(** ** The SCHP client: the endpoint URL *)

Section EndpointURL.

Import Engine.

Lemma append_assoc_string (a b c : string) : ((a ++ b) ++ c = a ++ (b ++ c))%string.
Proof. induction a as [|x a IH]; simpl; [reflexivity | rewrite IH; reflexivity]. Qed.

Lemma rev_string_app (a b acc : string) :
  rev_string (a ++ b) acc = rev_string b (rev_string a acc).
Proof.
  revert acc. induction a as [|x a IH]; intros acc; simpl; [reflexivity | apply IH].
Qed.

Lemma rev_string_acc (s acc : string) :
  rev_string s acc = (rev_string s "" ++ acc)%string.
Proof.
  revert acc. induction s as [|x s IH]; intros acc; simpl; [reflexivity|].
  rewrite (IH (String x acc)), (IH (String x "")).
  rewrite append_assoc_string. reflexivity.
Qed.

Lemma rev_string_append (a b : string) :
  rev_string (a ++ b) "" = (rev_string b "" ++ rev_string a "")%string.
Proof. rewrite rev_string_app. apply rev_string_acc. Qed.

Lemma rev_string_involutive (s : string) : rev_string (rev_string s "") "" = s.
Proof.
  induction s as [|x s IH]; simpl; [reflexivity|].
  rewrite (rev_string_acc s (String x "")), rev_string_append, IH. reflexivity.
Qed.

Lemma prefix_append (p x : string) : String.prefix p (p ++ x) = true.
Proof.
  induction p as [|c p IH]; simpl; [destruct x; reflexivity|].
  destruct (ascii_dec c c); [exact IH | congruence].
Qed.

Lemma endswith_append (s suffix : string) : endswith (s ++ suffix) suffix = true.
Proof.
  unfold endswith. rewrite rev_string_append. apply prefix_append.
Qed.

(** X5.  The URL [fetch_capabilities] requests always ends with
    [/health/capabilities]; a URL that already ends so is requested as
    given, and normalising twice changes nothing more. *)
Theorem normalize_url_ends_with_path url :
  endswith (normalize_url url) capabilities_path = true /\
  (endswith url capabilities_path = true -> normalize_url url = url) /\
  normalize_url (normalize_url url) = normalize_url url.
Proof.
  assert (Hends : endswith (normalize_url url) capabilities_path = true).
  { unfold normalize_url.
    destruct (endswith url capabilities_path) eqn:He; simpl;
      [exact He | apply endswith_append]. }
  split; [exact Hends|]. split.
  - intros He. unfold normalize_url. rewrite He. reflexivity.
  - unfold normalize_url at 1. rewrite Hends. reflexivity.
Qed.

Lemma rstrip_after_path (base : string) :
  rstrip_char "/"%char (base ++ capabilities_path ++ "/")
  = (base ++ capabilities_path)%string.
Proof.
  assert (Hstrip : forall t : string,
             lstrip_char "/"%char (rev_string (capabilities_path ++ "/") "" ++ t)
             = (rev_string capabilities_path "" ++ t)%string)
    by (intros t; reflexivity).
  unfold rstrip_char.
  rewrite rev_string_append, Hstrip, <- rev_string_append.
  apply rev_string_involutive.
Qed.

Lemma not_endswith_after_slash (base : string) :
  endswith (base ++ capabilities_path ++ "/") capabilities_path = false.
Proof.
  unfold endswith. rewrite rev_string_append. reflexivity.
Qed.

(** X6.  A URL that ends with [/health/capabilities/], the path
    followed by a slash, is not recognised as complete: the slash is
    stripped and the path appended a second time. *)
Theorem normalize_url_doubles_path_after_slash base :
  normalize_url (base ++ capabilities_path ++ "/")
  = (base ++ capabilities_path ++ capabilities_path)%string.
Proof.
  unfold normalize_url. rewrite not_endswith_after_slash, rstrip_after_path.
  simpl negb. cbv iota. apply append_assoc_string.
Qed.

End EndpointURL.

(** The doubled path on a concrete URL. *)
Example trailing_slash_after_path :
  Engine.normalize_url "https://api.example.com/health/capabilities/"
  = "https://api.example.com/health/capabilities/health/capabilities" /\
  Engine.normalize_url "https://api.example.com/" = "https://api.example.com/health/capabilities".
Proof. split; reflexivity. Qed.

(** ** The SCHP client: fetching and checking *)

Section CapabilityCheck.

Import Engine SCHP.
Local Open Scope engine_scope.

Variable env : Env.

Lemma fetch_capabilities_runs timeout url w :
  fetch_capabilities env timeout url w =
    (Ok (fetch_outcome (normalize_url url) timeout (clock env (n_clock w))
                       (http env (n_net w))),
     tick_net (CapabilityFetch (normalize_url url) timeout) (tick_clock w)).
Proof. reflexivity. Qed.

(** X7.  [fetch_capabilities] never raises and makes one request, to
    the normalised URL.  Its result is a success exactly when the
    answer is a 200 whose body is JSON that passes validation, and
    then carries that body and no error; every other result carries
    an error and no data. *)
Theorem fetch_capabilities_success_iff timeout url w :
  exists r,
    fetch_capabilities env timeout url w =
      (Ok r, tick_net (CapabilityFetch (normalize_url url) timeout) (tick_clock w)) /\
    s_url r = normalize_url url /\
    (s_success r = true <->
     exists ms data, http env (n_net w) = Response 200 ms (Some data) /\
                     _validate_schp_response data = None) /\
    (s_success r = true -> s_error r = None /\
       exists ms data, http env (n_net w) = Response 200 ms (Some data) /\
                       s_data r = Some data) /\
    (s_success r = false -> s_data r = None /\ exists msg, s_error r = Some msg).
Proof.
  rewrite fetch_capabilities_runs. eexists. split; [reflexivity|].
  unfold fetch_outcome.
  destruct (http env (n_net w)) as [code ms body|e].
  - destruct (Z.eqb_spec code 200) as [->|Hne]; simpl.
    + destruct body as [data|]; simpl.
      * destruct (_validate_schp_response data) as [err|] eqn:Hv; simpl.
        -- split; [reflexivity|]. split; [|split; [discriminate|eauto]].
           split; [discriminate|]. intros (ms' & d' & [= _ <-] & Hv').
           congruence.
        -- split; [reflexivity|]. split; [|split; [|discriminate]].
           ++ split; [eauto | reflexivity].
           ++ intros _. split; [reflexivity | eauto].
      * split; [reflexivity|]. split; [|split; [discriminate|eauto]].
        split; [discriminate|]. intros (ms' & d' & [=] & _).
    + split; [reflexivity|]. split; [|split; [discriminate|eauto]].
      split; [discriminate|]. intros (ms' & d' & [= Hc _ _] & _). contradiction.
  - simpl. split; [reflexivity|]. split; [|split; [discriminate|eauto]].
    split; [discriminate|]. intros (ms' & d' & [=] & _).
Qed.

Lemma fetch_outcome_cases url timeout t out :
  (exists ms data,
     out = Response 200 ms (Some data) /\ _validate_schp_response data = None /\
     fetch_outcome url timeout t out = mkSCHPResult true (Some data) None (Some ms) t url)
  \/
  ((forall ms data, out = Response 200 ms (Some data) ->
                    _validate_schp_response data <> None) /\
   exists rt msg,
     fetch_outcome url timeout t out = mkSCHPResult false None (Some msg) rt t url).
Proof.
  unfold fetch_outcome. destruct out as [code ms body|e].
  - destruct (Z.eqb_spec code 200) as [->|Hne]; simpl.
    + destruct body as [data|].
      * destruct (_validate_schp_response data) as [err|] eqn:Hv.
        -- right. split; [|eauto]. intros ms' d' [= _ <-]. congruence.
        -- left. eauto.
      * right. split; [|eauto]. intros ms' d' [=].
    + right. split; [|eauto]. intros ms' d' [= Hc _ _]. contradiction.
  - right. split; [|eauto]. intros ms' d' [=].
Qed.

(** What [check_capabilities] returns, by the answer it gets. *)
Lemma check_capabilities_cases url timeout w :
  (exists ms d status names,
     http env (n_net w) = Response 200 ms (Some (JDict d)) /\
     _validate_schp_response (JDict d) = None /\
     get_overall_status d = Ok status /\
     get_failed_capabilities d = Ok names /\
     check_capabilities env url timeout w =
       (Ok (mkCapabilityResult (normalize_url url) (is_str status "operational")
              status (get_default "capabilities" (JDict []) d) names
              (Some ms) None (clock env (n_clock w))),
        tick_net (CapabilityFetch (normalize_url url) timeout) (tick_clock w)))
  \/
  ((forall ms data, http env (n_net w) = Response 200 ms (Some data) ->
                    _validate_schp_response data <> None) /\
   exists rt msg,
     check_capabilities env url timeout w =
       (Ok (mkCapabilityResult (normalize_url url) false (JStr "unknown") (JDict []) []
              rt (Some msg) (clock env (n_clock w))),
        tick_net (CapabilityFetch (normalize_url url) timeout) (tick_clock w))).
Proof.
  assert (Hstep : forall k : SCHPResult -> M CapabilityResult,
             bind (fetch_capabilities env timeout url) k w =
             k (fetch_outcome (normalize_url url) timeout (clock env (n_clock w))
                              (http env (n_net w)))
               (tick_net (CapabilityFetch (normalize_url url) timeout) (tick_clock w)))
    by reflexivity.
  unfold check_capabilities. rewrite !Hstep. clear Hstep.
  destruct (fetch_outcome_cases (normalize_url url) timeout (clock env (n_clock w))
              (http env (n_net w)))
    as [(ms & data & Hout & Hv & Hfetch) | (Hnot & rt & msg & Hfetch)];
    rewrite Hfetch; cbn [s_data s_success s_url s_error s_response_time_ms s_fetched_at].
  - left. destruct data as [| | | | | |d]; try discriminate.
    destruct (aggregation_returns_on_valid d Hv) as [[status Hs] [names Hn]].
    exists ms, d, status, names.
    split; [exact Hout|]. split; [exact Hv|]. split; [exact Hs|]. split; [exact Hn|].
    destruct (validated_has_capabilities d Hv) as [caps Hcaps].
    destruct d as [|kv d']; [discriminate|]. cbn [truthy andb].
    unfold bind, lift, ret. rewrite Hs, Hn.
    destruct status; reflexivity.
  - right. split; [exact Hnot|]. exists rt, msg. reflexivity.
Qed.

End CapabilityCheck.

Section CapabilityCheckFacts.

Import Engine SCHP.
Local Open Scope engine_scope.

Variable env : Env.

Lemma is_str_iff value text : is_str value text = true <-> value = JStr text.
Proof.
  destruct value; simpl; try (split; [discriminate | intros [=]]).
  rewrite String.eqb_eq. split; [congruence | intros [= ->]; reflexivity].
Qed.

(** X8.  [check_capabilities] never raises: the document it
    aggregates has passed validation.  It makes one request, the
    capability fetch.  It reports up exactly when the fetch succeeded
    and the overall status is ["operational"]; anything else, a
    degraded status included, is down.  When the fetch failed the
    result has the error, status ["unknown"], no capabilities and no
    failed names. *)
Theorem check_capabilities_up_iff_operational url timeout w :
  exists r,
    check_capabilities env url timeout w =
      (Ok r, tick_net (CapabilityFetch (normalize_url url) timeout) (tick_clock w)) /\
    (k_is_up r = true <-> k_error_message r = None /\ k_status r = JStr "operational") /\
    (k_error_message r <> None ->
       k_is_up r = false /\ k_status r = JStr "unknown" /\
       k_capabilities r = JDict [] /\ k_failed_capabilities r = []).
Proof.
  destruct (check_capabilities_cases env url timeout w)
    as [(ms & d & status & names & _ & _ & _ & _ & Hrun) | (_ & rt & msg & Hrun)];
    rewrite Hrun; eexists; (split; [reflexivity|]); simpl.
  - split; [rewrite is_str_iff; tauto | intros Habs; contradiction].
  - split; [|intros _; repeat split].
    split; [discriminate | intros [[=] _]].
Qed.

(** X9.  An explicit ["status": "operational"] in a validated answer
    makes [check_capabilities] report up whatever the capabilities
    say: the names with [ok] false are still listed in
    [failed_capabilities]. *)
Theorem explicit_operational_status_reports_up url timeout w ms data caps :
  http env (n_net w) = Response 200 ms (Some (JDict data)) ->
  _validate_schp_response (JDict data) = None ->
  lookup "capabilities" data = Some (JDict caps) ->
  lookup "status" data = Some (JStr "operational") ->
  exists r w',
    check_capabilities env url timeout w = (Ok r, w') /\
    k_is_up r = true /\
    k_failed_capabilities r = map fst (filter (fun e => negb (ok_flag e)) caps).
Proof.
  intros Hresp Hv Hcaps Hstatus.
  assert (Hs : get_overall_status data = Ok (JStr "operational")).
  { unfold get_overall_status, contains. rewrite Hcaps, Hstatus.
    destruct data; [discriminate | reflexivity]. }
  destruct (check_capabilities_cases env url timeout w)
    as [(ms' & d & status & names & Hout & _ & Hs' & Hn & Hrun) | (Hnot & _)].
  - rewrite Hresp in Hout. injection Hout as _ <-.
    rewrite Hs in Hs'. injection Hs' as <-.
    rewrite (get_failed_capabilities_valid data caps Hv Hcaps) in Hn.
    injection Hn as <-.
    rewrite Hrun. eexists. eexists. split; [reflexivity|]. split; reflexivity.
  - exfalso. exact (Hnot ms (JDict data) Hresp Hv).
Qed.

End CapabilityCheckFacts.

Lemma explicit_operational_status_reports_up_witness :
  Engine.http (Scenarios.schp_env Scenarios.overridden_doc) 0%nat
    = Engine.Response 200 17 (Some (JDict Scenarios.overridden_doc)) /\
  SCHP._validate_schp_response (JDict Scenarios.overridden_doc) = None /\
  exists r w',
    Engine.check_capabilities (Scenarios.schp_env Scenarios.overridden_doc)
      "https://api.example.com" 30 Scenarios.empty_world = (Ok r, w') /\
    Engine.k_is_up r = true /\
    Engine.k_failed_capabilities r = ["cache"].
Proof.
  split; [reflexivity|]. split; [reflexivity|].
  apply (explicit_operational_status_reports_up
           (Scenarios.schp_env Scenarios.overridden_doc) "https://api.example.com" 30
           Scenarios.empty_world 17 Scenarios.overridden_doc Scenarios.mixed_caps);
    reflexivity.
Defined.

(** The specification's scenario through the whole check: a mixed
    document is degraded, lists ["cache"], and is down. *)
Example mixed_document_is_down :
  let out := Engine.check_capabilities (Scenarios.schp_env Scenarios.mixed_doc)
               "https://api.example.com/" 30 Scenarios.empty_world in
  match fst out with
  | Ok r => Engine.k_is_up r = false /\ Engine.k_status r = JStr "degraded" /\
            Engine.k_failed_capabilities r = ["cache"] /\
            Engine.k_url r = "https://api.example.com/health/capabilities"
  | Raise _ => False
  end.
Proof. repeat split. Qed.

(** ** The SCHP client: the status summary *)

Section StatusSummary.

Import SCHP.

Lemma count_ok_valid caps :
  validate_capabilities caps = None ->
  count_ok (map snd caps) = Ok (List.length (filter ok_flag caps)).
Proof.
  induction caps as [|[name cap] rest IH]; intros Hv; [reflexivity|].
  apply validate_capabilities_cons in Hv as [(c & b & -> & Hok) Hrest].
  assert (Hflag : ok_flag (name, JDict c) = b).
  { unfold ok_flag, get_default. simpl. rewrite Hok. reflexivity. }
  cbn [map snd count_ok filter]. rewrite (IH Hrest), Hflag.
  unfold cap_ok, get_default. rewrite Hok. destruct b; reflexivity.
Qed.

Lemma filter_all_ok (caps : dict) :
  forallb ok_flag caps = true -> filter ok_flag caps = caps.
Proof.
  induction caps as [|e rest IH]; simpl; [reflexivity|].
  destruct (ok_flag e); simpl; [|discriminate]. intros H. rewrite (IH H). reflexivity.
Qed.

Lemma format_status_summary_valid data caps :
  _validate_schp_response (JDict data) = None ->
  lookup "capabilities" data = Some (JDict caps) ->
  exists status names,
    get_overall_status data = Ok status /\
    get_failed_capabilities data = Ok names /\
    format_status_summary data =
      Ok (if is_str status "operational" then
            summary_operational (List.length (filter ok_flag caps)) (List.length caps)
          else if is_str status "degraded" then
            summary_degraded names (List.length (filter ok_flag caps)) (List.length caps)
          else summary_down).
Proof.
  intros Hv Hcaps.
  destruct (aggregation_returns_on_valid data Hv) as [[status Hs] [names Hn]].
  exists status, names. split; [exact Hs|]. split; [exact Hn|].
  assert (Hvc : validate_capabilities caps = None).
  { simpl in Hv. rewrite Hcaps in Hv. exact Hv. }
  unfold format_status_summary, get_default. rewrite Hs, Hcaps, Hn.
  rewrite (count_ok_valid caps Hvc).
  destruct data; [discriminate|]. cbn [truthy negb].
  destruct (is_str status "operational"); [reflexivity|].
  destruct (is_str status "degraded"); reflexivity.
Qed.

(** X10.  On a validated document [format_status_summary] never
    raises.  Any overall status other than ["operational"] and
    ["degraded"] (["unknown"] for an empty map, ["down"], or an
    explicit status of the document's own) is summarised by the one
    "Down — All capabilities unavailable" line, whatever the
    capabilities say.  With no explicit status and every capability
    ok, the summary is the operational line with the count n/n. *)
Theorem format_status_summary_on_valid data caps :
  _validate_schp_response (JDict data) = None ->
  lookup "capabilities" data = Some (JDict caps) ->
  exists text,
    format_status_summary data = Ok text /\
    (forall status,
       get_overall_status data = Ok status ->
       status <> JStr "operational" -> status <> JStr "degraded" ->
       text = summary_down) /\
    (lookup "status" data = None -> caps <> [] ->
     Forall (declares_ok true) caps ->
     text = summary_operational (List.length caps) (List.length caps)).
Proof.
  intros Hv Hcaps.
  destruct (format_status_summary_valid data caps Hv Hcaps)
    as (status & names & Hs & Hn & Hfmt).
  eexists. split; [exact Hfmt|]. split.
  - intros status' Hs' Hnop Hndeg. rewrite Hs in Hs'. injection Hs' as <-.
    destruct (is_str status "operational") eqn:H1;
      [apply is_str_iff in H1; contradiction|].
    destruct (is_str status "degraded") eqn:H2;
      [apply is_str_iff in H2; contradiction | reflexivity].
  - intros Hstatus Hne Hall.
    rewrite (get_overall_status_derived data caps Hv Hcaps Hstatus) in Hs.
    destruct caps as [|e rest]; [congruence|].
    pose proof (forallb_declares _ Hall) as Hallb. rewrite Hallb in Hs.
    injection Hs as <-. simpl is_str. cbv iota.
    rewrite (filter_all_ok _ Hallb). reflexivity.
Qed.

End StatusSummary.

Lemma format_status_summary_on_valid_witness :
  SCHP._validate_schp_response (JDict Scenarios.explicit_doc) = None /\
  SCHP.format_status_summary Scenarios.explicit_doc = Ok SCHP.summary_down /\
  SCHP.format_status_summary Scenarios.healthy_doc
    = Ok (SCHP.summary_operational 2 2).
Proof.
  split; [reflexivity|].
  destruct (format_status_summary_on_valid Scenarios.explicit_doc Scenarios.mixed_caps
              eq_refl eq_refl) as (text & Hfmt & Hdown & _).
  destruct (format_status_summary_on_valid Scenarios.healthy_doc Scenarios.healthy_caps
              eq_refl eq_refl) as (text' & Hfmt' & _ & Hop).
  split.
  - rewrite Hfmt. f_equal.
    apply (Hdown (JStr "maintenance") eq_refl); discriminate.
  - rewrite Hfmt'. f_equal. apply (Hop eq_refl); [discriminate|].
    repeat constructor; eexists; split; reflexivity.
Defined.

(** ** The checker: failures *)

Section CheckerFailures.

Import Engine.
Local Open Scope engine_scope.

Variable env : Env.

Lemma length_append_string (a b : string) :
  String.length (a ++ b) = (String.length a + String.length b)%nat.
Proof. induction a as [|c a IH]; simpl; [reflexivity | rewrite IH; reflexivity]. Qed.

Lemma length_prefix (n : nat) (s : string) : (String.length (prefix n s) <= n)%nat.
Proof.
  unfold prefix. revert s. induction n as [|n IH]; intros s.
  - destruct s; simpl; lia.
  - destruct s as [|c s]; simpl; [lia|]. specialize (IH s). lia.
Qed.

(** X11.  A probe that fails in transport never makes [check_url]
    raise: the result is down, with no status code and no response
    time, and carries a message.  For a failure other than a timeout
    the message is at most 219 characters, however long the
    exception's text. *)
Theorem check_url_failure_is_down url method expected timeout w e :
  http env (n_net w) = Failure e ->
  exists r w',
    check_url env url method expected timeout w = (Ok r, w') /\
    r_is_up r = false /\ r_status_code r = None /\ r_response_time_ms r = None /\
    exists msg,
      r_error_message r = Some msg /\
      (exn_cls e <> TimeoutException -> (String.length msg <= 219)%nat).
Proof.
  intros Hfail. rewrite check_url_runs, Hfail.
  eexists. eexists. split; [reflexivity|]. simpl.
  repeat (split; [reflexivity|]).
  eexists. split; [reflexivity|]. intros Hclass.
  pose proof (length_prefix 200 (exn_str e)) as Hlen.
  destruct (exn_cls e); try contradiction;
    try (rewrite length_append_string; simpl; lia); simpl; lia.
Qed.

(** X12.  Whatever comes back, [check_url] returns after exactly one
    request, sent as HEAD or POST when the method is exactly that and
    as GET otherwise, and its result has no error message exactly
    when it is up. *)
Theorem check_url_one_request url method expected timeout w :
  exists r,
    check_url env url method expected timeout w =
      (Ok r, tick_net (HttpProbe (http_verb method) url timeout) (tick_clock w)) /\
    (http_verb method = method \/ http_verb method = "GET") /\
    (http_verb method = "HEAD" \/ http_verb method = "POST" \/ http_verb method = "GET") /\
    r_url r = url /\
    (r_error_message r = None <-> r_is_up r = true).
Proof.
  rewrite check_url_runs. eexists. split; [reflexivity|].
  split; [|split; [|split]].
  - unfold http_verb. destruct (String.eqb_spec method "HEAD") as [->|_]; [left; reflexivity|].
    destruct (String.eqb_spec method "POST") as [->|_]; [left|right]; reflexivity.
  - unfold http_verb. destruct (method =? "HEAD")%string; [tauto|].
    destruct (method =? "POST")%string; tauto.
  - apply probe_result_url.
  - destruct (http env (n_net w)) as [code ms body|e]; simpl.
    + destruct (code =? expected); simpl; split; congruence.
    + split; discriminate.
Qed.

End CheckerFailures.

Lemma check_url_failure_is_down_witness :
  Engine.http Scenarios.dark_env 0%nat = Engine.Failure Scenarios.refused /\
  exists r w',
    Engine.check_url Scenarios.dark_env "https://example.com" "GET" 200 30
                     Scenarios.empty_world = (Ok r, w') /\
    Engine.r_is_up r = false /\ Engine.r_status_code r = None /\
    Engine.r_response_time_ms r = None /\
    exists msg,
      Engine.r_error_message r = Some msg /\
      (exn_cls Scenarios.refused <> TimeoutException -> (String.length msg <= 219)%nat).
Proof.
  split; [reflexivity|].
  apply (check_url_failure_is_down Scenarios.dark_env "https://example.com" "GET" 200 30
           Scenarios.empty_world Scenarios.refused).
  reflexivity.
Defined.

(** ** Frame rules for computations whose only calls are alerts *)

Section AlertFrameRules.

Import Engine Frame.
Local Open Scope engine_scope.

Variable R : World -> World -> Prop.
Hypothesis R_refl : forall w, R w w.
Hypothesis R_trans : forall a b c, R a b -> R b c -> R a c.
Hypothesis R_clock : forall w, R w (tick_clock w).
Hypothesis R_store : forall w, R w (tick_store w).
Hypothesis R_alert :
  forall call w, is_alert_call call = true -> R w (tick_net call w).
Hypothesis R_monitors : forall v w, R w (set_monitors v w).
Hypothesis R_incidents : forall v w, R w (set_incidents v w).
Hypothesis R_history : forall v w, R w (set_alert_history v w).

Variable env : Env.
Variable cfg : Config.

Ltac side :=
  solve [ exact R_refl | exact R_trans | exact R_clock | exact R_store
        | exact R_monitors | exact R_incidents | exact R_history ].
Ltac kbind := apply keeps_bind; [side | | ].
Ltac kret := apply keeps_ret; side.
Ltac know := apply keeps_now; side.

Lemma alerts_keep_send_email alert mon status :
  keeps R (_send_email_alert env cfg alert mon status).
Proof.
  unfold _send_email_alert.
  destruct ((smtp_email cfg =? "")%string || (smtp_password cfg =? "")%string).
  - kret.
  - kbind; [know | intros t1].
    intros w. unfold smtp_session.
    destruct (smtp env (n_net w)); apply R_alert; reflexivity.
Qed.

Lemma alerts_keep_send_webhook alert mon status :
  keeps R (_send_webhook_alert env alert mon status).
Proof.
  unfold _send_webhook_alert.
  kbind; [know | intros t1].
  kbind.
  - intros w. apply R_alert. reflexivity.
  - intros out. destruct out; [kret | apply keeps_raise; side].
Qed.

Lemma alerts_keep_insert_alert_history h : keeps R (insert_alert_history env h).
Proof. apply keeps_insert_alert_history; side. Qed.

Lemma alerts_keep_send_one id mon status alert :
  keeps R (send_one_alert env cfg id mon status alert).
Proof.
  unfold send_one_alert. apply keeps_try_except; [side | | ].
  - kbind; [|intros _; apply alerts_keep_insert_alert_history].
    destruct (a_alert_type alert =? "email")%string;
      [apply alerts_keep_send_email|].
    destruct (a_alert_type alert =? "webhook")%string;
      [apply alerts_keep_send_webhook | kret].
  - intros e. apply alerts_keep_insert_alert_history.
Qed.

Lemma alerts_keep_send_alerts id mon status :
  keeps R (_send_alerts env cfg id mon status).
Proof.
  unfold _send_alerts.
  kbind; [apply keeps_select_active_alert_configs; side | intros alerts].
  apply keeps_for_each; [side | side | ]. intros alert. apply alerts_keep_send_one.
Qed.

Lemma alerts_keep_transition_effects id mon old_status new_status t1 :
  keeps R (transition_effects env cfg id mon old_status new_status t1).
Proof.
  unfold transition_effects.
  destruct (new_status =? "down")%string.
  - kbind; [apply keeps_insert_incident; side | intros _].
    apply alerts_keep_send_alerts.
  - match goal with |- keeps R (if ?b then _ else _) => destruct b end; [|kret].
    kbind; [apply keeps_select_open_incidents; side | intros open].
    kbind; [|intros _; apply alerts_keep_send_alerts].
    apply keeps_for_each; [side | side | ]. intros i.
    unfold resolve_one. kbind; [know | intros t2].
    apply keeps_update_incident; side.
Qed.

Lemma alerts_keep_update_monitor_status id is_up :
  keeps R (update_monitor_status env cfg id is_up).
Proof.
  unfold update_monitor_status.
  kbind; [apply keeps_select_monitor_single; side | intros [mon|]]; [|kret].
  kbind; [know | intros t1].
  kbind; [|intros u; apply keeps_update_monitor; side].
  match goal with |- keeps R (if ?b then _ else _) => destruct b end; [|kret].
  kbind; [apply alerts_keep_transition_effects | intros _; kret].
Qed.

End AlertFrameRules.

(** ** The state machine: the other paths *)

Section StateMachinePaths.

Import Engine Frame.
Local Open Scope engine_scope.

Variable env : Env.
Variable cfg : Config.

(** X13.  A call for a monitor the store does not have writes
    nothing: apart from the count of store requests the world is as
    before.  What the caller gets is what the store client does when
    [.single()] matches no row: the postgrest client raises, so the
    exception leaves the call and the [if not monitor.data: return]
    behind the lookup is not reached; the call returns normally only
    with a client that answers such a lookup with empty data. *)
Theorem update_monitor_status_missing_monitor id is_up w :
  find (by_id id) (monitors w) = None ->
  same_but_store_counter w (snd (update_monitor_status env cfg id is_up w)) /\
  (store_fault env (n_store w) = None ->
   fst (update_monitor_status env cfg id is_up w) =
     match single_no_row env with
     | Some e => Raise e
     | None => Ok tt
     end).
Proof.
  intros Hfind. destruct (store_fault env (n_store w)) as [e|] eqn:Hf.
  - rewrite (update_monitor_status_fault env cfg id is_up w e Hf).
    split; [repeat split | discriminate].
  - rewrite (update_monitor_status_missing env cfg id is_up w Hf Hfind).
    split; [repeat split | reflexivity].
Qed.

Lemma steady_check_frame id is_up w mon :
  find (by_id id) (monitors w) = Some mon ->
  status_changed (m_current_status mon) (new_status_of is_up) = false ->
  same_incidents w (snd (update_monitor_status env cfg id is_up w)) /\
  same_alerting w (snd (update_monitor_status env cfg id is_up w)).
Proof.
  intros Hfind Hsteady. destruct (store_fault env (n_store w)) as [e|] eqn:Hf.
  - rewrite (update_monitor_status_fault env cfg id is_up w e Hf). repeat split.
  - rewrite (update_monitor_status_steady env cfg id is_up w mon Hf Hfind Hsteady).
    rewrite update_monitor_runs. simpl.
    destruct (store_fault env (S (n_store w))); repeat split.
Qed.

(** X14.  A check that finds the monitor already in the status it
    yields (up again, or down again) opens no incident, resolves none
    and sends no alert. *)
Theorem repeated_status_has_no_incident_effect id (is_up : bool) w mon :
  find (by_id id) (monitors w) = Some mon ->
  m_current_status mon = (if is_up then "up" else "down") ->
  same_incidents w (snd (update_monitor_status env cfg id is_up w)) /\
  same_alerting w (snd (update_monitor_status env cfg id is_up w)).
Proof.
  intros Hfind Hold. apply (steady_check_frame id is_up w mon Hfind).
  fold (new_status_of is_up) in Hold. rewrite Hold. apply status_changed_same.
Qed.

Lemma transition_effects_idle id mon old_status t :
  (old_status =? "down")%string = false ->
  transition_effects env cfg id mon old_status "up" t = ret tt.
Proof. intros Hold. unfold transition_effects. simpl. rewrite Hold. reflexivity. Qed.

(** X15.  A check that comes back up resolves incidents and sends the
    recovery alert only when the status was ["down"]: from any other
    status (["paused"] for one) the incidents, the alert history and
    the network trace are left as they were. *)
Theorem up_from_other_than_down_is_silent id w mon :
  find (by_id id) (monitors w) = Some mon ->
  m_current_status mon <> "down" ->
  same_incidents w (snd (update_monitor_status env cfg id true w)) /\
  same_alerting w (snd (update_monitor_status env cfg id true w)).
Proof.
  intros Hfind Hold.
  destruct (status_changed (m_current_status mon) (new_status_of true)) eqn:Hchanged;
    [|apply (steady_check_frame id true w mon Hfind Hchanged)].
  destruct (store_fault env (n_store w)) as [e|] eqn:Hf.
  - rewrite (update_monitor_status_fault env cfg id true w e Hf). repeat split.
  - rewrite (update_monitor_status_found env cfg id true w mon Hf Hfind), Hchanged.
    apply String.eqb_neq in Hold.
    change (new_status_of true) with "up".
    rewrite (transition_effects_idle id mon _ _ Hold).
    unfold bind, ret. rewrite update_monitor_runs. simpl.
    destruct (store_fault env (S (n_store w))); repeat split.
Qed.

Lemma fresh_incident_id_above (l : list Incident) i :
  In i l -> i_id i < fresh_incident_id l.
Proof.
  unfold fresh_incident_id. induction l as [|x l IH]; intros Hin; [destruct Hin|].
  cbn [fold_right]. destruct Hin as [-> | Hin]; [lia|]. specialize (IH Hin). lia.
Qed.

Lemma fresh_incident_id_new (l : list Incident) :
  ~ In (fresh_incident_id l) (map i_id l).
Proof.
  intros Hin. apply in_map_iff in Hin as (i & Hid & Hin).
  apply fresh_incident_id_above in Hin. lia.
Qed.

(** X16.  With the store answering, a check that comes back down for
    a monitor whose status was neither ["unknown"] nor ["down"]
    returns and opens exactly one incident: the table gains one row,
    under a key no row had, for this monitor, started at the time
    read at the start of the call and unresolved; the earlier rows
    are untouched. *)
Theorem down_transition_opens_one_incident id w mon :
  (forall k, store_fault env k = None) ->
  find (by_id id) (monitors w) = Some mon ->
  m_current_status mon <> "unknown" ->
  m_current_status mon <> "down" ->
  fst (update_monitor_status env cfg id false w) = Ok tt /\
  exists key,
    ~ In key (map i_id (incidents w)) /\
    incidents (snd (update_monitor_status env cfg id false w)) =
      (incidents w ++ [mkIncident key id (clock env (n_clock w)) None None false])%list.
Proof.
  intros Hup Hfind Hknown Hnotdown.
  remember (update_monitor_status env cfg id false w) as out eqn:Hout.
  rewrite (update_monitor_status_found env cfg id false w mon (Hup _) Hfind) in Hout.
  change (new_status_of false) with "down" in Hout.
  rewrite (status_changed_true _ _ Hknown Hnotdown) in Hout.
  change (transition_effects env cfg id mon (m_current_status mon) "down"
            (clock env (n_clock w)))
    with (insert_incident env id (clock env (n_clock w)) ;;;
          _send_alerts env cfg id mon "down") in Hout.
  unfold bind, ret, insert_incident in Hout.
  rewrite (execute_runs env Hup) in Hout. simpl in Hout.
  match type of Hout with
  | context [_send_alerts env cfg id mon "down" ?w1] =>
      pose proof (send_alerts_returns env cfg Hup id mon "down" w1) as Hsent;
      pose proof (same_incidents_send_alerts env cfg id mon "down" w1) as Hsame;
      destruct (_send_alerts env cfg id mon "down" w1) as [[[]|e] w2];
      simpl in Hsent, Hsame; [|discriminate]
  end.
  rewrite update_monitor_runs, Hup in Hout. subst out. simpl.
  split; [reflexivity|].
  exists (fresh_incident_id (incidents w)). split; [apply fresh_incident_id_new|].
  unfold same_incidents in Hsame. simpl in Hsame. symmetry. exact Hsame.
Qed.

Lemma updated_fields id u ms m :
  In m (map (apply_monitor_update id u) ms) -> m_id m = id ->
  m_current_status m = u_current_status u /\
  m_last_checked_at m = Some (u_last_checked_at u) /\
  m_updated_at m = Some (u_updated_at u).
Proof.
  intros Hin Hid. apply in_map_iff in Hin as (m0 & <- & _).
  unfold apply_monitor_update in *.
  destruct (m_id m0 =? id)%string eqn:Heq; [repeat split|].
  apply String.eqb_neq in Heq. contradiction.
Qed.

Lemma others_untouched id u ms m :
  m_id m <> id ->
  (In m (map (apply_monitor_update id u) ms) <-> In m ms).
Proof.
  intros Hother. rewrite in_map_iff. split.
  - intros (m0 & Heq & Hin). unfold apply_monitor_update in Heq.
    destruct (m_id m0 =? id)%string eqn:Hid.
    + subst m. simpl in Hother. apply String.eqb_eq in Hid. contradiction.
    + subst m0. exact Hin.
  - intros Hin. exists m. split; [|exact Hin].
    unfold apply_monitor_update. apply String.eqb_neq in Hother.
    rewrite Hother. reflexivity.
Qed.

Lemma update_monitor_status_written id is_up w mon :
  find (by_id id) (monitors w) = Some mon ->
  fst (update_monitor_status env cfg id is_up w) = Ok tt ->
  (forall m, In m (monitors (snd (update_monitor_status env cfg id is_up w))) ->
     m_id m = id ->
     m_current_status m = (if is_up then "up" else "down") /\
     m_last_checked_at m = Some (clock env (n_clock w)) /\
     m_updated_at m = Some (clock env (n_clock w))) /\
  (forall m, m_id m <> id ->
     (In m (monitors (snd (update_monitor_status env cfg id is_up w))) <->
      In m (monitors w))).
Proof.
  intros Hfind.
  remember (update_monitor_status env cfg id is_up w) as out eqn:Hout.
  destruct (store_fault env (n_store w)) as [e|] eqn:Hf.
  { rewrite (update_monitor_status_fault env cfg id is_up w e Hf) in Hout.
    subst out. discriminate. }
  rewrite (update_monitor_status_found env cfg id is_up w mon Hf Hfind) in Hout.
  unfold bind, ret in Hout.
  assert (Hfinal : forall u w2,
            monitors w2 = monitors w ->
            u_current_status u = new_status_of is_up ->
            u_last_checked_at u = clock env (n_clock w) ->
            u_updated_at u = clock env (n_clock w) ->
            out = update_monitor env id u w2 ->
            fst out = Ok tt ->
            (forall m, In m (monitors (snd out)) -> m_id m = id ->
               m_current_status m = (if is_up then "up" else "down") /\
               m_last_checked_at m = Some (clock env (n_clock w)) /\
               m_updated_at m = Some (clock env (n_clock w))) /\
            (forall m, m_id m <> id -> (In m (monitors (snd out)) <-> In m (monitors w)))).
  { intros u w2 Hmon Hs Hc Hu -> . rewrite update_monitor_runs.
    destruct (store_fault env (n_store w2)); [discriminate|]. simpl. intros _.
    rewrite Hmon. split.
    - intros m Hin Hid. apply (updated_fields id u) in Hin; [|exact Hid].
      rewrite Hs, Hc, Hu in Hin. exact Hin.
    - intros m Hother. apply others_untouched. exact Hother. }
  destruct (status_changed (m_current_status mon) (new_status_of is_up)).
  - pose proof (same_monitors_transition_effects env cfg id mon (m_current_status mon)
                  (new_status_of is_up) (clock env (n_clock w))
                  (tick_clock (tick_store w))) as Hsame.
    destruct (transition_effects env cfg id mon (m_current_status mon)
                (new_status_of is_up) (clock env (n_clock w))
                (tick_clock (tick_store w))) as [[[]|e] w2].
    + unfold same_monitors in Hsame. simpl in Hsame.
      eapply Hfinal; [symmetry; exact Hsame | | | | exact Hout]; reflexivity.
    + subst out. discriminate.
  - eapply Hfinal; [| | | | exact Hout]; reflexivity.
Qed.

(** X17.  Every call that finds the monitor and returns has written
    the status the check yields, and the time read at the start of
    the call as [last_checked_at] and [updated_at], on the monitor
    with that id, whatever its status was; the other monitors are as
    they were. *)
Theorem update_monitor_status_writes_the_check id is_up w mon :
  find (by_id id) (monitors w) = Some mon ->
  fst (update_monitor_status env cfg id is_up w) = Ok tt ->
  (forall m, In m (monitors (snd (update_monitor_status env cfg id is_up w))) ->
     m_id m = id ->
     m_current_status m = (if is_up then "up" else "down") /\
     m_last_checked_at m = Some (clock env (n_clock w)) /\
     m_updated_at m = Some (clock env (n_clock w))) /\
  (forall m, m_id m <> id ->
     (In m (monitors (snd (update_monitor_status env cfg id is_up w))) <->
      In m (monitors w))).
Proof. exact (update_monitor_status_written id is_up w mon). Qed.

Lemma only_alert_calls_refl w : only_alert_calls w w.
Proof. exists []. split; [symmetry; apply app_nil_r | reflexivity]. Qed.

Lemma only_alert_calls_trans a b c :
  only_alert_calls a b -> only_alert_calls b c -> only_alert_calls a c.
Proof.
  intros (l1 & H1 & F1) (l2 & H2 & F2). exists (l1 ++ l2)%list. split.
  - rewrite H2, H1. symmetry. apply app_assoc.
  - rewrite forallb_app, F1, F2. reflexivity.
Qed.

Lemma update_monitor_status_frame id is_up w :
  only_alert_calls w (snd (update_monitor_status env cfg id is_up w)) /\
  checks (snd (update_monitor_status env cfg id is_up w)) = checks w /\
  alert_configs (snd (update_monitor_status env cfg id is_up w)) = alert_configs w.
Proof.
  assert (Hkeeps : keeps (fun a b => only_alert_calls a b /\ checks b = checks a /\
                                    alert_configs b = alert_configs a)
                         (update_monitor_status env cfg id is_up)).
  { apply alerts_keep_update_monitor_status.
    - intros w0. split; [apply only_alert_calls_refl | split; reflexivity].
    - intros a b c (H1 & H2 & H3) (H4 & H5 & H6).
      split; [eapply only_alert_calls_trans; eassumption | split; congruence].
    - intros w0. split; [|split; reflexivity].
      exists []. split; [simpl; symmetry; apply app_nil_r | reflexivity].
    - intros w0. split; [|split; reflexivity].
      exists []. split; [simpl; symmetry; apply app_nil_r | reflexivity].
    - intros call w0 Hcall. split; [|split; reflexivity].
      exists [call]. split; [reflexivity|]. simpl. rewrite Hcall. reflexivity.
    - intros v w0. split; [|split; reflexivity].
      exists []. split; [simpl; symmetry; apply app_nil_r | reflexivity].
    - intros v w0. split; [|split; reflexivity].
      exists []. split; [simpl; symmetry; apply app_nil_r | reflexivity].
    - intros v w0. split; [|split; reflexivity].
      exists []. split; [simpl; symmetry; apply app_nil_r | reflexivity]. }
  exact (Hkeeps w).
Qed.

(** X18.  [update_monitor_status] never probes and never writes a
    check: whatever path it takes, the calls it adds to the network
    trace are alert deliveries (webhook posts and SMTP sessions), and
    the [checks] table and the alert configuration are as they were. *)
Theorem update_monitor_status_only_alerts id is_up w :
  only_alert_calls w (snd (update_monitor_status env cfg id is_up w)) /\
  checks (snd (update_monitor_status env cfg id is_up w)) = checks w /\
  alert_configs (snd (update_monitor_status env cfg id is_up w)) = alert_configs w.
Proof. exact (update_monitor_status_frame id is_up w). Qed.

End StateMachinePaths.

Lemma update_monitor_status_missing_monitor_witness :
  let w := Scenarios.empty_world in
  let raised := Engine.update_monitor_status (Scenarios.calm_env 200) Scenarios.no_smtp
                  "nonexistent-id" true w in
  let returned := Engine.update_monitor_status (Scenarios.mocked_env 200) Scenarios.no_smtp
                    "nonexistent-id" true w in
  find (Frame.by_id "nonexistent-id") (Engine.monitors w) = None /\
  Frame.same_but_store_counter w (snd raised) /\
  fst raised = Raise Scenarios.no_rows /\
  Frame.same_but_store_counter w (snd returned) /\
  fst returned = Ok tt.
Proof.
  intros w raised returned. split; [reflexivity|].
  destruct (update_monitor_status_missing_monitor (Scenarios.calm_env 200)
              Scenarios.no_smtp "nonexistent-id" true Scenarios.empty_world eq_refl)
    as [Hsame Hraise].
  destruct (update_monitor_status_missing_monitor (Scenarios.mocked_env 200)
              Scenarios.no_smtp "nonexistent-id" true Scenarios.empty_world eq_refl)
    as [Hsame' Hret].
  split; [exact Hsame|]. split; [exact (Hraise eq_refl)|].
  split; [exact Hsame' | exact (Hret eq_refl)].
Defined.

Lemma repeated_status_has_no_incident_effect_witness :
  let w := Scenarios.world_of [Scenarios.site "down" true None] [Scenarios.outage]
             [Scenarios.webhook_alert] in
  let out := Engine.update_monitor_status (Scenarios.calm_env 503) Scenarios.no_smtp
               "mon-1" false w in
  find (Frame.by_id "mon-1") (Engine.monitors w) = Some (Scenarios.site "down" true None) /\
  Frame.same_incidents w (snd out) /\ Frame.same_alerting w (snd out).
Proof.
  intros w out. split; [reflexivity|].
  apply (repeated_status_has_no_incident_effect (Scenarios.calm_env 503)
           Scenarios.no_smtp "mon-1" false w (Scenarios.site "down" true None));
    reflexivity.
Defined.

Lemma up_from_other_than_down_is_silent_witness :
  let w := Scenarios.world_of [Scenarios.site "paused" false None] [Scenarios.outage]
             [Scenarios.webhook_alert] in
  let out := Engine.update_monitor_status (Scenarios.calm_env 200) Scenarios.no_smtp
               "mon-1" true w in
  find (Frame.by_id "mon-1") (Engine.monitors w)
    = Some (Scenarios.site "paused" false None) /\
  Frame.same_incidents w (snd out) /\ Frame.same_alerting w (snd out).
Proof.
  intros w out. split; [reflexivity|].
  apply (up_from_other_than_down_is_silent (Scenarios.calm_env 200)
           Scenarios.no_smtp "mon-1" w (Scenarios.site "paused" false None));
    [reflexivity | discriminate].
Defined.

Lemma down_transition_opens_one_incident_witness :
  let w := Scenarios.world_of [Scenarios.site "up" true None] [] [] in
  let out := Engine.update_monitor_status (Scenarios.calm_env 503) Scenarios.no_smtp
               "mon-1" false w in
  (forall k, Engine.store_fault (Scenarios.calm_env 503) k = None) /\
  find (Frame.by_id "mon-1") (Engine.monitors w) = Some (Scenarios.site "up" true None) /\
  fst out = Ok tt /\
  exists key,
    Engine.incidents (snd out) =
      [Engine.mkIncident key "mon-1" 3600000000 None None false].
Proof.
  intros w out.
  assert (Hup : forall k, Engine.store_fault (Scenarios.calm_env 503) k = None)
    by (intros k; reflexivity).
  split; [exact Hup|]. split; [reflexivity|].
  destruct (down_transition_opens_one_incident (Scenarios.calm_env 503)
              Scenarios.no_smtp "mon-1" w (Scenarios.site "up" true None) Hup eq_refl)
    as (Hret & key & _ & Htable); [discriminate | discriminate |].
  split; [exact Hret|]. exists key. exact Htable.
Defined.

Lemma update_monitor_status_writes_the_check_witness :
  let w := Scenarios.world_of [Scenarios.site "up" true None; Scenarios.other_site] [] [] in
  let out := Engine.update_monitor_status (Scenarios.calm_env 503) Scenarios.no_smtp
               "mon-1" false w in
  find (Frame.by_id "mon-1") (Engine.monitors w) = Some (Scenarios.site "up" true None) /\
  fst out = Ok tt /\
  (forall m, In m (Engine.monitors (snd out)) -> Engine.m_id m = "mon-1" ->
     Engine.m_current_status m = "down" /\
     Engine.m_last_checked_at m = Some 3600000000 /\
     Engine.m_updated_at m = Some 3600000000) /\
  (In Scenarios.other_site (Engine.monitors (snd out)) <->
   In Scenarios.other_site (Engine.monitors w)).
Proof.
  intros w out. split; [reflexivity|]. split; [reflexivity|].
  destruct (update_monitor_status_writes_the_check (Scenarios.calm_env 503)
              Scenarios.no_smtp "mon-1" false w (Scenarios.site "up" true None)
              eq_refl eq_refl) as [Hset Hothers].
  split; [exact Hset|]. apply Hothers. discriminate.
Defined.

(** ** The dispatcher: one row per channel *)

Section DispatcherFanOut.

Import Engine Frame.
Local Open Scope engine_scope.

Variable env : Env.
Variable cfg : Config.
Hypothesis store_up : forall k, store_fault env k = None.

Lemma same_alert_tables_sender alert mon status :
  keeps same_alert_tables
    (if (a_alert_type alert =? "email")%string then
       _send_email_alert env cfg alert mon status
     else if (a_alert_type alert =? "webhook")%string then
       _send_webhook_alert env alert mon status
     else ret tt).
Proof.
  assert (Hrefl : forall w, same_alert_tables w w) by (intros w; split; reflexivity).
  assert (Htrans : forall a b c, same_alert_tables a b -> same_alert_tables b c ->
                                 same_alert_tables a c)
    by (intros a b c [H1 H2] [H3 H4]; split; congruence).
  destruct (a_alert_type alert =? "email")%string.
  - apply alerts_keep_send_email; try assumption; intros; split; reflexivity.
  - destruct (a_alert_type alert =? "webhook")%string.
    + apply alerts_keep_send_webhook; try assumption; intros; split; reflexivity.
    + apply keeps_ret. exact Hrefl.
Qed.

Lemma send_one_alert_appends id mon status alert w :
  exists row,
    fst (send_one_alert env cfg id mon status alert w) = Ok tt /\
    alert_history (snd (send_one_alert env cfg id mon status alert w)) =
      (alert_history w ++ [row])%list /\
    alert_configs (snd (send_one_alert env cfg id mon status alert w)) = alert_configs w /\
    logged_for id mon status alert row.
Proof.
  pose proof (same_alert_tables_sender alert mon status w) as Hsame.
  unfold send_one_alert, try_except, bind.
  destruct ((if (a_alert_type alert =? "email")%string then
               _send_email_alert env cfg alert mon status
             else if (a_alert_type alert =? "webhook")%string then
               _send_webhook_alert env alert mon status
             else ret tt) w) as [[[]|e] w1];
    destruct Hsame as [Hh Hc]; simpl in Hh, Hc;
    rewrite (insert_alert_history_runs env _ w1 (store_up _)); simpl;
    eexists; (split; [reflexivity|]); rewrite <- Hh, <- Hc;
    (split; [reflexivity|]); (split; [reflexivity|]);
    unfold logged_for; simpl; repeat (split; [reflexivity|]).
  - left. split; reflexivity.
  - right. split; [reflexivity|]. split; [exists e; reflexivity|].
    pose proof (length_prefix 200 (exn_str e)). lia.
Qed.

Lemma for_each_alert_appends id mon status alerts :
  forall w,
    exists rows,
      fst (for_each alerts (send_one_alert env cfg id mon status) w) = Ok tt /\
      alert_history (snd (for_each alerts (send_one_alert env cfg id mon status) w)) =
        (alert_history w ++ rows)%list /\
      Forall2 (logged_for id mon status) alerts rows.
Proof.
  induction alerts as [|alert rest IH]; intros w.
  - exists []. simpl. split; [reflexivity|]. split; [symmetry; apply app_nil_r | constructor].
  - simpl. unfold bind.
    destruct (send_one_alert_appends id mon status alert w)
      as (row & Hok & Hhist & _ & Hrow).
    destruct (send_one_alert env cfg id mon status alert w) as [[[]|e] w1];
      simpl in Hok, Hhist; [|discriminate].
    destruct (IH w1) as (rows & Hok' & Hhist' & Hrows).
    exists (row :: rows). split; [exact Hok'|]. split.
    + rewrite Hhist', Hhist, <- app_assoc. reflexivity.
    + constructor; assumption.
Qed.

(** X19.  With the store answering, [_send_alerts] returns whatever
    the senders do, and appends to the alert history exactly one row
    for each active alert configuration of the monitor, in their
    order: a success row with the status line, or, when the sender
    raised, a failure row whose message is at most 208 characters.
    A failing channel does not keep the later ones from being tried
    and logged. *)
Theorem send_alerts_logs_every_channel id mon status w :
  exists rows,
    fst (_send_alerts env cfg id mon status w) = Ok tt /\
    alert_history (snd (_send_alerts env cfg id mon status w)) =
      (alert_history w ++ rows)%list /\
    Forall2 (logged_for id mon status)
            (filter (alerts_of id) (alert_configs w)) rows.
Proof.
  unfold _send_alerts, bind, select_active_alert_configs.
  rewrite (execute_runs env store_up). simpl.
  apply (for_each_alert_appends id mon status
           (filter (alerts_of id) (alert_configs w)) (tick_store w)).
Qed.

End DispatcherFanOut.

Section DispatcherChannels.

Import Engine Frame.
Local Open Scope engine_scope.

Variable env : Env.
Variable cfg : Config.

(** X20.  An alert configuration whose type is neither ["email"] nor
    ["webhook"] is not delivered anywhere, and is logged as delivered:
    no network call is made and the row written has
    [was_successful = true]. *)
Theorem unknown_alert_type_logged_as_sent id mon status alert w :
  a_alert_type alert <> "email" ->
  a_alert_type alert <> "webhook" ->
  store_fault env (n_store w) = None ->
  exists w',
    send_one_alert env cfg id mon status alert w = (Ok tt, w') /\
    trace w' = trace w /\ n_net w' = n_net w /\
    alert_history w' =
      (alert_history w ++
       [mkAlertHistory (a_id alert) id (a_alert_type alert)
                       (m_name mon ++ " is " ++ upper status) true])%list.
Proof.
  intros Hemail Hhook Hf.
  apply String.eqb_neq in Hemail. apply String.eqb_neq in Hhook.
  unfold send_one_alert, try_except, bind. rewrite Hemail, Hhook. unfold ret.
  rewrite (insert_alert_history_runs env _ w Hf).
  eexists. split; [reflexivity|]. repeat split.
Qed.

(** X21.  With both SMTP credentials set, an email alert opens one
    SMTP session, for the configured destination and with the "down"
    template when the status is ["down"] and the recovery template
    otherwise; the row logged is a success when the session goes
    through and a failure carrying the exception's text, cut at 200
    characters, when it raises. *)
Theorem email_alert_with_credentials id mon status alert w :
  a_alert_type alert = "email" ->
  smtp_email cfg <> "" -> smtp_password cfg <> "" ->
  store_fault env (n_store w) = None ->
  exists w',
    send_one_alert env cfg id mon status alert w = (Ok tt, w') /\
    trace w' =
      (trace w ++
       [SmtpSend (a_destination alert)
                 (if (status =? "down")%string then "down" else "up")
                 (m_name mon) (m_url mon) (clock env (n_clock w))])%list /\
    alert_history w' =
      (alert_history w ++
       [match smtp env (n_net w) with
        | None =>
            mkAlertHistory (a_id alert) id "email"
                           (m_name mon ++ " is " ++ upper status) true
        | Some e =>
            mkAlertHistory (a_id alert) id "email"
                           ("Failed: " ++ prefix 200 (exn_str e)) false
        end])%list.
Proof.
  intros Htype Hemail Hpass Hf.
  apply String.eqb_neq in Hemail. apply String.eqb_neq in Hpass.
  unfold send_one_alert, try_except, bind, _send_email_alert.
  rewrite Htype, Hemail, Hpass. simpl orb. cbv iota.
  unfold bind, now, smtp_session. simpl.
  destruct (smtp env (n_net w)) as [e|];
    rewrite insert_alert_history_runs by exact Hf;
    eexists; (split; [reflexivity|]); split; reflexivity.
Qed.

End DispatcherChannels.

Lemma send_alerts_logs_every_channel_witness :
  let w := Scenarios.world_of [Scenarios.site "up" true None] []
             [Scenarios.email_alert; Scenarios.webhook_alert; Scenarios.pager_alert] in
  let out := Engine._send_alerts Scenarios.dark_env Scenarios.with_smtp "mon-1"
               (Scenarios.site "up" true None) "down" w in
  (forall k, Engine.store_fault Scenarios.dark_env k = None) /\
  fst out = Ok tt /\
  map Engine.h_was_successful (Engine.alert_history (snd out)) = [false; false; true] /\
  exists rows,
    Engine.alert_history (snd out) = rows /\
    Forall2 (Frame.logged_for "mon-1" (Scenarios.site "up" true None) "down")
            [Scenarios.email_alert; Scenarios.webhook_alert; Scenarios.pager_alert] rows.
Proof.
  intros w out.
  assert (Hup : forall k, Engine.store_fault Scenarios.dark_env k = None)
    by (intros k; reflexivity).
  split; [exact Hup|].
  destruct (send_alerts_logs_every_channel Scenarios.dark_env Scenarios.with_smtp Hup
              "mon-1" (Scenarios.site "up" true None) "down" w)
    as (rows & Hret & Hhist & Hrows).
  split; [exact Hret|]. split; [reflexivity|].
  exists rows. split; [exact Hhist | exact Hrows].
Defined.

Lemma unknown_alert_type_logged_as_sent_witness :
  let w := Scenarios.world_of [Scenarios.site "up" true None] [] [Scenarios.pager_alert] in
  Engine.a_alert_type Scenarios.pager_alert <> "email" /\
  Engine.a_alert_type Scenarios.pager_alert <> "webhook" /\
  exists w',
    Engine.send_one_alert (Scenarios.calm_env 200) Scenarios.with_smtp "mon-1"
      (Scenarios.site "up" true None) "down" Scenarios.pager_alert w = (Ok tt, w') /\
    Engine.trace w' = [] /\ Engine.n_net w' = 0%nat /\
    Engine.alert_history w' =
      [Engine.mkAlertHistory "alert-3" "mon-1" "pager" "Test is DOWN" true].
Proof.
  intros w. split; [discriminate|]. split; [discriminate|].
  apply (unknown_alert_type_logged_as_sent (Scenarios.calm_env 200) Scenarios.with_smtp
           "mon-1" (Scenarios.site "up" true None) "down" Scenarios.pager_alert w);
    [discriminate | discriminate | reflexivity].
Defined.

Lemma email_alert_with_credentials_witness :
  let w := Scenarios.world_of [Scenarios.site "down" true None] [] [Scenarios.email_alert] in
  Engine.smtp_email Scenarios.with_smtp <> "" /\
  Engine.smtp_password Scenarios.with_smtp <> "" /\
  exists w',
    Engine.send_one_alert (Scenarios.calm_env 200) Scenarios.with_smtp "mon-1"
      (Scenarios.site "down" true None) "up" Scenarios.email_alert w = (Ok tt, w') /\
    Engine.trace w' =
      [Engine.SmtpSend "user@example.com" "up" "Test" "https://example.com" 3600000000] /\
    Engine.alert_history w' =
      [Engine.mkAlertHistory "alert-1" "mon-1" "email" "Test is UP" true].
Proof.
  intros w. split; [discriminate|]. split; [discriminate|].
  apply (email_alert_with_credentials (Scenarios.calm_env 200) Scenarios.with_smtp
           "mon-1" (Scenarios.site "down" true None) "up" Scenarios.email_alert w);
    [reflexivity | discriminate | discriminate | reflexivity].
Defined.

(** ** The scheduler and the manual trigger: probes and check rows *)

Section CheckPipeline.

Import Engine Frame.
Local Open Scope engine_scope.

Variable env : Env.
Variable cfg : Config.

(** What follows a probe, in the cycle and in [trigger_check]: save
    the result, run the state machine, return. *)
Lemma check_tail {X : Type} id (result : CheckResult) (x : X) w :
  only_alert_calls w
    (snd ((save_check_result env id result ;;;
           update_monitor_status env cfg id (r_is_up result) ;;;
           ret x) w)) /\
  (forall y,
     fst ((save_check_result env id result ;;;
           update_monitor_status env cfg id (r_is_up result) ;;;
           ret x) w) = Ok y ->
     y = x /\
     exists row,
       records id result row /\
       checks (snd ((save_check_result env id result ;;;
                     update_monitor_status env cfg id (r_is_up result) ;;;
                     ret x) w)) = (checks w ++ [row])%list).
Proof.
  unfold bind at 1 3 5. unfold save_check_result, insert_check, execute.
  destruct (store_fault env (n_store w)) as [e|].
  - simpl. split; [|discriminate].
    exists []. split; [simpl; symmetry; apply app_nil_r | reflexivity].
  - cbn [fst snd]. unfold bind, ret.
    match goal with
    | |- context [update_monitor_status env cfg id ?b ?w1] =>
        destruct (update_monitor_status_frame env cfg id b w1) as (Hcalls & Hchecks & _);
        destruct (update_monitor_status env cfg id b w1) as [[[]|e] w2]
    end; simpl in *.
    + split; [exact Hcalls|]. intros y [= <-]. split; [reflexivity|].
      eexists. split; [reflexivity|]. exact Hchecks.
    + split; [exact Hcalls | discriminate].
Qed.

Lemma check_monitor_effects monitor w :
  (exists more,
     trace (snd (check_monitor env cfg monitor w)) =
       (trace w ++ HttpProbe (http_verb (m_method monitor)) (m_url monitor)
                             (m_timeout_seconds monitor) :: more)%list /\
     forallb is_alert_call more = true) /\
  (forall entry,
     fst (check_monitor env cfg monitor w) = Ok entry ->
     exists row,
       records (m_id monitor) (e_result entry) row /\
       checks (snd (check_monitor env cfg monitor w)) = (checks w ++ [row])%list).
Proof.
  assert (Hstep : check_monitor env cfg monitor w =
            (save_check_result env (m_id monitor)
               (probe_result (m_url monitor) (m_expected_status monitor)
                  (m_timeout_seconds monitor) (clock env (n_clock w))
                  (http env (n_net w))) ;;;
             update_monitor_status env cfg (m_id monitor)
               (r_is_up (probe_result (m_url monitor) (m_expected_status monitor)
                           (m_timeout_seconds monitor) (clock env (n_clock w))
                           (http env (n_net w)))) ;;;
             ret (mkCycleEntry (m_name monitor)
                    (probe_result (m_url monitor) (m_expected_status monitor)
                       (m_timeout_seconds monitor) (clock env (n_clock w))
                       (http env (n_net w)))))
              (tick_net (HttpProbe (http_verb (m_method monitor)) (m_url monitor)
                                   (m_timeout_seconds monitor))
                        (tick_clock w))).
  { unfold check_monitor, run_check. unfold bind at 1. rewrite check_url_runs.
    reflexivity. }
  rewrite Hstep.
  match goal with
  | |- context [snd (?tail ?w1)] =>
      destruct (check_tail (m_id monitor)
                  (probe_result (m_url monitor) (m_expected_status monitor)
                     (m_timeout_seconds monitor) (clock env (n_clock w))
                     (http env (n_net w)))
                  (mkCycleEntry (m_name monitor)
                     (probe_result (m_url monitor) (m_expected_status monitor)
                        (m_timeout_seconds monitor) (clock env (n_clock w))
                        (http env (n_net w))))
                  w1) as [(more & Hmore & Halerts) Hret]
  end.
  split.
  - exists more. split; [|exact Halerts].
    rewrite Hmore. simpl. rewrite <- app_assoc. reflexivity.
  - intros entry Hentry. destruct (Hret entry Hentry) as (-> & row & Hrow & Hchecks).
    exists row. split; [exact Hrow | exact Hchecks].
Qed.

Lemma check_loop_rows pending :
  forall results w out w',
    check_loop env cfg pending results w = (Ok out, w') ->
    exists entries rows,
      out = (results ++ entries)%list /\
      checks w' = (checks w ++ rows)%list /\
      Forall2 (fun entry row => exists id, records id (e_result entry) row) entries rows.
Proof.
  induction pending as [|monitor rest IH]; intros results w out w' Hrun.
  - simpl in Hrun. injection Hrun as <- <-. exists [], [].
    split; [symmetry; apply app_nil_r|]. split; [symmetry; apply app_nil_r | constructor].
  - destruct (check_loop_step env cfg monitor rest results w)
      as (w1 & Hsame & _ & [[_ Hstep] | [_ Hstep]]);
      rewrite Hstep in Hrun; clear Hstep;
      destruct Hsame as (_ & Hchecks1 & _).
    + unfold bind in Hrun.
      destruct (check_monitor_effects monitor w1) as [_ Hsaved].
      destruct (check_monitor env cfg monitor w1) as [[entry|e] w2]; [|discriminate].
      destruct (Hsaved entry eq_refl) as (row & Hrow & Hchecks2). simpl in Hchecks2.
      destruct (IH _ _ _ _ Hrun) as (entries & rows & Hout & Hchecks & Hall).
      exists (entry :: entries), (row :: rows).
      split; [rewrite Hout, <- app_assoc; reflexivity|]. split.
      * rewrite Hchecks, Hchecks2, Hchecks1, <- app_assoc. reflexivity.
      * constructor; [exists (m_id monitor); exact Hrow | exact Hall].
    + destruct (IH _ _ _ _ Hrun) as (entries & rows & Hout & Hchecks & Hall).
      exists entries, rows. split; [exact Hout|]. split; [|exact Hall].
      rewrite Hchecks, Hchecks1. reflexivity.
Qed.

(** X22.  A cycle that returns has saved one check row for each entry
    of the list it returns, in the same order and holding the same
    status code, response time, verdict, message and time; it adds no
    other row to [checks]. *)
Theorem cycle_saves_a_check_per_entry w out w' :
  run_all_checks env cfg w = (Ok out, w') ->
  exists rows,
    checks w' = (checks w ++ rows)%list /\
    Forall2 (fun entry row => exists id, records id (e_result entry) row) out rows.
Proof.
  intros Hrun. unfold run_all_checks, bind, select_active_monitors, execute in Hrun.
  destruct (store_fault env (n_store w)); [discriminate|]. simpl in Hrun.
  destruct (check_loop_rows _ _ _ _ _ Hrun) as (entries & rows & Hout & Hchecks & Hall).
  simpl in Hout, Hchecks. subst out. exists rows. split; [exact Hchecks | exact Hall].
Qed.

Lemma probes_within_more ms m call : probes_within ms call -> probes_within (m :: ms) call.
Proof.
  destruct call; simpl; try tauto.
  intros (m0 & Hin & H). exists m0. split; [right; exact Hin | exact H].
Qed.

Lemma alert_calls_within ms calls :
  forallb is_alert_call calls = true -> Forall (probes_within ms) calls.
Proof.
  induction calls as [|c rest IH]; simpl; [constructor|].
  intros H. apply andb_true_iff in H as [Hc Hrest].
  constructor; [|apply IH; exact Hrest]. destruct c; try discriminate; exact I.
Qed.

Lemma check_loop_calls pending :
  forall results w,
    exists calls,
      trace (snd (check_loop env cfg pending results w)) = (trace w ++ calls)%list /\
      Forall (probes_within pending) calls.
Proof.
  induction pending as [|monitor rest IH]; intros results w.
  - exists []. split; [simpl; symmetry; apply app_nil_r | constructor].
  - destruct (check_loop_step env cfg monitor rest results w)
      as (w1 & Hsame & _ & [[_ Hstep] | [_ Hstep]]); rewrite Hstep; clear Hstep;
      destruct Hsame as (_ & _ & _ & _ & _ & _ & _ & Htrace1).
    + unfold bind.
      destruct (check_monitor_effects monitor w1) as [(more & Hmore & Halerts) _].
      assert (Hmine : Forall (probes_within (monitor :: rest))
                (HttpProbe (http_verb (m_method monitor)) (m_url monitor)
                           (m_timeout_seconds monitor) :: more)).
      { constructor; [|apply alert_calls_within; exact Halerts].
        exists monitor. split; [left; reflexivity | repeat split]. }
      destruct (check_monitor env cfg monitor w1) as [[entry|e] w2]; simpl in Hmore.
      * destruct (IH (results ++ [entry])%list w2) as (calls & Hcalls & Hall).
        eexists. split.
        -- rewrite Hcalls, Hmore, Htrace1, <- app_assoc. reflexivity.
        -- apply Forall_app. split; [exact Hmine|].
           eapply Forall_impl; [|exact Hall]. intros c. apply probes_within_more.
      * eexists. split; [simpl; rewrite Hmore, Htrace1; reflexivity | exact Hmine].
    + destruct (IH results w1) as (calls & Hcalls & Hall).
      exists calls. split; [rewrite Hcalls, Htrace1; reflexivity|].
      eapply Forall_impl; [|exact Hall]. intros c. apply probes_within_more.
Qed.

(** X23.  Whether a cycle returns or raises, every HTTP probe it
    issued went to the URL of a monitor that is active in the store
    at the start of the cycle, with that monitor's method and timeout;
    its other calls are alert deliveries.  A paused monitor is never
    probed by the scheduler. *)
Theorem cycle_probes_only_active_monitors w :
  exists calls,
    trace (snd (run_all_checks env cfg w)) = (trace w ++ calls)%list /\
    Forall (fun call =>
              match call with
              | HttpProbe verb url timeout =>
                  exists m, In m (monitors w) /\ m_is_active m = true /\
                            verb = http_verb (m_method m) /\ url = m_url m /\
                            timeout = m_timeout_seconds m
              | CapabilityFetch _ _ => False
              | _ => True
              end) calls.
Proof.
  unfold run_all_checks, bind, select_active_monitors, execute.
  destruct (store_fault env (n_store w)).
  - exists []. split; [simpl; symmetry; apply app_nil_r | constructor].
  - cbn [fst snd].
    destruct (check_loop_calls (filter m_is_active (monitors w)) [] (tick_store w))
      as (calls & Hcalls & Hall).
    exists calls. split; [exact Hcalls|].
    eapply Forall_impl; [|exact Hall].
    intros call. destruct call; simpl; try tauto.
    intros (m & Hin & H). apply filter_In in Hin as [Hin Hactive].
    exists m. tauto.
Qed.

(** X24.  For a monitor the store does not have, [trigger_check]
    neither probes nor writes: the lookup is its only action, and it
    ends as the store client ends a [.single()] that matches no row,
    with the client's exception (postgrest) or, with a client that
    answers with empty data, by returning [None].  For a monitor it
    finds it probes at once, whether or not the monitor is active or due, and
    then saves the check and runs the state machine: when it returns,
    what it returns is the probe's result and one check row for it
    has been added. *)
Theorem trigger_check_probes_at_once id w :
  store_fault env (n_store w) = None ->
  (find (by_id id) (monitors w) = None ->
   App.trigger_check env cfg id w =
     (match single_no_row env with
      | Some e => Raise e
      | None => Ok None
      end, tick_store w)) /\
  (forall m,
     find (by_id id) (monitors w) = Some m ->
     (exists more,
        trace (snd (App.trigger_check env cfg id w)) =
          (trace w ++ HttpProbe (http_verb (m_method m)) (m_url m)
                                (m_timeout_seconds m) :: more)%list /\
        forallb is_alert_call more = true) /\
     (forall answer,
        fst (App.trigger_check env cfg id w) = Ok answer ->
        answer = Some (probe_result (m_url m) (m_expected_status m)
                         (m_timeout_seconds m) (clock env (n_clock w))
                         (http env (n_net w))) /\
        exists row,
          checks (snd (App.trigger_check env cfg id w)) = (checks w ++ [row])%list /\
          c_monitor_id row = id /\
          c_is_up row = r_is_up (probe_result (m_url m) (m_expected_status m)
                                   (m_timeout_seconds m) (clock env (n_clock w))
                                   (http env (n_net w))))).
Proof.
  intros Hf. split.
  - intros Hfind. unfold App.trigger_check, bind, select_monitor_single.
    rewrite Hf. unfold by_id in Hfind. rewrite Hfind.
    destruct (single_no_row env); reflexivity.
  - intros m Hfind.
    assert (Hstep : App.trigger_check env cfg id w =
              (save_check_result env id
                 (probe_result (m_url m) (m_expected_status m) (m_timeout_seconds m)
                    (clock env (n_clock w)) (http env (n_net w))) ;;;
               update_monitor_status env cfg id
                 (r_is_up (probe_result (m_url m) (m_expected_status m)
                             (m_timeout_seconds m) (clock env (n_clock w))
                             (http env (n_net w)))) ;;;
               ret (Some (probe_result (m_url m) (m_expected_status m)
                            (m_timeout_seconds m) (clock env (n_clock w))
                            (http env (n_net w)))))
                (tick_net (HttpProbe (http_verb (m_method m)) (m_url m)
                                     (m_timeout_seconds m))
                          (tick_clock (tick_store w)))).
    { unfold App.trigger_check, select_monitor_single.
      unfold bind at 1. rewrite Hf. unfold by_id in Hfind. rewrite Hfind.
      unfold run_check. unfold bind at 1. rewrite check_url_runs. reflexivity. }
    rewrite Hstep.
    match goal with
    | |- context [snd (?tail ?w1)] =>
        destruct (check_tail id
                    (probe_result (m_url m) (m_expected_status m) (m_timeout_seconds m)
                       (clock env (n_clock w)) (http env (n_net w)))
                    (Some (probe_result (m_url m) (m_expected_status m)
                             (m_timeout_seconds m) (clock env (n_clock w))
                             (http env (n_net w))))
                    w1) as [(more & Hmore & Halerts) Hret]
    end.
    split.
    + exists more. split; [|exact Halerts].
      rewrite Hmore. simpl. rewrite <- app_assoc. reflexivity.
    + intros answer Hanswer.
      destruct (Hret answer Hanswer) as (-> & row & Hrow & Hchecks).
      split; [reflexivity|]. exists row. split; [exact Hchecks|].
      unfold records in Hrow. subst row. split; reflexivity.
Qed.

End CheckPipeline.

Lemma cycle_saves_a_check_per_entry_witness :
  let w := Scenarios.world_of [Scenarios.site "up" true None; Scenarios.other_site] [] [] in
  exists out w',
    Engine.run_all_checks (Scenarios.calm_env 200) Scenarios.no_smtp w = (Ok out, w') /\
    List.length out = 2%nat /\
    exists rows,
      Engine.checks w' = rows /\
      Forall2 (fun entry row =>
                 exists id, Frame.records id (Engine.e_result entry) row) out rows.
Proof.
  intros w.
  destruct (Engine.run_all_checks (Scenarios.calm_env 200) Scenarios.no_smtp w)
    as [[out|e] w'] eqn:Hrun; [|vm_compute in Hrun; discriminate].
  exists out, w'. split; [reflexivity|]. split.
  - vm_compute in Hrun. injection Hrun as <- _. reflexivity.
  - destruct (cycle_saves_a_check_per_entry (Scenarios.calm_env 200) Scenarios.no_smtp
                w out w' Hrun) as (rows & Hchecks & Hall).
    exists rows. split; [exact Hchecks | exact Hall].
Defined.

Lemma trigger_check_probes_at_once_witness :
  let w := Scenarios.world_of
             [Scenarios.site "paused" false (Some 3599999999)] [] [] in
  let out := App.trigger_check (Scenarios.calm_env 200) Scenarios.no_smtp "mon-1" w in
  Engine.store_fault (Scenarios.calm_env 200) 0%nat = None /\
  Engine.trace (snd out) = [Engine.HttpProbe "GET" "https://example.com" 30] /\
  (exists more,
     Engine.trace (snd out) =
       (Engine.trace w ++ Engine.HttpProbe "GET" "https://example.com" 30 :: more)%list /\
     forallb Frame.is_alert_call more = true) /\
  App.trigger_check (Scenarios.calm_env 200) Scenarios.no_smtp "mon-9" w =
    (Raise Scenarios.no_rows, Engine.tick_store w) /\
  App.trigger_check (Scenarios.mocked_env 200) Scenarios.no_smtp "mon-9" w =
    (Ok None, Engine.tick_store w).
Proof.
  intros w out. split; [reflexivity|]. split; [reflexivity|].
  split; [|split].
  - exact (proj1 (proj2 (trigger_check_probes_at_once (Scenarios.calm_env 200)
                           Scenarios.no_smtp "mon-1" w eq_refl)
                        (Scenarios.site "paused" false (Some 3599999999)) eq_refl)).
  - exact (proj1 (trigger_check_probes_at_once (Scenarios.calm_env 200)
                    Scenarios.no_smtp "mon-9" w eq_refl) eq_refl).
  - exact (proj1 (trigger_check_probes_at_once (Scenarios.mocked_env 200)
                    Scenarios.no_smtp "mon-9" w eq_refl) eq_refl).
Defined.

(** ** Saving a capability check *)

Section CapabilityCheckSaved.

Import Engine Frame SCHP.
Local Open Scope engine_scope.

Variable env : Env.

(** X25.  The row saved for a capability check never holds the
    endpoint's own HTTP status: the code is 200 for an up result and
    503 otherwise.  An answer other than 200 is saved as a down row
    with code 503 and the message "HTTP <code>".  A validated answer
    is saved with the names [get_failed_capabilities] lists in a
    "Degraded: ..." message whenever there are any, also when an
    explicit status makes the result up. *)
Theorem capability_check_saved_row id url timeout w :
  store_fault env (n_store w) = None ->
  exists row w',
    (result <- check_capabilities env url timeout ;;
     save_capability_check_result env id result) w = (Ok tt, w') /\
    checks w' = (checks w ++ [row])%list /\
    c_monitor_id row = id /\
    c_status_code row = Some (if c_is_up row then 200 else 503) /\
    (forall code ms body,
       http env (n_net w) = Response code ms body -> code <> 200 ->
       c_is_up row = false /\
       c_error_message row = Some ("HTTP " ++ str_of_int code)) /\
    (forall ms data names,
       http env (n_net w) = Response 200 ms (Some (JDict data)) ->
       _validate_schp_response (JDict data) = None ->
       get_failed_capabilities data = Ok names ->
       c_error_message row =
         match names with
         | [] => None
         | _ => Some ("Degraded: " ++ String.concat ", " names)
         end).
Proof.
  intros Hf. unfold bind.
  destruct (check_capabilities_cases env url timeout w)
    as [(ms & d & status & names & Hout & Hv & Hs & Hn & Hrun)
       | (Hnot & rt & msg & Hrun)];
    rewrite Hrun; unfold save_capability_check_result, insert_check, execute;
    cbn [n_store tick_net tick_clock]; rewrite Hf; cbn [fst snd].
  - eexists. eexists. split; [reflexivity|]. simpl.
    split; [reflexivity|]. split; [reflexivity|]. split; [reflexivity|]. split.
    + intros code ms' body Hresp Hcode. rewrite Hout in Hresp.
      injection Hresp as <- _ _. contradiction.
    + intros ms' data names' Hresp _ Hn'. rewrite Hout in Hresp.
      injection Hresp as _ <-. rewrite Hn in Hn'. injection Hn' as <-.
      destruct names; reflexivity.
  - assert (Hmsg : forall code ms body,
              http env (n_net w) = Response code ms body -> code <> 200 ->
              msg = ("HTTP " ++ str_of_int code)%string).
    { intros code ms body Hresp Hcode.
      unfold check_capabilities in Hrun. unfold bind at 1 in Hrun.
      rewrite fetch_capabilities_runs in Hrun. unfold fetch_outcome in Hrun.
      rewrite Hresp in Hrun. apply Z.eqb_neq in Hcode. rewrite Hcode in Hrun.
      simpl in Hrun. unfold ret in Hrun. injection Hrun as _ Hm. symmetry. exact Hm. }
    eexists. eexists. split; [reflexivity|]. simpl.
    split; [reflexivity|]. split; [reflexivity|]. split; [reflexivity|]. split.
    + intros code ms body Hresp Hcode. split; [reflexivity|].
      rewrite (Hmsg code ms body Hresp Hcode). reflexivity.
    + intros ms data names Hresp Hv _. exfalso. exact (Hnot ms (JDict data) Hresp Hv).
Qed.

End CapabilityCheckSaved.

Lemma capability_check_saved_row_witness :
  let w := Scenarios.world_of [Scenarios.site "up" true None] [] [] in
  Engine.store_fault (Scenarios.schp_env Scenarios.mixed_doc) 0%nat = None /\
  exists row w',
    Engine.bind
      (Engine.check_capabilities (Scenarios.schp_env Scenarios.mixed_doc)
         "https://example.com" 30)
      (fun result =>
         Engine.save_capability_check_result (Scenarios.schp_env Scenarios.mixed_doc)
           "mon-1" result) w = (Ok tt, w') /\
    Engine.checks w' = [row] /\
    Engine.c_status_code row = Some (if Engine.c_is_up row then 200 else 503) /\
    Engine.c_error_message row = Some "Degraded: cache".
Proof.
  intros w. split; [reflexivity|].
  destruct (capability_check_saved_row (Scenarios.schp_env Scenarios.mixed_doc)
              "mon-1" "https://example.com" 30 w eq_refl)
    as (row & w' & Hrun & Hchecks & _ & Hcode & _ & Hmsg).
  exists row, w'. split; [exact Hrun|]. split; [exact Hchecks|].
  split; [exact Hcode|].
  exact (Hmsg 17 Scenarios.mixed_doc ["cache"] eq_refl eq_refl eq_refl).
Defined.

(** ** The webhook channel and the cycle when the store answers *)

Section WebhookAndCycle.

Import Engine Frame.
Local Open Scope engine_scope.

Variable env : Env.
Variable cfg : Config.

(** X26.  A webhook alert makes one POST to the configured
    destination, carrying the monitor's name and URL, the status and
    the time read just before; when the transport raises, the row
    logged is a failure whose message is ["Failed: "] followed by the
    first 200 characters of the exception's text. *)
Theorem webhook_alert_posts_payload id mon status alert w :
  a_alert_type alert = "webhook" ->
  store_fault env (n_store w) = None ->
  exists w',
    send_one_alert env cfg id mon status alert w = (Ok tt, w') /\
    trace w' =
      (trace w ++ [WebhookPost (a_destination alert) (m_name mon) (m_url mon) status
                               (clock env (n_clock w))])%list /\
    (forall e,
       http env (n_net w) = Failure e ->
       alert_history w' =
         (alert_history w ++
          [mkAlertHistory (a_id alert) id "webhook"
                          ("Failed: " ++ prefix 200 (exn_str e)) false])%list).
Proof.
  intros Htype Hf.
  unfold send_one_alert, try_except, bind.
  rewrite Htype. simpl. rewrite send_webhook_alert_runs.
  destruct (http env (n_net w)) as [code ms body|e];
    rewrite insert_alert_history_runs by exact Hf;
    eexists; (split; [reflexivity|]); (split; [reflexivity|]).
  - intros e [=].
  - intros e' [= <-]. reflexivity.
Qed.

(** X27.  When no store request fails, a cycle returns: no sender and
    no probe failure can make it raise.  And every active monitor
    that was never checked has been probed by the end of it. *)
Theorem cycle_returns_when_store_answers w :
  (forall k, store_fault env k = None) ->
  (exists out, fst (run_all_checks env cfg w) = Ok out) /\
  (forall m, In m (monitors w) -> m_is_active m = true -> m_last_checked_at m = None ->
     In (HttpProbe (http_verb (m_method m)) (m_url m) (m_timeout_seconds m))
        (trace (snd (run_all_checks env cfg w)))).
Proof.
  intros Hup.
  unfold run_all_checks, bind, select_active_monitors.
  rewrite (execute_runs env Hup). simpl.
  destruct (check_loop_completes env cfg Hup (filter m_is_active (monitors w)) []
              (tick_store w) (active_monitors_known w)) as [Hret Hprobed].
  split; [exact Hret|].
  intros m Hin Hactive Hnever. apply Hprobed; [|exact Hnever].
  apply filter_In. split; assumption.
Qed.

End WebhookAndCycle.

Lemma webhook_alert_posts_payload_witness :
  let w := Scenarios.world_of [Scenarios.site "up" true None] [] [Scenarios.webhook_alert] in
  Engine.http Scenarios.dark_env 0%nat = Engine.Failure Scenarios.refused /\
  exists w',
    Engine.send_one_alert Scenarios.dark_env Scenarios.no_smtp "mon-1"
      (Scenarios.site "up" true None) "down" Scenarios.webhook_alert w = (Ok tt, w') /\
    Engine.trace w' =
      [Engine.WebhookPost "https://hooks.example.com/x" "Test" "https://example.com"
                          "down" 3600000000] /\
    Engine.alert_history w' =
      [Engine.mkAlertHistory "alert-2" "mon-1" "webhook"
                             "Failed: connection refused" false].
Proof.
  intros w. split; [reflexivity|].
  destruct (webhook_alert_posts_payload Scenarios.dark_env Scenarios.no_smtp "mon-1"
              (Scenarios.site "up" true None) "down" Scenarios.webhook_alert w
              eq_refl eq_refl) as (w' & Hrun & Htrace & Hfail).
  exists w'. split; [exact Hrun|]. split; [exact Htrace|].
  exact (Hfail Scenarios.refused eq_refl).
Defined.

Lemma cycle_returns_when_store_answers_witness :
  let w := Scenarios.world_of [Scenarios.site "unknown" true None; Scenarios.other_site]
                              [] [] in
  (forall k, Engine.store_fault Scenarios.dark_env k = None) /\
  (exists out, fst (Engine.run_all_checks Scenarios.dark_env Scenarios.with_smtp w)
               = Ok out) /\
  In (Engine.HttpProbe "GET" "https://example.org" 30)
     (Engine.trace (snd (Engine.run_all_checks Scenarios.dark_env Scenarios.with_smtp w))).
Proof.
  intros w.
  assert (Hup : forall k, Engine.store_fault Scenarios.dark_env k = None)
    by (intros k; reflexivity).
  split; [exact Hup|].
  destruct (cycle_returns_when_store_answers Scenarios.dark_env Scenarios.with_smtp w Hup)
    as [Hret Hprobed].
  split; [exact Hret|].
  apply (Hprobed Scenarios.other_site); [right; left; reflexivity | reflexivity | reflexivity].
Defined.

(** * The scheduler cycle, turn by turn *)

Section CycleSchedule.

Import Engine Frame Schedule.
Local Open Scope engine_scope.

Variable env : Env.
Variable cfg : Config.

(** The test at the head of the loop body reads the clock when
    [last_checked_at] is set, and nothing else happens in it. *)
Lemma due_test_runs monitor w :
  (due (clock env (n_clock w)) monitor /\
   due_test env monitor w = (Ok true, after_due_test monitor w)) \/
  (~ due (clock env (n_clock w)) monitor /\
   due_test env monitor w = (Ok false, tick_clock w)).
Proof.
  unfold due_test, due, after_due_test.
  destruct (m_last_checked_at monitor) as [last|];
    [|left; split; [exact I | reflexivity]].
  unfold bind, now, ret.
  destruct (clock env (n_clock w) - last <?
            m_check_interval_seconds monitor * usec_per_sec) eqn:Hlt.
  - right. split; [|reflexivity]. apply Z.ltb_lt in Hlt. lia.
  - left. split; [|reflexivity]. apply Z.ltb_ge in Hlt. lia.
Qed.

Lemma check_loop_visits pending :
  forall results w,
    exists o,
      visits env (fun m w1 r w2 => check_monitor env cfg m w1 = (r, w2)) pending w o
             (snd (check_loop env cfg pending results w)) /\
      fst (check_loop env cfg pending results w) =
        match o with
        | Ok out => Ok (results ++ out)%list
        | Raise e => Raise e
        end.
Proof.
  induction pending as [|monitor rest IH]; intros results w.
  - exists (Ok []). split; [constructor | simpl; rewrite app_nil_r; reflexivity].
  - assert (Hstep : check_loop env cfg (monitor :: rest) results w =
                    match due_test env monitor w with
                    | (Ok true, w1) =>
                        match check_monitor env cfg monitor w1 with
                        | (Ok entry, w2) =>
                            check_loop env cfg rest (results ++ [entry])%list w2
                        | (Raise e, w2) => (Raise e, w2)
                        end
                    | (Ok false, w1) => check_loop env cfg rest results w1
                    | (Raise e, w1) => (Raise e, w1)
                    end).
    { cbn [check_loop]. unfold bind.
      destruct (due_test env monitor w) as [[[|]|e] w1]; reflexivity. }
    rewrite Hstep. clear Hstep.
    destruct (due_test_runs monitor w) as [[Hdue Htest] | [Hnot Htest]];
      rewrite Htest.
    + destruct (check_monitor env cfg monitor (after_due_test monitor w))
        as [[entry|e] w2] eqn:Hcheck.
      * destruct (IH (results ++ [entry])%list w2) as (o & Hvisits & Hout).
        exists (prepend entry o). split.
        -- eapply visits_check; eassumption.
        -- rewrite Hout. destruct o; simpl; [rewrite <- app_assoc|]; reflexivity.
      * exists (Raise e). split; [|reflexivity].
        simpl. eapply visits_abort; eassumption.
    + destruct (IH results (tick_clock w)) as (o & Hvisits & Hout).
      exists o. split; [|exact Hout].
      apply visits_skip; assumption.
Qed.

Lemma visits_weaken (P Q : turn) ms w o w' :
  (forall m w1 r w2, P m w1 r w2 -> Q m w1 r w2) ->
  visits env P ms w o w' -> visits env Q ms w o w'.
Proof.
  intros HPQ H. induction H.
  - apply visits_done.
  - apply visits_skip; assumption.
  - eapply visits_check; eauto.
  - eapply visits_abort; eauto.
Qed.

(** The cycle is its load of the active monitors followed by their
    turns, whatever is known of the turns. *)
Lemma run_all_checks_visits (Q : turn) w :
  (forall m w1 r w2, check_monitor env cfg m w1 = (r, w2) -> Q m w1 r w2) ->
  match store_fault env (n_store w) with
  | Some e => run_all_checks env cfg w = (Raise e, tick_store w)
  | None =>
      visits env Q (filter m_is_active (monitors w)) (tick_store w)
             (fst (run_all_checks env cfg w)) (snd (run_all_checks env cfg w))
  end.
Proof.
  intros HQ. unfold run_all_checks, bind, select_active_monitors, execute.
  destruct (store_fault env (n_store w)); [reflexivity|]. cbv beta iota.
  destruct (check_loop_visits (filter m_is_active (monitors (tick_store w))) []
              (tick_store w)) as (o & Hvisits & Hout).
  assert (Ho : fst (check_loop env cfg (filter m_is_active (monitors (tick_store w))) []
                      (tick_store w)) = o)
    by (rewrite Hout; destruct o; reflexivity).
  rewrite Ho. eapply visits_weaken; [exact HQ|]. exact Hvisits.
Qed.

(** *** What a turn does *)

Lemma check_monitor_unfolds m w :
  check_monitor env cfg m w =
    (save_check_result env (m_id m) (verdict env m w) ;;;
     update_monitor_status env cfg (m_id m) (r_is_up (verdict env m w)) ;;;
     ret (mkCycleEntry (m_name m) (verdict env m w)))
      (tick_net (probe_of m) (tick_clock w)).
Proof.
  unfold check_monitor, run_check. unfold bind at 1. rewrite check_url_runs.
  reflexivity.
Qed.


Lemma check_monitor_trace m w1 r w2 :
  check_monitor env cfg m w1 = (r, w2) ->
  exists alerts,
    trace w2 = (trace w1 ++ probe_of m :: alerts)%list /\
    forallb is_alert_call alerts = true.
Proof.
  intros Hrun.
  destruct (check_monitor_effects env cfg m w1) as [(alerts & Htrace & Halerts) _].
  rewrite Hrun in Htrace. exists alerts. split; [exact Htrace | exact Halerts].
Qed.

Lemma check_monitor_entry m w1 entry w2 :
  check_monitor env cfg m w1 = (Ok entry, w2) ->
  entry = mkCycleEntry (m_name m) (verdict env m w1).
Proof.
  intros Hrun. rewrite check_monitor_unfolds in Hrun.
  eapply returns_last. rewrite Hrun. reflexivity.
Qed.


Lemma check_monitor_http_checked m w1 r w2 :
  check_monitor env cfg m w1 = (r, w2) -> http_checked env cfg m w1 r w2.
Proof.
  intros Hrun. split; [exact Hrun|].
  split; [exact (check_monitor_trace m w1 r w2 Hrun)|].
  intros entry ->. exact (check_monitor_entry m w1 entry w2 Hrun).
Qed.

End CycleSchedule.

(** * Store failures in a cycle *)

Section StoreDiscipline.

Import Engine Frame Schedule.
Local Open Scope engine_scope.

Variable env : Env.
Variable cfg : Config.

















End StoreDiscipline.

(** * What a cycle guarantees *)

Section CycleTheorems.

Import Engine Frame Schedule.
Local Open Scope engine_scope.

Variable env : Env.
Variable cfg : Config.



(** C8, as the code has it.  No call a cycle issues is a capability
    fetch: the scheduler never runs the SCHP client.  And every
    monitor that is due at its turn is checked by the plain HTTP
    checker: the request made for it is by the monitor's method, to
    its URL, with its timeout, and the entry of the output holds the
    verdict of [check_url] on the answer to that request against the
    monitor's [expected_status]. *)
Theorem scheduler_runs_the_http_checker w :
  no_fetch_added w (snd (run_all_checks env cfg w)) /\
  match store_fault env (n_store w) with
  | Some e => run_all_checks env cfg w = (Raise e, tick_store w)
  | None =>
      visits env (http_checked env cfg) (filter m_is_active (monitors w)) (tick_store w)
             (fst (run_all_checks env cfg w)) (snd (run_all_checks env cfg w))
  end.
Proof.
  split; [apply no_fetch_added_run_all_checks|].
  apply (run_all_checks_visits env cfg). exact (check_monitor_http_checked env cfg).
Qed.


End CycleTheorems.


(** The cycle of the witness, evaluated: the failed insert of the
    success row is logged as a failed alert, and both monitors are
    probed. *)
Example absorbed_log_failure :
  let w := Scenarios.world_of [Scenarios.site "up" true None; Scenarios.other_site]
                              [] [Scenarios.webhook_alert] in
  let out := Engine.run_all_checks Scenarios.lossy_log_env Scenarios.no_smtp w in
  map Engine.h_message (Engine.alert_history (snd out)) = ["Failed: connection reset"] /\
  map Engine.h_was_successful (Engine.alert_history (snd out)) = [false] /\
  filter (fun c => negb (Frame.is_alert_call c)) (Engine.trace (snd out)) =
    [Engine.HttpProbe "GET" "https://example.com" 30;
     Engine.HttpProbe "GET" "https://example.org" 30].
Proof. vm_compute. repeat split. Qed.
